(** * Job-tracker classification core: a shallow embedding.

    The development follows the TypeScript sources

    - [src/app/api/email/scan/route.ts] (noise filter, field extractors,
      status classifier, confidence scorer, hybrid classifier, text
      normalizer),
    - the AI e-mail analysis service ([AIEmailAnalysisService]),
    - [src/lib/job-recategorization-service.ts] (batch recategorization
      and its statistics),
    - the recategorization route (analysis with the AI service) and the
      simple statistics endpoint,
    - the resume analysis service of [src/lib/interview-prep-service.ts]
      (dispatch and pattern-based fallback) and the resume route,
    - [debugJobImport] of [src/test-recategorize.js].

    JavaScript strings are modelled as lists of 8-bit characters.  Case
    mapping and the whitespace class are those of the ASCII range; characters
    above 127 are inert (caseless, not whitespace), so text outside ASCII is
    carried through as its UTF-8 bytes.  Numbers that the code only adds,
    compares and takes minima of (confidences) are rationals; timestamps are
    integers (milliseconds). *)

From Stdlib Require Import List Ascii String NArith ZArith QArith Qminmax Bool.
From Stdlib Require Import Lia Lqa.
From stdpp Require Import gmap strings.

Set Default Proof Using "Type".
#[local] Set Warnings "-register-all,-clear-no-such-hyp".
Local Open Scope list_scope.

(* ===================================================================== *)
(** ** JavaScript string primitives *)
(* ===================================================================== *)

Module Js.

Definition str := list ascii.

Definition lit (s : string) : str := list_ascii_of_string s.
Coercion lit : string >-> str.

Definition code (c : ascii) : N := N_of_ascii c.

Definition between (lo hi : N) (c : ascii) : bool :=
  (lo <=? code c)%N && (code c <=? hi)%N.

Definition is_upper : ascii -> bool := between 65 90.
Definition is_lower : ascii -> bool := between 97 122.
Definition is_digit : ascii -> bool := between 48 57.
Definition is_alpha (c : ascii) : bool := is_upper c || is_lower c.

(** [\s] and the characters removed by [trim]: TAB, LF, VT, FF, CR, SP. *)
Definition is_space (c : ascii) : bool := between 9 13 c || between 32 32 c.

Definition toLowerChar (c : ascii) : ascii :=
  if is_upper c then ascii_of_N (code c + 32) else c.
Definition toUpperChar (c : ascii) : ascii :=
  if is_lower c then ascii_of_N (code c - 32) else c.

Definition toLowerCase (s : str) : str := map toLowerChar s.
Definition toUpperCase (s : str) : str := map toUpperChar s.

Definition ascii_eqb (a b : ascii) : bool := (code a =? code b)%N.

Fixpoint str_eqb (a b : str) : bool :=
  match a, b with
  | [], [] => true
  | x :: a', y :: b' => ascii_eqb x y && str_eqb a' b'
  | _, _ => false
  end.

(** [s.startsWith(p)] *)
Fixpoint startsWith (p s : str) : bool :=
  match p, s with
  | [], _ => true
  | _ :: _, [] => false
  | x :: p', y :: s' => ascii_eqb x y && startsWith p' s'
  end.

(** [s.includes(p)] *)
Fixpoint includes (s p : str) : bool :=
  startsWith p s ||
  match s with
  | [] => false
  | _ :: s' => includes s' p
  end.

(** [arr.includes(x)] on an array of strings. *)
Definition mem (x : str) (l : list str) : bool := existsb (str_eqb x) l.

(** [s.trim()] *)
Fixpoint trimStart (s : str) : str :=
  match s with
  | c :: s' => if is_space c then trimStart s' else s
  | [] => []
  end.
Definition trimEnd (s : str) : str := rev (trimStart (rev s)).
Definition trim (s : str) : str := trimEnd (trimStart s).

(** [s.charAt(0).toUpperCase() + s.slice(1)] *)
Definition capitalizeFirst (s : str) : str :=
  match s with
  | [] => []
  | c :: s' => toUpperChar c :: s'
  end.

(** [s.charAt(0).toUpperCase() + s.slice(1).toLowerCase()] *)
Definition capitalizeWord (s : str) : str :=
  match s with
  | [] => []
  | c :: s' => toUpperChar c :: toLowerCase s'
  end.

(** [s.split(sep)] for a separator of one character: always at least one
    piece, empty pieces kept. *)
Fixpoint splitBy (is_sep : ascii -> bool) (s : str) : list str :=
  match s with
  | [] => [[]]
  | c :: s' =>
      if is_sep c then [] :: splitBy is_sep s'
      else match splitBy is_sep s' with
           | w :: ws => (c :: w) :: ws
           | [] => [[c]]
           end
  end.
Definition splitChar (sep : ascii) : str -> list str :=
  splitBy (fun c => ascii_eqb c sep).

(** [pieces.join(sep)] *)
Fixpoint join (sep : str) (l : list str) : str :=
  match l with
  | [] => []
  | [w] => w
  | w :: ws => w ++ sep ++ join sep ws
  end.

(** [s.split(/\s+/)]: pieces between maximal whitespace runs. *)
Fixpoint splitSpaces_aux (s : str) (inrun : bool) : list str :=
  match s with
  | [] => [[]]
  | c :: s' =>
      if is_space c then
        if inrun then splitSpaces_aux s' true
        else [] :: splitSpaces_aux s' true
      else match splitSpaces_aux s' false with
           | w :: ws => (c :: w) :: ws
           | [] => [[c]]
           end
  end.
Definition splitSpaces (s : str) : list str := splitSpaces_aux s false.

(** The number of leading whitespace characters. *)
Fixpoint leadingSpaces (s : str) : nat :=
  match s with
  | c :: s' => if is_space c then S (leadingSpaces s') else 0
  | [] => 0
  end.

(** Each maximal whitespace run replaced by one space; [inrun] says that
    the characters before belong to a run already replaced. *)
Fixpoint collapseSpaces (inrun : bool) (s : str) : str :=
  match s with
  | [] => []
  | c :: s' =>
      if is_space c then
        if inrun then collapseSpaces true s'
        else " "%char :: collapseSpaces true s'
      else c :: collapseSpaces false s'
  end.

(** The only whitespace is single spaces; [prev] says that the character
    before is whitespace. *)
Fixpoint singleSpaced (prev : bool) (s : str) : bool :=
  match s with
  | [] => true
  | c :: s' =>
      if is_space c
      then negb prev && ascii_eqb c " " && singleSpaced true s'
      else singleSpaced false s'
  end.

End Js.
Export Js.

(* ===================================================================== *)
(** ** Regular expressions: a backtracking matcher

    The fragment of ECMAScript regular expressions that the sources use:
    literals, character classes, [.], [^] and [$] (no [m] flag), groups,
    alternation, greedy and lazy quantifiers, and the [i] and [g] flags.
    Every pattern of the program has at most one capturing group, so the
    matcher state carries one capture slot. *)
(* ===================================================================== *)

Module Re.

Inductive re : Type :=
| Eps
| Chr (neg : bool) (ranges : list (N * N))
| Bol
| Eol
| Seq (r1 r2 : re)
| Alt (r1 r2 : re)
| Star (greedy : bool) (r : re)
| Group (r : re).

Definition in_ranges (rs : list (N * N)) (c : ascii) : bool :=
  existsb (fun r => between (fst r) (snd r) c) rs.

(** A class matches a character when one of its members has the same
    canonical form; with the [i] flag the canonical form is the upper-case
    letter. *)
Definition chr_match (ci neg : bool) (rs : list (N * N)) (c : ascii) : bool :=
  xorb neg
    (in_ranges rs c ||
     (ci && (in_ranges rs (toUpperChar c) || in_ranges rs (toLowerChar c)))).

Record mstate : Type := MState {
  pos : nat;            (* index of the next character *)
  rest : str;           (* the input from [pos] on *)
  cap : option str      (* the capture group, when it took part *)
}.

Definition advance (s : mstate) : mstate :=
  MState (S (pos s)) (tl (rest s)) (cap s).

Definition set_cap (s s' : mstate) : mstate :=
  MState (pos s') (rest s') (Some (firstn (pos s' - pos s) (rest s))).

(** The loop of a starred expression: [step] matches one iteration and
    [n] bounds the number of iterations.  An iteration that consumes
    nothing is rejected, so the loop runs at most once per remaining
    character. *)
Fixpoint star_loop (step : (mstate -> option mstate) -> mstate -> option mstate)
    (greedy : bool) (k : mstate -> option mstate) (n : nat) (s : mstate)
    {struct n} : option mstate :=
  match n with
  | O => None
  | S n' =>
      let again (s' : mstate) :=
        if Nat.ltb (pos s) (pos s') then star_loop step greedy k n' s'
        else None in
      if greedy then
        match step again s with
        | Some e => Some e
        | None => k s
        end
      else
        match k s with
        | Some e => Some e
        | None => step again s
        end
  end.

(** [rmatch ci r k s]: match [r] at state [s], then continue with [k];
    alternatives are tried in the order the backtracking engine tries
    them. *)
Fixpoint rmatch (ci : bool) (r : re) (k : mstate -> option mstate)
    (s : mstate) {struct r} : option mstate :=
  match r with
  | Eps => k s
  | Chr neg rs =>
      match rest s with
      | c :: _ => if chr_match ci neg rs c then k (advance s) else None
      | [] => None
      end
  | Bol => if Nat.eqb (pos s) 0 then k s else None
  | Eol => match rest s with [] => k s | _ :: _ => None end
  | Seq r1 r2 => rmatch ci r1 (rmatch ci r2 k) s
  | Alt r1 r2 =>
      match rmatch ci r1 k s with
      | Some e => Some e
      | None => rmatch ci r2 k s
      end
  | Star greedy r1 =>
      star_loop (rmatch ci r1) greedy k (S (length (rest s))) s
  | Group r1 => rmatch ci r1 (fun s' => k (set_cap s s')) s
  end.

(** [RegExp.prototype.exec] without the [g] flag: the leftmost start
    index at which the pattern matches.  The result is the start index
    and the final matcher state. *)
Fixpoint search (ci : bool) (r : re) (p : nat) (s : str)
    : option (nat * mstate) :=
  match rmatch ci r Some (MState p s None) with
  | Some e => Some (p, e)
  | None =>
      match s with
      | [] => None
      | _ :: s' => search ci r (S p) s'
      end
  end.

(** [s.match(re)] restricted to what the callers read: capture 1. *)
Definition match1 (ci : bool) (r : re) (s : str) : option (option str) :=
  match search ci r 0 s with
  | Some (_, e) => Some (cap e)
  | None => None
  end.

(** [re.test(s)] *)
Definition test (ci : bool) (r : re) (s : str) : bool :=
  match search ci r 0 s with Some _ => true | None => false end.

(** [s.replace(re, rep)] with the [g] flag: matches are found left to
    right, the search resuming where the previous match ended (one
    character further after an empty match).  [skip] counts the characters
    of the current match still to be dropped. *)
Fixpoint replaceAll_go (ci : bool) (r : re) (rep : str) (s : str)
    (skip p : nat) {struct s} : str :=
  match skip with
  | S skip' =>
      match s with
      | [] => []
      | _ :: s' => replaceAll_go ci r rep s' skip' (S p)
      end
  | O =>
      match rmatch ci r Some (MState p s None) with
      | Some e =>
          match pos e - p with
          | O => rep ++ match s with
                        | [] => []
                        | c :: s' => c :: replaceAll_go ci r rep s' 0 (S p)
                        end
          | S len' => rep ++ match s with
                             | [] => []
                             | _ :: s' => replaceAll_go ci r rep s' len' (S p)
                             end
          end
      | None =>
          match s with
          | [] => []
          | c :: s' => c :: replaceAll_go ci r rep s' 0 (S p)
          end
      end
  end.

Definition replaceAll (ci : bool) (r : re) (rep : str) (s : str) : str :=
  replaceAll_go ci r rep s 0 0.

(** [s.replace(re, rep)] without the [g] flag: the first match only. *)
Definition replaceFirst (ci : bool) (r : re) (rep : str) (s : str) : str :=
  match search ci r 0 s with
  | Some (p, e) => firstn p s ++ rep ++ rest e
  | None => s
  end.

(** *** Pattern syntax

    Patterns are written in the surface syntax of the sources and read by
    [parse] (the text between the slashes of a literal). *)

Definition ws_ranges : list (N * N) := [(9, 13); (32, 32)]%N.
Definition digit_ranges : list (N * N) := [(48, 57)]%N.
Definition word_ranges : list (N * N) :=
  [(48, 57); (65, 90); (95, 95); (97, 122)]%N.

(** The members of an escape inside or outside a class. *)
Definition escape (c : ascii) : list (N * N) :=
  match c with
  | "s" => ws_ranges
  | "S" => [(0, 8); (14, 31); (33, 255)]
  | "d" => digit_ranges
  | "D" => [(0, 47); (58, 255)]
  | "w" => word_ranges
  | "W" => [(0, 47); (58, 64); (91, 94); (96, 96); (123, 255)]
  | "n" => [(10, 10)]
  | "r" => [(13, 13)]
  | "t" => [(9, 9)]
  | _ => [(code c, code c)]
  end%char%N.

(** Class items up to the closing bracket. *)
Fixpoint parse_class (s : str) (acc : list (N * N))
    : option (list (N * N) * str) :=
  match s with
  | [] => None
  | c :: s1 =>
      if ascii_eqb c "]" then Some (acc, s1)
      else if ascii_eqb c "\" then
        match s1 with
        | e :: s2 => parse_class s2 (acc ++ escape e)
        | [] => None
        end
      else
        match s1 with
        | d :: hi :: s3 =>
            if ascii_eqb d "-" && negb (ascii_eqb hi "]") then
              parse_class s3 (acc ++ [(code c, code hi)])
            else parse_class s1 (acc ++ [(code c, code c)])
        | _ => parse_class s1 (acc ++ [(code c, code c)])
        end
  end.

Fixpoint parse_nat (s : str) (acc : nat) : nat * str :=
  match s with
  | c :: s' =>
      if is_digit c then parse_nat s' (10 * acc + (N.to_nat (code c) - 48))
      else (acc, s)
  | [] => (acc, s)
  end.

Definition opt (greedy : bool) (r : re) : re :=
  if greedy then Alt r Eps else Alt Eps r.

Fixpoint times (n : nat) (r tail : re) : re :=
  match n with
  | O => tail
  | S n' => Seq r (times n' r tail)
  end.

Fixpoint upto (n : nat) (greedy : bool) (r : re) : re :=
  match n with
  | O => Eps
  | S n' => opt greedy (Seq r (upto n' greedy r))
  end.

(** A lazy quantifier has a trailing question mark. *)
Definition lazy_mark (s : str) : bool * str :=
  match s with
  | c :: s' => if ascii_eqb c "?" then (false, s') else (true, s)
  | [] => (true, s)
  end.

(** The quantifier after an atom, if any. *)
Definition parse_quant (a : re) (s : str) : option (re * str) :=
  match s with
  | c :: s1 =>
      if ascii_eqb c "*" then
        let (g, s2) := lazy_mark s1 in Some (Star g a, s2)
      else if ascii_eqb c "+" then
        let (g, s2) := lazy_mark s1 in Some (Seq a (Star g a), s2)
      else if ascii_eqb c "?" then
        let (g, s2) := lazy_mark s1 in Some (opt g a, s2)
      else if ascii_eqb c "{" then
        let (lo, s2) := parse_nat s1 0 in
        match s2 with
        | d :: s3 =>
            if ascii_eqb d "}" then
              let (g, s4) := lazy_mark s3 in Some (times lo a Eps, s4)
            else if ascii_eqb d "," then
              match s3 with
              | e :: s4 =>
                  if ascii_eqb e "}" then
                    let (g, s5) := lazy_mark s4 in
                    Some (times lo a (Star g a), s5)
                  else
                    let (hi, s5) := parse_nat s3 0 in
                    match s5 with
                    | f :: s6 =>
                        if ascii_eqb f "}" then
                          let (g, s7) := lazy_mark s6 in
                          Some (times lo a (upto (hi - lo) g a), s7)
                        else None
                    | [] => None
                    end
              | [] => None
              end
            else None
        | [] => None
        end
      else Some (a, s)
  | [] => Some (a, s)
  end.

Fixpoint parse_alt (fuel : nat) (s : str) {struct fuel} : option (re * str) :=
  match fuel with
  | O => None
  | S f =>
      match parse_seq f s with
      | Some (r1, c :: s1) =>
          if ascii_eqb c "|" then
            match parse_alt f s1 with
            | Some (r2, s2) => Some (Alt r1 r2, s2)
            | None => None
            end
          else Some (r1, c :: s1)
      | other => other
      end
  end
with parse_seq (fuel : nat) (s : str) {struct fuel} : option (re * str) :=
  match fuel with
  | O => None
  | S f =>
      match s with
      | [] => Some (Eps, [])
      | c :: _ =>
          if ascii_eqb c "|" || ascii_eqb c ")" then Some (Eps, s)
          else
            match parse_atom f s with
            | Some (a, s1) =>
                match parse_quant a s1 with
                | Some (q, s2) =>
                    match parse_seq f s2 with
                    | Some (Eps, s3) => Some (q, s3)
                    | Some (r, s3) => Some (Seq q r, s3)
                    | None => None
                    end
                | None => None
                end
            | None => None
            end
      end
  end
with parse_atom (fuel : nat) (s : str) {struct fuel} : option (re * str) :=
  match fuel with
  | O => None
  | S f =>
      match s with
      | [] => None
      | c :: s1 =>
          if ascii_eqb c "(" then
            if startsWith (lit "?:") s1 then
              match parse_alt f (skipn 2 s1) with
              | Some (r, d :: s2) =>
                  if ascii_eqb d ")" then Some (r, s2) else None
              | _ => None
              end
            else
              match parse_alt f s1 with
              | Some (r, d :: s2) =>
                  if ascii_eqb d ")" then Some (Group r, s2) else None
              | _ => None
              end
          else if ascii_eqb c "[" then
            match s1 with
            | d :: s2 =>
                if ascii_eqb d "^" then
                  match parse_class s2 [] with
                  | Some (rs, s3) => Some (Chr true rs, s3)
                  | None => None
                  end
                else
                  match parse_class s1 [] with
                  | Some (rs, s3) => Some (Chr false rs, s3)
                  | None => None
                  end
            | [] => None
            end
          else if ascii_eqb c "\" then
            match s1 with
            | e :: s2 => Some (Chr false (escape e), s2)
            | [] => None
            end
          else if ascii_eqb c "." then Some (Chr true [(10, 10); (13, 13)]%N, s1)
          else if ascii_eqb c "^" then Some (Bol, s1)
          else if ascii_eqb c "$" then Some (Eol, s1)
          else Some (Chr false [(code c, code c)], s1)
      end
  end.

Definition parse (src : string) : option re :=
  match parse_alt (S (3 * String.length src)) (lit src) with
  | Some (r, []) => Some r
  | _ => None
  end.

(** A pattern that does not parse matches nothing. *)
Definition Fail : re := Chr false [].

Definition rx (src : string) : re :=
  match parse src with
  | Some r => r
  | None => Fail
  end.

(** *** Static checks on patterns

    Boolean checks that are evaluated on the patterns of the program; the
    facts they establish about every match are proved further down. *)

Definition all_ascii : list ascii := map ascii_of_nat (seq 0 256).

(** Every character the class accepts satisfies [P]. *)
Definition class_within (ci neg : bool) (rs : list (N * N))
    (P : ascii -> bool) : bool :=
  forallb (fun c => implb (chr_match ci neg rs c) (P c)) all_ascii.

(** Every character a match of [r] consumes satisfies [P]. *)
Fixpoint consumes_only (ci : bool) (P : ascii -> bool) (r : re) : bool :=
  match r with
  | Eps | Bol | Eol => true
  | Chr neg rs => class_within ci neg rs P
  | Seq r1 r2 | Alt r1 r2 => consumes_only ci P r1 && consumes_only ci P r2
  | Star _ r1 | Group r1 => consumes_only ci P r1
  end.

(** Every capture of [r] is made of characters that satisfy [P]. *)
Fixpoint captures_only (ci : bool) (P : ascii -> bool) (r : re) : bool :=
  match r with
  | Eps | Bol | Eol | Chr _ _ => true
  | Seq r1 r2 | Alt r1 r2 => captures_only ci P r1 && captures_only ci P r2
  | Star _ r1 => captures_only ci P r1
  | Group r1 => consumes_only ci P r1
  end.

(** Every match of [r] consumes at least one character that satisfies
    [P]. *)
Fixpoint needs (ci : bool) (P : ascii -> bool) (r : re) : bool :=
  match r with
  | Eps | Bol | Eol | Star _ _ => false
  | Chr neg rs => class_within ci neg rs P
  | Seq r1 r2 => needs ci P r1 || needs ci P r2
  | Alt r1 r2 => needs ci P r1 && needs ci P r2
  | Group r1 => needs ci P r1
  end.

(** [s'] is reached from [s] by consuming characters that satisfy [P]. *)
Definition reached (P : ascii -> bool) (s s' : mstate) : Prop :=
  exists w, rest s = w ++ rest s' /\ pos s' = pos s + length w /\
            forallb P w = true.

(** The capture is absent or made of characters that satisfy [P]. *)
Definition cap_ok (P : ascii -> bool) (s : mstate) : Prop :=
  match cap s with
  | Some u => forallb P u = true
  | None => True
  end.

End Re.
Export Re.

(* ===================================================================== *)
(** ** Shared vocabulary *)
(* ===================================================================== *)

Inductive Status : Type :=
| applied | interviewing | offered | rejected | ghosted.

Inductive Method : Type :=
| ai | regex | insufficient_data.

(** Code that can throw returns a [result]. *)
Inductive result (A : Type) : Type :=
| Ok (a : A)
| Throw (msg : str).
Arguments Ok {A} a.
Arguments Throw {A} msg.

Definition strs (l : list string) : list str := map lit l.

(** The double-quote character, and a line feed. *)
Definition dq : string := String (ascii_of_nat 34) EmptyString.
Definition nl : str := [ascii_of_nat 10].

(** Truthiness of a string and of a possibly-null string. *)
Definition nonempty (s : str) : bool :=
  match s with [] => false | _ :: _ => true end.
Definition truthy (o : option str) : bool :=
  match o with Some s => nonempty s | None => false end.

(** [a || b] on possibly-null strings. *)
Definition orElse (a b : option str) : option str :=
  if truthy a then a else b.

(** [lo <= s.length && s.length <= hi] *)
Definition lengthWithin (lo hi : nat) (s : str) : bool :=
  Nat.leb lo (length s) && Nat.leb (length s) hi.

(* ===================================================================== *)
(** ** The AI e-mail analysis service ([AIEmailAnalysisService]) *)
(* ===================================================================== *)

Module AiService.

Record EmailData : Type := {
  subject : str;
  from : str;
  content : str
}.

Record EmailAnalysisResult : Type := {
  status : Status;
  company : option str;
  jobTitle : option str;
  confidence : Q
}.

(** What [JSON.parse] returns. *)
Inductive json : Type :=
| JNull
| JBool (b : bool)
| JNum (q : Q)
| JStr (s : str)
| JArr (items : list json)
| JObj (fields : list (string * json)).

(** [obj.key]; [None] is [undefined]. *)
Definition prop (obj : json) (key : string) : option json :=
  match obj with
  | JObj fields =>
      match find (fun kv => String.eqb (fst kv) key) fields with
      | Some kv => Some (snd kv)
      | None => None
      end
  | _ => None
  end.

Definition statusOfString (s : str) : option Status :=
  if str_eqb s "applied" then Some applied
  else if str_eqb s "interviewing" then Some interviewing
  else if str_eqb s "offered" then Some offered
  else if str_eqb s "rejected" then Some rejected
  else if str_eqb s "ghosted" then Some ghosted
  else None.

(** [x === null || typeof x === 'string'] *)
Definition nullOrString (x : option json) : option (option str) :=
  match x with
  | Some JNull => Some None
  | Some (JStr s) => Some (Some s)
  | _ => None
  end.

(** [isValidAnalysisResult], returning the value at its asserted type. *)
Definition isValidAnalysisResult (obj : json) : option EmailAnalysisResult :=
  match obj with
  | JObj _ =>
      match prop obj "status" with
      | Some (JStr s) =>
          match statusOfString s, nullOrString (prop obj "company"),
                nullOrString (prop obj "jobTitle"), prop obj "confidence" with
          | Some st, Some c, Some t, Some (JNum q) =>
              if Qle_bool 0%Q q && Qle_bool q 1%Q
              then Some {| status := st; company := c; jobTitle := t;
                           confidence := q |}
              else None
          | _, _, _, _ => None
          end
      | _ => None
      end
  | _ => None
  end.

(** [s.match(re)[0]]: the matched text. *)
Definition match0 (ci : bool) (r : re) (s : str) : option str :=
  match search ci r 0 s with
  | Some (p, e) => Some (firstn (pos e - p) (skipn p s))
  | None => None
  end.

Section Service.

(** The remote model: the prompt built from the e-mail is sent and the
    reply text comes back, or the call throws. *)
Variable generateContent : EmailData -> result str.

(** [JSON.parse], which throws on malformed text. *)
Variable JSON_parse : str -> result json.

(** The state set by the constructor. *)
Record service : Type := {
  genAI : bool;           (* the client object is not null *)
  isInitialized : bool
}.

Definition placeholderKey : str := "your_gemini_api_key_here".

Definition newService (apiKey : option str) : service :=
  match apiKey with
  | Some k =>
      if nonempty k && negb (str_eqb k placeholderKey)
      then {| genAI := true; isInitialized := true |}
      else {| genAI := false; isInitialized := false |}
  | None => {| genAI := false; isInitialized := false |}
  end.

Definition isAvailable (svc : service) : bool := isInitialized svc.

Definition parseAIResponse (response : str) : option EmailAnalysisResult :=
  let cleanResponse := trim response in
  let cleanResponse :=
    match match0 false (rx "\{[\s\S]*\}") cleanResponse with
    | Some m => m
    | None => cleanResponse
    end in
  match JSON_parse cleanResponse with
  | Ok parsed => isValidAnalysisResult parsed
  | Throw _ => None
  end.

Definition analyzeEmail (svc : service) (emailData : EmailData)
    : option EmailAnalysisResult :=
  if negb (isInitialized svc) || negb (genAI svc) then None
  else
    match generateContent emailData with
    | Ok text => parseAIResponse text
    | Throw _ => None
    end.

End Service.

End AiService.

(* ===================================================================== *)
(** ** [route.ts]: noise filter *)
(* ===================================================================== *)

Module Route.

Definition notificationPatterns : list str := strs
  ["jobs you may be interested in"; "recommended for you";
   "new jobs posted"; "job alert"; "daily job digest"; "weekly job digest";
   "jobs matching your preferences"; "similar jobs to ones you";
   "jobs like"; "jobs near you"; "trending jobs"; "premium job insights";
   "jobs matching your search"; "recommended jobs";
   "jobs from your search"; "new jobs on indeed"; "indeed job alert";
   "similar to jobs you"; "jobs posted today"; "more jobs like";
   "jobs for you"; "personalized job recommendations";
   "glassdoor job alert"; "companies hiring"; "salary insights";
   "ziprecruiter job alert"; "jobs posted near"; "apply to these jobs";
   "one-click apply"; "bebee job alert"; "bebee job notification";
   "new jobs on bebee"; "bebee professional network";
   "bebee opportunities"; "newsletter"; "weekly update"; "digest";
   "subscription"; "unsubscribe"; "marketing"; "promotional"; "sponsored";
   "advertisement"; "ad:"; "jobs you might like"; "might interest you";
   "explore opportunities"; "browse jobs"; "view all jobs";
   "see more jobs"; "apply now to"; "quick apply"; "easy apply"].

Definition senderPatterns : list str := strs
  ["notifications@"; "alerts@"; "digest@"; "newsletter@"; "updates@";
   "marketing@"; "jobs@indeed"; "jobs@linkedin"; "alerts@glassdoor";
   "notification@"; "automated@"; "bebee"; "@bebee.com"; "jobs@bebee"].

(** The application-confirmation test of [isJobBoardNotification]. *)
Definition isApplicationConfirmation (contentLower : str) : bool :=
  includes contentLower "thank you for applying" ||
  includes contentLower "thanks for applying" ||
  includes contentLower "application received" ||
  includes contentLower "we have received your application" ||
  includes contentLower "your application has been received" ||
  includes contentLower "thank you for your interest" &&
    (includes contentLower "application" ||
     includes contentLower "position" ||
     includes contentLower "role").

Definition isJobBoardNotification (content from subject : str) : bool :=
  let contentLower := toLowerCase content in
  let fromLower := toLowerCase from in
  let subjectLower := toLowerCase subject in
  if isApplicationConfirmation contentLower then false
  else
    let isNotificationSender :=
      existsb (fun pattern => includes fromLower pattern) senderPatterns in
    let hasNotificationPattern :=
      existsb (fun pattern =>
                 includes contentLower pattern || includes subjectLower pattern)
              notificationPatterns in
    let hasAutomatedIndicators :=
      includes contentLower "this is an automated" ||
      includes contentLower "do not reply to this" ||
      includes contentLower "automatically generated" ||
      includes subjectLower "[automated]" ||
      includes subjectLower "auto:" in
    isNotificationSender || hasNotificationPattern || hasAutomatedIndicators.

Definition jobKeywords : list str := strs
  ["job"; "application"; "position"; "role"; "interview"; "hiring";
   "recruiter"; "hr"; "human resources"; "talent"; "career"; "opportunity";
   "employment"; "candidate"; "resume"; "cv"; "screening"; "phone screen"].

Definition applicationConfirmationPatterns : list str := strs
  ["thank you for applying"; "thanks for applying";
   "thanks for your application"; "application received";
   "we have received your application"; "thanks for your interest";
   "thank you for your interest"; "application confirmation";
   "successfully submitted"; "application status"; "received your resume";
   "thank you for your submission"; "we received your application";
   "your application has been received"; "application has been received";
   "we will review your application"; "we will review it right away";
   "we will review as soon as possible"; "thanks for applying to";
   "thank you for your interest in"; "application received -";
   "thanks for your application -"; "we have received your";
   "thank you for submitting"; "your application for";
   "application for the"; "received your application for";
   "thank you for your application to"; "thanks for your application to";
   "application submitted successfully"; "we appreciate your interest";
   "received your job application"; "application confirmation number";
   "reference number"; "application id"; "next steps in our process";
   "our hiring team will review"; "your candidacy for";
   "position you applied for"; "role you applied for"].

Definition commonJobSites : list str := strs
  ["linkedin"; "indeed"; "glassdoor"; "monster"; "ziprecruiter"; "dice";
   "stackoverflow"; "github"; "angel.co"; "wellfound"; "hired"; "bebee"].

Definition recruiterIndicators : list str := strs
  ["recruiter"; "recruiting"; "talent acquisition"; "hr specialist";
   "hiring manager"; "people operations"; "people team"].

Definition isJobRelatedEmail (content from subject : str) : bool :=
  if isJobBoardNotification content from subject then false
  else
    let hasJobKeywords :=
      existsb (fun keyword => includes content keyword) jobKeywords in
    let hasApplicationConfirmation :=
      existsb (fun pattern => includes content pattern)
              applicationConfirmationPatterns in
    let isFromJobSite :=
      existsb (fun site => includes (toLowerCase from) site) commonJobSites in
    let isFromRecruiter :=
      existsb (fun indicator =>
                 includes content indicator ||
                 includes (toLowerCase from) indicator)
              recruiterIndicators in
    hasJobKeywords || hasApplicationConfirmation || isFromJobSite ||
    isFromRecruiter.

(* ===================================================================== *)
(** ** [route.ts]: field extractors *)
(* ===================================================================== *)

Definition excludedDomains : list str := strs
  ["gmail"; "yahoo"; "outlook"; "hotmail"; "aol"; "icloud"; "linkedin";
   "indeed"; "glassdoor"; "monster"; "ziprecruiter"; "dice";
   "stackoverflow"; "github"; "angel"; "wellfound"; "hired"; "bebee";
   "workday"; "greenhouse"; "lever"; "jobvite"; "smartrecruiters";
   "brassring"; "icims"; "kronos"; "successfactors"; "taleo"; "bamboohr";
   "namely"; "zenefits"; "gusto"; "adp"; "noreply"; "no-reply";
   "donotreply"; "automated"; "notifications"].

Definition companyPatterns : list re :=
  [rx "thanks?\s+for\s+applying\s+(?:to|at|with)\s+([A-Z][a-zA-Z\s&.\-']+?)(?:\s+for|\s+as|\s+\(|[\.,!]|\s+team|\s+hr|\s+and|\s+we|\s+your|\s+today|\s+yesterday|\s+on|\s*$)";
   rx "thank\s+you\s+for\s+your\s+interest\s+in\s+(?:joining\s+)?([A-Z][a-zA-Z\s&.\-']+?)(?:\s+as|\s+for|\s+\(|[\.,!]|\s+team|\s+we|\s+and|\s+your|\s*$)";
   rx "(?:we\s+at|team\s+at|here\s+at|from\s+the\s+team\s+at)\s+([A-Z][a-zA-Z\s&.\-']+?)(?:\s+are|\s+have|\s+would|\s+want|[\.,!]|\s*$)";
   rx "application\s+(?:to|at|with)\s+([A-Z][a-zA-Z\s&.\-']+?)(?:\s+for|\s+as|\s+has|[\.,!]|\s+team|\s*$)";
   rx "position\s+(?:at|with)\s+([A-Z][a-zA-Z\s&.\-']+?)(?:\s+as|\s+for|[\.,!]|\s+team|\s*$)";
   rx "role\s+(?:at|with)\s+([A-Z][a-zA-Z\s&.\-']+?)(?:\s+as|\s+for|[\.,!]|\s+team|\s*$)";
   rx "([A-Z][a-zA-Z\s&.\-']+?)(?:\s+Inc\.?|\s+Corp\.?|\s+LLC|\s+Ltd\.?|\s+Company|\s+Co\.)";
   rx "from\s+(?:the\s+)?([A-Z][a-zA-Z\s&.\-']+?)(?:\s+team|\s+hiring|\s+hr|\s+recruiting|\s+talent|[\.,]|\s*$)";
   rx "(?:we\s+are|i\s+am\s+with|i\s+work\s+at|i\s+represent)\s+([A-Z][a-zA-Z\s&.\-']+?)(?:\s+and|\s+team|[\.,]|\s*$)";
   rx "your\s+application\s+(?:to|at|with)\s+([A-Z][a-zA-Z\s&.\-']+?)(?:\s+for|\s+\-|[\.,]|\s*$)"].

Definition companyGenericTerms : list str := strs
  ["team"; "hr"; "human resources"; "recruiting"; "talent"; "hiring";
   "notification"; "noreply"; "no reply"; "automated"; "system"; "admin";
   "support"; "customer service"; "help desk"; "info"; "sales";
   "marketing"; "newsletter"; "updates"; "alerts"; "jobs"; "careers";
   "opportunities"; "positions"; "roles"; "application"; "applications";
   "candidate"; "candidates"; "recruiter"; "recruiters"; "staffing";
   "employment"; "department"; "office"; "division"; "group"; "unit"].

Definition fromNameGenericTerms : list str := strs
  ["noreply"; "no-reply"; "donotreply"; "automated"; "system";
   "notification"; "notifications"; "alerts"; "updates"; "digest"; "jobs";
   "careers"; "recruiting"; "hr"; "hiring"; "talent"].

Definition corporateSuffixes : list str :=
  strs ["Inc"; "Corp"; "LLC"; "Ltd"; "Company"; "Co"].

(** Stage 1: the token between [@] and the first dot of the sender. *)
Definition companyFromDomain (from : str) : option str :=
  match match1 false (rx "@([^.]+)\.") from with
  | Some (Some d) =>
      let domain := toLowerCase d in
      if negb (mem domain excludedDomains) then
        let companyName := domain in
        let companyName :=
          replaceFirst false
            (rx "^(www\.|mail\.|hr\.|jobs\.|careers\.|recruiting\.|talent\.)")
            [] companyName in
        let companyName :=
          replaceFirst false (rx "(corp|inc|llc|ltd|co)$") [] companyName in
        let companyName := capitalizeFirst companyName in
        if lengthWithin 2 50 companyName then Some companyName else None
      else None
  | _ => None
  end.

(** The body of the loop over [companyPatterns], for one match. *)
Definition companyCandidate (captured : str) : option str :=
  let companyName := trim captured in
  let isGeneric :=
    existsb (fun term =>
               includes (toLowerCase companyName) term ||
               str_eqb (toLowerCase companyName) term)
            companyGenericTerms in
  if negb isGeneric && lengthWithin 2 50 companyName then
    let companyName :=
      trim (replaceAll false (rx "[^\w\s&.\-']") [] companyName) in
    if Nat.leb 2 (length companyName) &&
       negb (test false (rx "^[\d\s]+$") companyName) &&
       negb (test false (rx "^[A-Za-z]\s*$") companyName)
    then Some (join " " (map capitalizeWord (splitChar " " companyName)))
    else None
  else None.

(** The characters the clean-up of [companyCandidate] leaves in place. *)
Definition keptInCompany (c : ascii) : bool :=
  match rx "[^\w\s&.\-']" with
  | Chr neg rs => negb (chr_match false neg rs c)
  | _ => true
  end.

(** Stage 2: the first pattern whose match yields a candidate. *)
Fixpoint companyFromPatterns (patterns : list re) (fullText : str)
    : option str :=
  match patterns with
  | [] => None
  | pattern :: more =>
      match match1 true pattern fullText with
      | Some (Some captured) =>
          if nonempty captured then
            match companyCandidate captured with
            | Some companyName => Some companyName
            | None => companyFromPatterns more fullText
            end
          else companyFromPatterns more fullText
      | _ => companyFromPatterns more fullText
      end
  end.

(** Stage 3: the display name of the [From] header. *)
Definition companyFromDisplayName (from : str) : option str :=
  match match1 false (rx "^(.+?)\s*<.*>$") from with
  | Some (Some captured) =>
      let fromName :=
        replaceAll false (rx ("['" +:+ dq +:+ "]")) [] (trim captured) in
      let nameWords := splitSpaces fromName in
      let looksLikePersonName :=
        Nat.eqb (length nameWords) 2 &&
        forallb (fun word =>
                   Nat.leb 2 (length word) &&
                   str_eqb (firstn 1 word) (toUpperCase (firstn 1 word)))
                nameWords &&
        negb (existsb (fun word => mem word corporateSuffixes) nameWords) in
      if negb looksLikePersonName && lengthWithin 2 50 fromName then
        let isGeneric :=
          existsb (fun term => includes (toLowerCase fromName) term)
                  fromNameGenericTerms in
        if negb isGeneric then Some fromName else None
      else None
  | _ => None
  end.

Definition extractCompany (from body subject : str) : option str :=
  match companyFromDomain from with
  | Some companyName => Some companyName
  | None =>
      let fullText := subject ++ lit " " ++ body in
      match companyFromPatterns companyPatterns fullText with
      | Some companyName => Some companyName
      | None => companyFromDisplayName from
      end
  end.

Definition titlePatterns : list re :=
  [rx "(?:applied\s+for|applying\s+for|application\s+for)\s+(?:the\s+|a\s+|an\s+)?([a-zA-Z0-9\s\-\/]+?)(?:\s+position|\s+role|\s+job|\s+opening|\s+at|\s+with|[\.,]|\s*$)";
   rx "(?:for\s+the|for\s+a|for\s+an|as\s+a|as\s+an)\s+([a-zA-Z0-9\s\-\/]+?)(?:\s+position|\s+role|\s+job|\s+at|\s+with|[\.,]|\s*$)";
   rx "(?:position\s+of|role\s+of|job\s+of|title\s+of)\s+([a-zA-Z0-9\s\-\/]+?)(?:\s+at|\s+with|[\.,]|\s*$)";
   rx "(?:interested\s+in|regarding)\s+(?:the\s+|a\s+|an\s+)?([a-zA-Z0-9\s\-\/]+?)(?:\s+position|\s+role|\s+job|\s+opening|\s+opportunity|\s+at|\s+with|[\.,]|\s*$)";
   rx "(?:opening\s+for|opportunity\s+for|vacancy\s+for)\s+(?:a\s+|an\s+|the\s+)?([a-zA-Z0-9\s\-\/]+?)(?:\s+position|\s+role|\s+at|\s+with|[\.,]|\s*$)";
   rx "^(?:re:\s*)?(?:application|apply|applying|interested).*?(?:for\s+(?:the\s+|a\s+|an\s+)?)?([a-zA-Z0-9\s\-\/]+?)(?:\s+position|\s+role|\s+job|\s+at|\s+with|\s+-|[\.,]|\s*$)";
   rx "thanks?\s+for\s+applying\s+(?:for\s+(?:the\s+|a\s+|an\s+)?)?([a-zA-Z0-9\s\-\/]+?)(?:\s+position|\s+role|\s+job|\s+at|\s+with|[\.,]|\s*$)";
   rx "thank\s+you\s+for\s+your\s+interest\s+in\s+(?:the\s+|a\s+|an\s+)?([a-zA-Z0-9\s\-\/]+?)(?:\s+position|\s+role|\s+job|\s+at|\s+with|[\.,]|\s*$)";
   rx "(software\s+engineer|full[\s\-]?stack\s+developer|frontend\s+developer|front[\s\-]?end\s+developer|backend\s+developer|back[\s\-]?end\s+developer|web\s+developer|mobile\s+developer|ios\s+developer|android\s+developer|react\s+developer|angular\s+developer|vue\s+developer|node\.?js\s+developer|python\s+developer|java\s+developer|\.net\s+developer|php\s+developer|ruby\s+developer|go\s+developer|rust\s+developer|data\s+scientist|data\s+analyst|data\s+engineer|machine\s+learning\s+engineer|ai\s+engineer|product\s+manager|project\s+manager|program\s+manager|scrum\s+master|agile\s+coach|ui\/ux\s+designer|ux\s+designer|ui\s+designer|graphic\s+designer|visual\s+designer|interaction\s+designer|product\s+designer|devops\s+engineer|site\s+reliability\s+engineer|system\s+administrator|database\s+administrator|network\s+administrator|cloud\s+engineer|aws\s+engineer|azure\s+engineer|gcp\s+engineer|security\s+engineer|cybersecurity\s+analyst|qa\s+engineer|test\s+engineer|automation\s+engineer|quality\s+assurance\s+engineer|business\s+analyst|systems\s+analyst|financial\s+analyst|marketing\s+analyst|technical\s+writer|documentation\s+specialist|sales\s+manager|marketing\s+manager|hr\s+manager|operations\s+manager|customer\s+success\s+manager|account\s+manager|sales\s+representative|business\s+development|software\s+architect|solutions\s+architect|enterprise\s+architect|technical\s+architect|cloud\s+architect|security\s+architect|network\s+engineer|infrastructure\s+engineer|platform\s+engineer|release\s+engineer|build\s+engineer)";
   rx "((?:senior|sr\.?|junior|jr\.?|lead|principal|staff|principal\s+staff|associate|entry[\s\-]?level|mid[\s\-]?level|experienced)\s+[a-zA-Z0-9\s\-\/]+?(?:engineer|developer|programmer|analyst|manager|designer|architect|specialist|coordinator|director|consultant|advisor))";
   rx "(?:for\s+(?:the\s+|a\s+|an\s+)?)(engineer|developer|programmer|analyst|manager|designer|architect|specialist|coordinator|director|consultant|advisor|lead|supervisor|executive)(?:\s+position|\s+role|\s+job|\s+at|\s+with|[\.,]|\s*$)";
   rx "((?:intern|internship|co[\s\-]?op|cooperative\s+education)\s+.*?(?:engineer|developer|analyst|designer|marketing|sales|hr|finance|operations|product|data))";
   rx "((?:summer|winter|spring|fall)\s+(?:intern|internship))"].

Definition excludeTerms : list str := strs
  ["application"; "position"; "role"; "job"; "opportunity"; "opening";
   "notification"; "alert"; "update"; "digest"; "newsletter"; "team";
   "company"; "organization"; "department"; "division"; "and"; "or"; "the";
   "a"; "an"; "of"; "in"; "at"; "for"; "with"; "email"; "message";
   "confirmation"; "response"; "reply"].

(** The own properties of [techWords], followed by the two inherited
    properties whose names a lower-cased word can spell; the lookup
    [techWords[lowerWord]] reaches them too, and [join] turns the value
    into text. *)
Definition techWords : list (string * string) :=
  [("ui", "UI"); ("ux", "UX"); ("api", "API"); ("sdk", "SDK"); ("ai", "AI");
   ("ml", "ML"); ("aws", "AWS"); ("gcp", "GCP"); ("ios", "iOS");
   ("android", "Android"); ("javascript", "JavaScript");
   ("typescript", "TypeScript"); ("nodejs", "Node.js");
   ("reactjs", "React.js"); ("vuejs", "Vue.js"); ("angularjs", "Angular.js");
   ("devops", "DevOps"); ("qa", "QA"); ("hr", "HR"); ("cto", "CTO");
   ("ceo", "CEO"); ("php", "PHP"); ("sql", "SQL"); ("nosql", "NoSQL");
   ("html", "HTML"); ("css", "CSS"); ("rest", "REST");
   ("graphql", "GraphQL"); ("ci/cd", "CI/CD");
   ("constructor", "function Object() { [native code] }");
   ("__proto__", "[object Object]")].

Fixpoint lookupWord (table : list (string * string)) (w : str) : option str :=
  match table with
  | [] => None
  | (k, v) :: more => if str_eqb w (lit k) then Some (lit v) else lookupWord more w
  end.

Definition isDashOrSlash (c : ascii) : bool :=
  ascii_eqb c "-" || ascii_eqb c "/".

Definition capitalizeTitleWord (word : str) : str :=
  match lookupWord techWords (toLowerCase word) with
  | Some t => t
  | None =>
      if includes word "-" || includes word "/" then
        join (if includes word "-" then lit "-" else lit "/")
             (map capitalizeWord (splitBy isDashOrSlash word))
      else capitalizeWord word
  end.

(** The body of the loop over [titlePatterns], for one match. *)
Definition titleCandidate (captured : str) : option str :=
  let title := trim captured in
  let title := trim (replaceAll false (rx "[^\w\s\-\/\.]") [] title) in
  let isValidTitle :=
    Nat.leb 3 (length title) &&
    Nat.leb (length title) 80 &&
    negb (mem (toLowerCase title) excludeTerms) &&
    negb (test false (rx "^\d+$") title) &&
    test false (rx "[a-zA-Z]") title &&
    negb (includes (toLowerCase title) "thank") &&
    negb (includes (toLowerCase title) "application received") in
  if isValidTitle
  then Some (join " " (map capitalizeTitleWord (splitSpaces title)))
  else None.

Fixpoint titleFromPatterns (patterns : list re) (fullText : str)
    : option str :=
  match patterns with
  | [] => None
  | pattern :: more =>
      match match1 true pattern fullText with
      | Some (Some captured) =>
          if nonempty captured then
            match titleCandidate captured with
            | Some title => Some title
            | None => titleFromPatterns more fullText
            end
          else titleFromPatterns more fullText
      | _ => titleFromPatterns more fullText
      end
  end.

Definition extractJobTitle (content subject : str) : option str :=
  titleFromPatterns titlePatterns (subject ++ lit " " ++ content).

(* ===================================================================== *)
(** ** [route.ts]: status classifier *)
(* ===================================================================== *)

Definition rejectionIndicators : list str := strs
  ["we regret to inform you"; "we regret to inform"; "sorry to inform you";
   "sorry to inform"; "we are unable to"; "we cannot"; "we will not be";
   "we have decided not to"; "we have chosen to";
   "we are moving forward with other candidates";
   "moving forward with other candidates";
   "we are proceeding with other candidates";
   "proceeding with other candidates"; "we have selected other candidates";
   "selected other candidates"; "we have chosen other candidates";
   "chosen other candidates"; "decided to pursue other candidates";
   "pursue other candidates"; "going with another candidate";
   "chosen another candidate"; "selected another candidate";
   "not a match at this time"; "not the right fit"; "not a good fit";
   "not the best fit"; "better suited candidates";
   "more qualified candidates"; "stronger candidates";
   "different direction"; "different path"; "other direction";
   "will not be moving forward"; "not moving forward";
   "will not be proceeding"; "not proceeding"; "will not be advancing";
   "not advancing"; "will not be continuing"; "not continuing";
   "unfortunately"; "regrettably"; "we must inform you";
   "we have to inform you"; "we need to inform you";
   "we are writing to inform you"; "thank you for your interest, however";
   "thank you for your interest but"; "thank you for applying, however";
   "thank you for applying but"; "we appreciate your interest, however";
   "we appreciate your interest but"; "appreciate your time, however";
   "appreciate your time but"; "position has been filled";
   "role has been filled"; "job has been filled";
   "position is no longer available"; "role is no longer available";
   "job is no longer available"; "decided not to fill";
   "chose not to fill"; "highly competitive"; "many qualified applicants";
   "numerous qualified candidates"; "large pool of candidates";
   "extensive candidate pool"; "other applicants";
   "alternative candidates"; "keep your resume on file";
   "keep you in mind for future"; "future opportunities";
   "future openings"; "will keep your information";
   "consider you for future"; "future positions"; "wish you the best";
   "best of luck"; "success in your job search";
   "good luck with your search"; "wish you success"; "best wishes";
   "all the best"].

Definition offerIndicators : list str := strs
  ["pleased to offer"; "happy to offer"; "excited to offer";
   "delighted to offer"; "thrilled to offer"; "offer you the position";
   "offer you a position"; "extend an offer"; "job offer";
   "employment offer"; "offer of employment"; "congratulations";
   "you have been selected"; "we would like to hire"; "we want to hire";
   "welcome to the team"; "welcome aboard"; "offer letter";
   "compensation package"; "salary offer"; "starting salary";
   "benefits package"; "start date"; "first day of work";
   "orientation date"].

Definition interviewIndicators : list str := strs
  ["interview"; "phone screen"; "phone call"; "video call"; "zoom call";
   "teams call"; "schedule a call"; "set up a call"; "arrange a call";
   "technical screen"; "coding challenge"; "assessment"; "next round";
   "second round"; "final round"; "meet with"; "speak with"; "chat with";
   "discussion"; "conversation"; "would like to talk"; "like to speak";
   "schedule a meeting"; "set up a meeting"; "arrange a meeting";
   "next step"; "next steps"; "follow up"; "follow-up"; "move forward";
   "proceed to"; "advance to"].

Definition appliedIndicators : list str := strs
  ["application received"; "thank you for applying"; "thanks for applying";
   "received your application"; "application has been received";
   "thank you for your application"; "thanks for your application";
   "application confirmation"; "thank you for your interest";
   "thanks for your interest"; "we have received your";
   "successfully submitted"; "application submitted"; "under review";
   "being reviewed"; "review your application";
   "reviewing your application"; "will review"; "team will review";
   "hiring team will"; "will be in touch"; "will contact you";
   "will reach out"; "will get back to you"; "hear from us";
   "application status"; "keep you updated"; "update you"].

Definition determineStatus (content : str) : Status :=
  let contentLower := toLowerCase content in
  if existsb (fun indicator => includes contentLower indicator)
             rejectionIndicators then rejected
  else if existsb (fun indicator => includes contentLower indicator)
                  offerIndicators then offered
  else if existsb (fun indicator => includes contentLower indicator)
                  interviewIndicators then interviewing
  else if existsb (fun indicator => includes contentLower indicator)
                  appliedIndicators then applied
  else applied.

(* ===================================================================== *)
(** ** [route.ts]: text normalizer *)
(* ===================================================================== *)

(** The chain of global replacements of [cleanHtmlContent]: flag [i],
    pattern, replacement. *)
Definition cleanSteps : list (bool * re * str) :=
  [(false, rx "@import[^;]+;", []);
   (true, rx "<style[^>]*>[\s\S]*?<\/style>", []);
   (true, rx ("style\s*=\s*[" +:+ dq +:+ "'][^" +:+ dq +:+ "']*[" +:+ dq +:+ "']"), []);
   (true, rx "<script[^>]*>[\s\S]*?<\/script>", []);
   (false, rx "<!--[\s\S]*?-->", []);
   (true, rx "<head[^>]*>[\s\S]*?<\/head>", []);
   (true, rx "<meta[^>]*>", []);
   (true, rx "<link[^>]*>", []);
   (false, rx "\{[^}]*\}", []);
   (true, rx "font-family:[^;]+;?", []);
   (true, rx "color:[^;]+;?", []);
   (true, rx "margin:[^;]+;?", []);
   (true, rx "padding:[^;]+;?", []);
   (true, rx "width:[^;]+;?", []);
   (true, rx "height:[^;]+;?", []);
   (true, rx "-webkit-[^;]+;?", []);
   (true, rx "-ms-[^;]+;?", []);
   (true, rx "mso-[^;]+;?", []);
   (true, rx "<br\s*\/?>", nl);
   (true, rx "<\/p>", (nl ++ nl));
   (true, rx "<p[^>]*>", []);
   (true, rx "<div[^>]*>", []);
   (true, rx "<\/div>", nl);
   (true, rx "<h[1-6][^>]*>", nl);
   (true, rx "<\/h[1-6]>", (nl ++ nl));
   (true, rx "<li[^>]*>", (lit "‚Ä¢ "));
   (true, rx "<\/li>", nl);
   (false, rx "<[^>]+>", (lit " "));
   (true, rx "&nbsp;", (lit " "));
   (true, rx "&amp;", (lit "&"));
   (true, rx "&lt;", (lit "<"));
   (true, rx "&gt;", (lit ">"));
   (true, rx "&quot;", (lit dq));
   (true, rx "&#39;", (lit "'"));
   (false, rx "&[a-zA-Z0-9#]+;", []);
   (false, rx "\s+", (lit " "));
   (false, rx "\n\s+", nl);
   (false, rx "\n{3,}", (nl ++ nl))].

(** The steps that remove or decode markup, and the steps that
    normalize whitespace after them. *)
Definition markupSteps : list (bool * re * str) := firstn 35 cleanSteps.
Definition spaceSteps : list (bool * re * str) := skipn 35 cleanSteps.


Definition isNewline (c : ascii) : bool := ascii_eqb c (ascii_of_nat 10).

(** What the whitespace pattern [\s+] of the sources parses to. *)
Definition spaces : re :=
  Seq (Chr false ws_ranges) (Star true (Chr false ws_ranges)).

Definition applySteps (steps : list (bool * re * str)) (s : str) : str :=
  fold_left (fun acc '(ci, r, rep) => replaceAll ci r rep acc) steps s.

Definition cleanHtmlContent (htmlContent : str) : str :=
  if negb (nonempty htmlContent) then []
  else trim (applySteps cleanSteps htmlContent).

(* ===================================================================== *)
(** ** [route.ts]: hybrid classifier and confidence scorer *)
(* ===================================================================== *)

Import AiService.

Record Analysis : Type := {
  a_status : Status;
  a_company : option str;
  a_jobTitle : option str;
  a_confidence : Q;
  a_method : Method
}.

(** [try { body } catch (error) { handler }] *)
Definition try_catch {A : Type} (body : result A) (handler : str -> result A)
    : result A :=
  match body with
  | Ok a => Ok a
  | Throw error => handler error
  end.

Definition bind {A B : Type} (m : result A) (f : A -> result B) : result B :=
  match m with
  | Ok a => f a
  | Throw e => Throw e
  end.

(** The regex fallback at the end of [determineStatusWithAI]. *)
Definition regexAnalysis (content subject from : str) : Analysis :=
  let regexStatus := determineStatus content in
  let regexCompany := extractCompany from content subject in
  let regexJobTitle := extractJobTitle content subject in
  let regexConfidence := (3 # 10)%Q in
  let regexConfidence :=
    if truthy regexCompany &&
       negb (str_eqb (default [] regexCompany) "Unknown Company")
    then (regexConfidence + (2 # 10))%Q else regexConfidence in
  let regexConfidence :=
    if truthy regexJobTitle &&
       negb (str_eqb (default [] regexJobTitle) "Unknown Position")
    then (regexConfidence + (2 # 10))%Q else regexConfidence in
  let regexConfidence :=
    match regexStatus with
    | rejected | offered => (regexConfidence + (2 # 10))%Q
    | _ => regexConfidence
    end in
  {| a_status := regexStatus;
     a_company := regexCompany;
     a_jobTitle := regexJobTitle;
     a_confidence := Qmin regexConfidence (9 # 10)%Q;
     a_method := regex |}.

(** [determineStatusWithAI].  The service is given by its two methods;
    [analyze] may throw.  Inside the [try] block an accepted AI result
    returns from the function, anything else falls through to the regex
    path. *)
Definition determineStatusWithAI
    (available : bool)
    (analyze : EmailData -> result (option EmailAnalysisResult))
    (content subject from : str) : result Analysis :=
  let early : result (option Analysis) :=
    if available then
      try_catch
        (bind (analyze {| subject := subject; from := from;
                          content := content |})
           (fun aiResult =>
              match aiResult with
              | Some r =>
                  if Qle_bool (2 # 10)%Q (confidence r)
                  then Ok (Some {| a_status := status r;
                                   a_company := company r;
                                   a_jobTitle := jobTitle r;
                                   a_confidence := confidence r;
                                   a_method := ai |})
                  else Ok None
              | None => Ok None
              end))
        (fun _ => Ok None)
    else Ok None in
  bind early (fun returned =>
    match returned with
    | Some analysis => Ok analysis
    | None => Ok (regexAnalysis content subject from)
    end).

(** The message body as the Gmail payload carries it: in the payload
    itself, or in its parts. *)
Inductive payload : Type :=
| BodyData (rawContent : str)
| Parts (textPart htmlPart : option str)
| NoBody.

Definition messageBody (p : payload) : str :=
  let body :=
    match p with
    | BodyData rawContent => cleanHtmlContent rawContent
    | Parts (Some text) _ => text
    | Parts None (Some htmlContent) => cleanHtmlContent htmlContent
    | Parts None None => []
    | NoBody => []
    end in
  if includes body "@import" || includes body "font-family" ||
     includes body "-webkit-"
  then cleanHtmlContent body else body.

Record JobApplication : Type := {
  j_company : str;
  j_jobTitle : str;
  j_status : Status;
  j_confidence : Q;
  j_emailSubject : str;
  j_emailFrom : str;
  j_analysisMethod : Method
}.

(** The confidence before the cap: the analysis confidence with the
    boosts and the penalty of the scan loop applied. *)
Definition adjustedConfidence (analysisConfidence : Q)
    (company jobTitle : option str) (subject from content : str) : Q :=
  let confidence := analysisConfidence in
  let confidence :=
    match company with
    | Some c =>
        if nonempty c && negb (str_eqb c "Unknown Company") &&
           (Nat.ltb 2 (length c) && negb (includes (toLowerCase c) "team"))
        then (confidence + (1 # 10))%Q else confidence
    | None => confidence
    end in
  let confidence :=
    if truthy jobTitle &&
       negb (str_eqb (default [] jobTitle) "Unknown Position")
    then (confidence + (1 # 10))%Q else confidence in
  let subjectLower := toLowerCase subject in
  let confidence :=
    if includes subjectLower "application" && includes subjectLower "received"
    then (confidence + (1 # 10))%Q
    else if includes subjectLower "interview" ||
            includes subjectLower "schedule"
    then (confidence + (15 # 100))%Q
    else if includes subjectLower "offer" ||
            includes subjectLower "congratulations"
    then (confidence + (2 # 10))%Q
    else confidence in
  let contentLower := toLowerCase content in
  let confidence :=
    if includes contentLower "newsletter" || includes contentLower "digest" ||
       includes contentLower "marketing" ||
       includes contentLower "promotional" ||
       includes contentLower "unsubscribe" ||
       includes contentLower "you may be interested"
    then (confidence - (3 # 10))%Q else confidence in
  let confidence :=
    if includes from "@" && negb (includes from "noreply") &&
       negb (includes from "no-reply")
    then
      let fromParts := splitChar "@" from in
      let part0 := hd [] fromParts in
      if nonempty part0 &&
         (includes part0 "." || test false (rx "[a-z]+[A-Z]") part0)
      then (confidence + (1 # 10))%Q else confidence
    else confidence in
  confidence.

(** The first half of one iteration of the scan loop, up to the cap:
    [None] when the message is not job related, otherwise the analysis,
    the company and job title retained, and the adjusted confidence. *)
Definition scoreMessage
    (available : bool)
    (analyze : EmailData -> result (option EmailAnalysisResult))
    (subject from : str) (p : payload)
    : result (option (Analysis * option str * option str * Q)) :=
  let body := messageBody p in
  let content := toLowerCase (subject ++ lit " " ++ body) in
  if isJobRelatedEmail content from subject then
    bind (determineStatusWithAI available analyze content subject from)
      (fun analysisResult =>
         let company :=
           orElse (a_company analysisResult)
                  (extractCompany from body subject) in
         let jobTitle :=
           orElse (a_jobTitle analysisResult)
                  (extractJobTitle content subject) in
         Ok (Some (analysisResult, company, jobTitle,
                   adjustedConfidence (a_confidence analysisResult) company
                                      jobTitle subject from content)))
  else Ok None.

(** One iteration of the scan loop: [Ok (Some j)] when a job application
    is pushed, [Ok None] when the message is dropped. *)
Definition processMessage
    (available : bool)
    (analyze : EmailData -> result (option EmailAnalysisResult))
    (subject from : str) (p : payload) : result (option JobApplication) :=
  bind (scoreMessage available analyze subject from p)
    (fun scored =>
       match scored with
       | None => Ok None
       | Some (analysisResult, company, jobTitle, confidence) =>
           let confidence := Qmin confidence (95 # 100)%Q in
           if Qle_bool (2 # 10)%Q confidence then
             Ok (Some {| j_company :=
                           if truthy company then default [] company
                           else lit "Unknown Company";
                         j_jobTitle :=
                           if truthy jobTitle then default [] jobTitle
                           else lit "Unknown Position";
                         j_status := a_status analysisResult;
                         j_confidence := confidence;
                         j_emailSubject := subject;
                         j_emailFrom := from;
                         j_analysisMethod := a_method analysisResult |})
           else Ok None
       end).

(** The scan loop: a message whose processing throws is logged and
    skipped. *)
Fixpoint scanMessages
    (available : bool)
    (analyze : EmailData -> result (option EmailAnalysisResult))
    (messages : list (str * str * payload)) : list JobApplication :=
  match messages with
  | [] => []
  | (subject, from, p) :: more =>
      match processMessage available analyze subject from p with
      | Ok (Some j) => j :: scanMessages available analyze more
      | _ => scanMessages available analyze more
      end
  end.

End Route.

(* ===================================================================== *)
(** ** [job-recategorization-service.ts]: batch recategorization *)
(* ===================================================================== *)

Module Recat.

(** A stored ISO timestamp, as [new Date(s).getTime()] reads it: an
    instant in milliseconds, or NaN for text that is not a date. *)
Inductive stamp : Type :=
| Instant (ms : Z)
| InvalidDate.

(** A stored job document.  Optional fields are [None] when absent; an
    empty string is stored as such and is falsy like an absent field. *)
Record JobData : Type := {
  id : str;
  companyName : str;
  jobTitle : str;
  status : Status;
  emailSubject : option str;
  emailFrom : option str;
  lastAnalyzed : option stamp
}.

Record StatusChange : Type := {
  sc_from : Status;
  sc_to : Status;
  sc_company : str;
  sc_jobTitle : str
}.

Record RecategorizationResult : Type := {
  totalJobs : nat;
  analyzedJobs : nat;
  updatedJobs : nat;
  errors : list str;
  aiAnalyzed : nat;
  regexFallback : nat;
  skipped : nat;
  statusChanges : list StatusChange
}.

Inductive Mode : Type := analyze | update.

(** Field values written to the store. *)
Inductive value : Type :=
| VStatus (s : Status)
| VStr (s : str)
| VNum (q : Q)
| VMethod (m : Method)
| VTime (ms : Z).

(** What a run does that can be observed from outside: the progress
    lines it logs, the document updates it issues, and the rate-limit
    pause after an AI analysis. *)
Inductive event : Type :=
| LogSkipping (company : str)
| LogAnalyzing (company title : str) (current : Status)
| LogAnalyzingWithPatterns (company title : str)
| UpdateDoc (doc : str) (updates : gmap string value)
| Delay (ms : nat).

Definition rejectionIndicators : list str := strs
  ["we regret to inform"; "sorry to inform"; "we are unable to";
   "moving forward with other candidates";
   "decided to pursue other candidates"; "not a match at this time";
   "not the right fit"; "unfortunately"; "position has been filled";
   "we have chosen other candidates"; "decided not to fill";
   "thank you for your interest, however"; "wish you the best"].

Definition offerIndicators : list str := strs
  ["pleased to offer"; "happy to offer"; "job offer";
   "offer you the position"; "congratulations"; "you have been selected";
   "welcome to the team"; "offer letter"; "compensation package";
   "start date"].

Definition interviewIndicators : list str := strs
  ["interview"; "phone screen"; "video call"; "schedule a call";
   "technical screen"; "coding challenge"; "next round"; "meet with";
   "next step"].

Definition appliedIndicators : list str := strs
  ["application received"; "thank you for applying";
   "received your application"; "under review"; "will review";
   "will be in touch"].

Record PatternAnalysis : Type := {
  p_status : Status;
  p_company : str;
  p_jobTitle : str;
  p_confidence : Q;
  p_reasoning : str
}.

Definition analyzeJobWithPatterns (job : JobData) : PatternAnalysis :=
  let emailSubject := toLowerCase (default [] (emailSubject job)) in
  let combinedText := emailSubject in
  let hit := existsb (fun indicator => includes combinedText indicator) in
  let '(newStatus, confidence, reasoning) :=
    if hit rejectionIndicators then
      (rejected, (8 # 10)%Q,
       lit "Strong rejection language detected in email content")
    else if hit offerIndicators then
      (offered, (9 # 10)%Q, lit "Offer language detected in email content")
    else if hit interviewIndicators then
      (interviewing, (7 # 10)%Q,
       lit "Interview-related language detected in email content")
    else if hit appliedIndicators then
      (applied, (6 # 10)%Q, lit "Application confirmation language detected")
    else
      (status job, (3 # 10)%Q,
       lit "Status maintained based on existing classification") in
  {| p_status := newStatus;
     p_company := companyName job;
     p_jobTitle := jobTitle job;
     p_confidence := confidence;
     p_reasoning := reasoning |}.

Record JobAnalysis : Type := {
  newStatus : Status;
  newCompany : str;
  newJobTitle : str;
  confidence : Q;
  method : Method;
  reasoning : str
}.

(** [a || b] on strings. *)
Definition orStr (a b : str) : str := if nonempty a then a else b.

(** [analyzeJobWithAI]: the analysis and the lines it logs. *)
Definition analyzeJobWithAI (job : JobData) : JobAnalysis * list event :=
  if negb (truthy (emailSubject job)) && negb (truthy (emailFrom job)) then
    ({| newStatus := status job;
        newCompany := companyName job;
        newJobTitle := jobTitle job;
        confidence := (1 # 10)%Q;
        method := insufficient_data;
        reasoning := lit "No email data available for analysis" |}, [])
  else
    let enhancedStatus := analyzeJobWithPatterns job in
    ({| newStatus := p_status enhancedStatus;
        newCompany := orStr (p_company enhancedStatus) (companyName job);
        newJobTitle := orStr (p_jobTitle enhancedStatus) (jobTitle job);
        confidence := p_confidence enhancedStatus;
        method := regex;
        reasoning := p_reasoning enhancedStatus |},
     [LogAnalyzingWithPatterns (companyName job) (jobTitle job)]).

Definition status_eqb (a b : Status) : bool :=
  match a, b with
  | applied, applied | interviewing, interviewing | offered, offered
  | rejected, rejected | ghosted, ghosted => true
  | _, _ => false
  end.

Definition msPerDay : Z := 1000 * 60 * 60 * 24.

(** [(Date.now() - lastAnalyzed.getTime()) / (1000 * 60 * 60 * 24)], as an
    exact quotient. *)
Definition daysSince (now ms : Z) : Q :=
  (inject_Z (now - ms) / inject_Z msPerDay)%Q.

Definition Qltb (a b : Q) : bool := negb (Qle_bool b a).

(** The staleness gate: [daysSinceAnalysis < 7]; a comparison with NaN
    is false. *)
Definition analyzedRecently (now : Z) (t : stamp) : bool :=
  match t with
  | Instant ms => Qltb (daysSince now ms) 7%Q
  | InvalidDate => false
  end.

Section Run.

(** The clock: the k-th reading of the current time during a run. *)
Variable clock : nat -> Z.

(** The persistence collaborator: an update succeeds or throws. *)
Variable updateDoc : str -> gmap string value -> result unit.

(** The state of the loop: the result under construction, the events so
    far (latest last), and the number of clock readings taken. *)
Record loopState : Type := {
  res : RecategorizationResult;
  trace : list event;
  reads : nat
}.

Definition emit (evs : list event) (st : loopState) : loopState :=
  {| res := res st; trace := trace st ++ evs; reads := reads st |}.

Definition tick (st : loopState) : Z * loopState :=
  (clock (reads st),
   {| res := res st; trace := trace st; reads := S (reads st) |}).

Definition onResult (f : RecategorizationResult -> RecategorizationResult)
    (st : loopState) : loopState :=
  {| res := f (res st); trace := trace st; reads := reads st |}.

Definition incSkipped (r : RecategorizationResult) :=
  {| totalJobs := totalJobs r; analyzedJobs := analyzedJobs r;
     updatedJobs := updatedJobs r; errors := errors r;
     aiAnalyzed := aiAnalyzed r; regexFallback := regexFallback r;
     skipped := S (skipped r); statusChanges := statusChanges r |}.

Definition incAnalyzed (r : RecategorizationResult) :=
  {| totalJobs := totalJobs r; analyzedJobs := S (analyzedJobs r);
     updatedJobs := updatedJobs r; errors := errors r;
     aiAnalyzed := aiAnalyzed r; regexFallback := regexFallback r;
     skipped := skipped r; statusChanges := statusChanges r |}.

Definition incAi (r : RecategorizationResult) :=
  {| totalJobs := totalJobs r; analyzedJobs := analyzedJobs r;
     updatedJobs := updatedJobs r; errors := errors r;
     aiAnalyzed := S (aiAnalyzed r); regexFallback := regexFallback r;
     skipped := skipped r; statusChanges := statusChanges r |}.

Definition incRegex (r : RecategorizationResult) :=
  {| totalJobs := totalJobs r; analyzedJobs := analyzedJobs r;
     updatedJobs := updatedJobs r; errors := errors r;
     aiAnalyzed := aiAnalyzed r; regexFallback := S (regexFallback r);
     skipped := skipped r; statusChanges := statusChanges r |}.

Definition incUpdated (r : RecategorizationResult) :=
  {| totalJobs := totalJobs r; analyzedJobs := analyzedJobs r;
     updatedJobs := S (updatedJobs r); errors := errors r;
     aiAnalyzed := aiAnalyzed r; regexFallback := regexFallback r;
     skipped := skipped r; statusChanges := statusChanges r |}.

Definition pushChange (c : StatusChange) (r : RecategorizationResult) :=
  {| totalJobs := totalJobs r; analyzedJobs := analyzedJobs r;
     updatedJobs := updatedJobs r; errors := errors r;
     aiAnalyzed := aiAnalyzed r; regexFallback := regexFallback r;
     skipped := skipped r; statusChanges := statusChanges r ++ [c] |}.

Definition pushError (e : str) (r : RecategorizationResult) :=
  {| totalJobs := totalJobs r; analyzedJobs := analyzedJobs r;
     updatedJobs := updatedJobs r; errors := errors r ++ [e];
     aiAnalyzed := aiAnalyzed r; regexFallback := regexFallback r;
     skipped := skipped r; statusChanges := statusChanges r |}.

Definition trackMethod (m : Method) : loopState -> loopState :=
  match m with
  | ai => onResult incAi
  | regex => onResult incRegex
  | insufficient_data => onResult incSkipped
  end.

(** The [updates] object of one record. *)
Definition buildUpdates (now : Z) (job : JobData) (analysis : JobAnalysis)
    (statusChanged companyChanged titleChanged : bool)
    : gmap string value :=
  let updates : gmap string value :=
    <["confidence" := VNum (confidence analysis)]>
      (<["analysisMethod" := VMethod (method analysis)]>
         (<["lastAnalyzed" := VTime now]> ∅)) in
  let updates :=
    if statusChanged then <["status" := VStatus (newStatus analysis)]> updates
    else updates in
  let updates :=
    if companyChanged then <["companyName" := VStr (newCompany analysis)]> updates
    else updates in
  let updates :=
    if titleChanged then <["jobTitle" := VStr (newJobTitle analysis)]> updates
    else updates in
  if nonempty (reasoning analysis)
  then <["analysisReasoning" := VStr (reasoning analysis)]> updates
  else updates.

Definition changeOf (job : JobData) (analysis : JobAnalysis) : StatusChange :=
  {| sc_from := status job; sc_to := newStatus analysis;
     sc_company := companyName job; sc_jobTitle := jobTitle job |}.

(** The part of the loop body after the staleness gate; [Throw] leaves
    the state as it was when the exception was raised. *)
Definition analyzeAndUpdate (mode : Mode) (job : JobData) (st : loopState)
    : loopState * result unit :=
  let st :=
    emit [LogAnalyzing (companyName job) (jobTitle job) (status job)] st in
  let st := onResult incAnalyzed st in
  let '(analysis, logs) := analyzeJobWithAI job in
  let st := emit logs st in
  let st := trackMethod (method analysis) st in
  let statusChanged := negb (status_eqb (newStatus analysis) (status job)) in
  let companyChanged :=
    nonempty (newCompany analysis) &&
    negb (str_eqb (newCompany analysis) (companyName job)) in
  let titleChanged :=
    nonempty (newJobTitle analysis) &&
    negb (str_eqb (newJobTitle analysis) (jobTitle job)) in
  let pause (st : loopState) :=
    match method analysis with
    | ai => emit [Delay 100] st
    | _ => st
    end in
  if statusChanged || companyChanged || titleChanged then
    match mode with
    | update =>
        let '(now, st) := tick st in
        let updates :=
          buildUpdates now job analysis statusChanged companyChanged
                       titleChanged in
        let st :=
          if statusChanged then onResult (pushChange (changeOf job analysis)) st
          else st in
        let st := emit [UpdateDoc (id job) updates] st in
        match updateDoc (id job) updates with
        | Ok _ => (pause (onResult incUpdated st), Ok tt)
        | Throw e => (st, Throw e)
        end
    | analyze =>
        let st :=
          if statusChanged then onResult (pushChange (changeOf job analysis)) st
          else st in
        (pause st, Ok tt)
    end
  else (pause st, Ok tt).

(** One iteration of the loop over the snapshot, with its [try]/[catch].
    The clock is read only when the staleness gate is evaluated. *)
Definition processJob (mode : Mode) (forceUpdate : bool) (job : JobData)
    (st : loopState) : loopState :=
  let '(recent, st) :=
    if negb forceUpdate then
      match lastAnalyzed job with
      | Some t => let '(now, st') := tick st in (analyzedRecently now t, st')
      | None => (false, st)
      end
    else (false, st) in
  if recent then
    onResult incSkipped (emit [LogSkipping (companyName job)] st)
  else
    match analyzeAndUpdate mode job st with
    | (st, Ok _) => st
    | (st, Throw e) =>
        onResult (pushError (lit "Failed to process job " ++ id job ++
                             lit ": " ++ e)) st
    end.

Definition emptyResult (n : nat) : RecategorizationResult :=
  {| totalJobs := n; analyzedJobs := 0; updatedJobs := 0; errors := [];
     aiAnalyzed := 0; regexFallback := 0; skipped := 0;
     statusChanges := [] |}.

Definition initialState (n : nat) : loopState :=
  {| res := emptyResult n; trace := []; reads := 0 |}.

Definition runLoop (mode : Mode) (forceUpdate : bool) (jobs : list JobData)
    (st : loopState) : loopState :=
  fold_left (fun st job => processJob mode forceUpdate job st) jobs st.

(** [runRecategorization]: [getDocs] hands over the snapshot or throws,
    and a failure there is rethrown.  The result comes with the events of
    the run. *)
Definition runRecategorization (snapshot : result (list JobData))
    (mode : Mode) (forceUpdate : bool)
    : result (RecategorizationResult * list event) :=
  match snapshot with
  | Throw e => Throw e
  | Ok [] => Ok (emptyResult 0, [])
  | Ok jobs =>
      let st := runLoop mode forceUpdate jobs (initialState (length jobs)) in
      Ok (res st, trace st)
  end.

End Run.

End Recat.

(* ===================================================================== *)
(** ** Reference definitions, in the words of the specification *)
(* ===================================================================== *)

Module Spec.

(** "Four ordered indicator-phrase sets are checked in strict priority." *)
Definition priorityTable : list (list str * Status) :=
  [(Route.rejectionIndicators, rejected);
   (Route.offerIndicators, offered);
   (Route.interviewIndicators, interviewing);
   (Route.appliedIndicators, applied)].

(** "First category with any substring match wins." *)
Fixpoint firstMatch (table : list (list str * Status)) (text : str)
    : option Status :=
  match table with
  | [] => None
  | (phrases, st) :: more =>
      if existsb (fun phrase => includes text phrase) phrases then Some st
      else firstMatch more text
  end.

(** "If none match, default status is applied." *)
Definition classify (content : str) : Status :=
  default applied (firstMatch priorityTable (toLowerCase content)).

(** Substring-based, case-insensitive phrase matching: some stretch of
    the content reads as the phrase once lower-cased. *)
Definition containsPhrase (content : str) (phrase : string) : Prop :=
  exists before stretch after,
    content = before ++ stretch ++ after /\ toLowerCase stretch = lit phrase.


(** The fields the persistence interface names. *)
Definition namedFields : gset string :=
  {[ "status"; "companyName"; "jobTitle"; "lastAnalyzed"; "analysisMethod";
     "confidence" ]}.

(** Every update of a trace writes fields of the given set only. *)
Definition writesOnly (fields : gset string) (tr : list Recat.event) : Prop :=
  forall doc updates,
    In (Recat.UpdateDoc doc updates) tr -> dom updates ⊆ fields.

(** The same, event by event. *)
Definition eventWithin (fields : gset string) (e : Recat.event) : Prop :=
  match e with
  | Recat.UpdateDoc _ updates => dom updates ⊆ fields
  | _ => True
  end.

(** The fields an update can carry in the code. *)
Definition writtenFields : gset string :=
  namedFields ∪ {[ "analysisReasoning" ]}.


(** Case-insensitive equality with a listed term. *)
Definition isListed (terms : list str) (name : str) : bool :=
  mem (toLowerCase name) terms.

End Spec.

(* ===================================================================== *)
(** ** Sample inputs *)
(* ===================================================================== *)

Module Examples.

Import Recat.

(** A stored application whose e-mail subject carries rejection language. *)
Definition rejectedJob : JobData :=
  {| id := "job-1"; companyName := "Acme"; jobTitle := "Analyst";
     status := applied;
     emailSubject := Some (lit "Unfortunately, the position has been filled");
     emailFrom := Some (lit "hr@acme.com");
     lastAnalyzed := None |}.

(** The same application, analysed two days before the run. *)
Definition recentJob : JobData :=
  {| id := "job-2"; companyName := "Acme"; jobTitle := "Analyst";
     status := applied;
     emailSubject := Some (lit "Unfortunately, the position has been filled");
     emailFrom := Some (lit "hr@acme.com");
     lastAnalyzed := Some (Instant 0) |}.

(** An application entered by hand: no e-mail data. *)
Definition manualJob : JobData :=
  {| id := "job-3"; companyName := "Globex"; jobTitle := "Engineer";
     status := interviewing;
     emailSubject := None;
     emailFrom := Some [];
     lastAnalyzed := None |}.

(** The first end-to-end scenario of the specification. *)
Definition acmeSubject : str :=
  "Thank you for applying to Acme Corp - Software Engineer".
Definition acmeFrom : str := "jobs@acmecorp.com".



(** A clock stopped two days after instant 0. *)
Definition twoDaysLater : nat -> Z := fun _ => (2 * 24 * 60 * 60 * 1000)%Z.

(** A store that accepts every update. *)
Definition acceptAll : str -> gmap string value -> result unit :=
  fun _ _ => Ok tt.

End Examples.

(* ===================================================================== *)
(** ** Further reference definitions *)
(* ===================================================================== *)

Module Props.

(** The wording that costs a message 0.3 of confidence in the scan loop. *)
Definition penaltyWords : list str := strs
  ["newsletter"; "digest"; "marketing"; "promotional"; "unsubscribe";
   "you may be interested"].


(** What a retained application owes to the message it was made from. *)
Definition wellFormed (j : Route.JobApplication) : Prop :=
  nonempty (Route.j_company j) = true /\
  nonempty (Route.j_jobTitle j) = true /\
  Route.j_analysisMethod j <> insufficient_data /\
  (2 # 10 <= Route.j_confidence j <= 95 # 100)%Q.

(** The braces between which the reply of the model is read. *)
Definition isOpenBrace (c : ascii) : bool := ascii_eqb c "{".
Definition isCloseBrace (c : ascii) : bool := ascii_eqb c "}".

(** The character class [[\s\S]] and the pattern of the reply, as the
    pattern text parses. *)
Definition anyChar : list (N * N) :=
  [(9, 13); (32, 32); (0, 8); (14, 31); (33, 255)]%N.

Definition bracesPattern : re :=
  Seq (Chr false [(123, 123)]%N)
      (Seq (Star true (Chr false anyChar)) (Chr false [(125, 125)]%N)).

(** The greedy loop of that pattern followed by its closing brace. *)
Definition upToClose (n p : nat) (s : str) (cp : option str) : option mstate :=
  star_loop (rmatch false (Chr false anyChar)) true
            (rmatch false (Chr false [(125, 125)]%N) Some) n (MState p s cp).

(** The updates among the events of a run. *)
Definition isUpdate (e : Recat.event) : bool :=
  match e with
  | Recat.UpdateDoc _ _ => true
  | _ => false
  end.

Definition countUpdates (tr : list Recat.event) : nat :=
  length (List.filter isUpdate tr).

(** The fields of an update of the client-side run. *)
Definition updateFields : gset string :=
  {[ "lastAnalyzed"; "analysisMethod"; "confidence"; "status";
     "analysisReasoning" ]}.


(** An update of [job] as the client-side run issues it. *)
Definition updateOf (job : Recat.JobData) (e : Recat.event) : Prop :=
  match e with
  | Recat.UpdateDoc doc updates =>
      (doc = Recat.id job) /\
      (dom updates = updateFields) /\
      ((updates !! "analysisMethod") = Some (Recat.VMethod regex)) /\
      ((updates !! "status") =
         Some (Recat.VStatus
                 (Recat.newStatus (fst (Recat.analyzeJobWithAI job))))) /\
      (Recat.newStatus (fst (Recat.analyzeJobWithAI job)) <> Recat.status job)
  | _ => True
  end.

(** The state of the client-side loop after the analysis of a record,
    before any update. *)
Definition analysed (job : Recat.JobData) (st : Recat.loopState)
    : Recat.loopState :=
  Recat.trackMethod (Recat.method (fst (Recat.analyzeJobWithAI job)))
    (Recat.emit (snd (Recat.analyzeJobWithAI job))
       (Recat.onResult Recat.incAnalyzed
          (Recat.emit [Recat.LogAnalyzing (Recat.companyName job)
                         (Recat.jobTitle job) (Recat.status job)]
                      st))).

(** An update of the run is the update of one of the records read. *)
Definition updateFrom (jobs : list Recat.JobData) (e : Recat.event) : Prop :=
  match e with
  | Recat.UpdateDoc _ _ => exists job, In job jobs /\ updateOf job e
  | _ => True
  end.


(** Two results that report the same decisions: they may differ in the
    outcome of the writes only. *)
Definition sameDecisions (r1 r2 : Recat.RecategorizationResult) : Prop :=
  (Recat.totalJobs r1 = Recat.totalJobs r2) /\
  (Recat.analyzedJobs r1 = Recat.analyzedJobs r2) /\
  (Recat.aiAnalyzed r1 = Recat.aiAnalyzed r2) /\
  (Recat.regexFallback r1 = Recat.regexFallback r2) /\
  (Recat.skipped r1 = Recat.skipped r2) /\
  (Recat.statusChanges r1 = Recat.statusChanges r2).

(** A store that refuses every update. *)
Definition refuseAll : str -> gmap string Recat.value -> result unit :=
  fun _ _ => Throw (lit "permission-denied").

(** A reply of the remote model, in a code fence, and a parser that reads
    the object between its braces. *)
Definition sampleReply : AiService.EmailData -> result str :=
  fun _ => Ok (lit "```json {status: rejected, confidence: 0.9} ```").

Definition sampleParse (text : str) : result AiService.json :=
  if str_eqb text (lit "{status: rejected, confidence: 0.9}") then
    Ok (AiService.JObj
          [("status"%string, AiService.JStr (lit "rejected"));
           ("company"%string, AiService.JStr (lit "Acme"));
           ("jobTitle"%string, AiService.JNull);
           ("confidence"%string, AiService.JNum (9 # 10)%Q)])
  else Throw (lit "Unexpected token").

Definition sampleService : AiService.service :=
  AiService.newService (Some (lit "a-key")).

Definition sampleEmail : AiService.EmailData :=
  {| AiService.subject := Examples.acmeSubject;
     AiService.from := Examples.acmeFrom;
     AiService.content := lit "Unfortunately, we have decided to move forward with other candidates." |}.

End Props.

(* ===================================================================== *)
(** ** Numbers in template strings *)
(* ===================================================================== *)

(** [String(n)] for a count and for an integer. *)
Fixpoint digits (d : Decimal.uint) : str :=
  match d with
  | Decimal.Nil => []
  | Decimal.D0 d => "0"%char :: digits d
  | Decimal.D1 d => "1"%char :: digits d
  | Decimal.D2 d => "2"%char :: digits d
  | Decimal.D3 d => "3"%char :: digits d
  | Decimal.D4 d => "4"%char :: digits d
  | Decimal.D5 d => "5"%char :: digits d
  | Decimal.D6 d => "6"%char :: digits d
  | Decimal.D7 d => "7"%char :: digits d
  | Decimal.D8 d => "8"%char :: digits d
  | Decimal.D9 d => "9"%char :: digits d
  end.

Definition showNat (n : nat) : str := digits (Nat.to_uint n).

Definition showZ (z : Z) : str :=
  match z with
  | Z0 => lit "0"
  | Zpos p => digits (Pos.to_uint p)
  | Zneg p => "-"%char :: digits (Pos.to_uint p)
  end.

(* ===================================================================== *)
(** ** [job-recategorization-service.ts]: statistics *)
(* ===================================================================== *)

Module Stats.

Record StatusBreakdown : Type := {
  b_applied : nat;
  b_interviewing : nat;
  b_offered : nat;
  b_rejected : nat;
  b_ghosted : nat
}.

Record RecategorizationStats : Type := {
  totalJobs : nat;
  jobsWithEmailData : nat;
  jobsWithoutEmailData : nat;
  recentlyAnalyzed : nat;
  needsAnalysis : nat;
  statusBreakdown : StatusBreakdown
}.

Record Recommendations : Type := {
  shouldRunRecategorization : bool;
  potentialImpact : nat;
  message : str
}.

Record StatsReply : Type := {
  stats : RecategorizationStats;
  aiServiceAvailable : bool;
  recommendations : Recommendations
}.

(** [stats.statusBreakdown[job.status]++] *)
Definition countStatus (s : Status) (b : StatusBreakdown) : StatusBreakdown :=
  match s with
  | applied =>
      {| b_applied := S (b_applied b); b_interviewing := b_interviewing b;
         b_offered := b_offered b; b_rejected := b_rejected b;
         b_ghosted := b_ghosted b |}
  | interviewing =>
      {| b_applied := b_applied b; b_interviewing := S (b_interviewing b);
         b_offered := b_offered b; b_rejected := b_rejected b;
         b_ghosted := b_ghosted b |}
  | offered =>
      {| b_applied := b_applied b; b_interviewing := b_interviewing b;
         b_offered := S (b_offered b); b_rejected := b_rejected b;
         b_ghosted := b_ghosted b |}
  | rejected =>
      {| b_applied := b_applied b; b_interviewing := b_interviewing b;
         b_offered := b_offered b; b_rejected := S (b_rejected b);
         b_ghosted := b_ghosted b |}
  | ghosted =>
      {| b_applied := b_applied b; b_interviewing := b_interviewing b;
         b_offered := b_offered b; b_rejected := b_rejected b;
         b_ghosted := S (b_ghosted b) |}
  end.

Definition noStatus : StatusBreakdown :=
  {| b_applied := 0; b_interviewing := 0; b_offered := 0; b_rejected := 0;
     b_ghosted := 0 |}.

(** [job.emailSubject || job.emailFrom] *)
Definition hasEmailData (job : Recat.JobData) : bool :=
  truthy (Recat.emailSubject job) || truthy (Recat.emailFrom job).

Section Service.

(** The clock: the k-th reading of the current time. *)
Variable clock : nat -> Z.

(** The body of the [forEach] of [getRecategorizationStats], on the
    statistics and the number of clock readings so far.  The status of a
    record of the declared type is one of the keys of the breakdown. *)
Definition countJob (acc : RecategorizationStats * nat)
    (job : Recat.JobData) : RecategorizationStats * nat :=
  let '(s, reads) := acc in
  let breakdown := countStatus (Recat.status job) (statusBreakdown s) in
  let withData :=
    if hasEmailData job then S (jobsWithEmailData s)
    else jobsWithEmailData s in
  let withoutData :=
    if hasEmailData job then jobsWithoutEmailData s
    else S (jobsWithoutEmailData s) in
  let '(recent, reads) :=
    match Recat.lastAnalyzed job with
    | Some t => (Recat.analyzedRecently (clock reads) t, S reads)
    | None => (false, reads)
    end in
  ({| totalJobs := totalJobs s;
      jobsWithEmailData := withData;
      jobsWithoutEmailData := withoutData;
      recentlyAnalyzed :=
        if recent then S (recentlyAnalyzed s) else recentlyAnalyzed s;
      needsAnalysis :=
        if recent then needsAnalysis s else S (needsAnalysis s);
      statusBreakdown := breakdown |}, reads).

Definition emptyStats (n : nat) : RecategorizationStats :=
  {| totalJobs := n; jobsWithEmailData := 0; jobsWithoutEmailData := 0;
     recentlyAnalyzed := 0; needsAnalysis := 0; statusBreakdown := noStatus |}.

Definition collect (jobs : list Recat.JobData) : RecategorizationStats :=
  fst (fold_left countJob jobs (emptyStats (length jobs), 0)).

(** [getRecategorizationStats]: [getDocs] hands over the snapshot or
    throws, and a failure there is rethrown. *)
Definition getRecategorizationStats (snapshot : result (list Recat.JobData))
    : result StatsReply :=
  match snapshot with
  | Throw e => Throw e
  | Ok jobs =>
      let s := collect jobs in
      Ok {| stats := s;
            aiServiceAvailable := false;
            recommendations :=
              {| shouldRunRecategorization := Nat.ltb 0 (needsAnalysis s);
                 potentialImpact := jobsWithEmailData s;
                 message :=
                   if Nat.ltb 0 (needsAnalysis s) then
                     showNat (needsAnalysis s) ++
                     lit " jobs could benefit from AI recategorization"
                   else lit "All jobs have been recently analyzed" |} |}
  end.

End Service.

(** The simple statistics endpoint ([GET]).  A response is a message with
    a statistics reply, or a status code with an error text. *)
Inductive response : Type :=
| Json (message : str) (reply : StatsReply)
| Failure (code : nat) (error : str) (details : option str).

(** The body of its [forEach]: the count without e-mail data starts at the
    total and is decremented. *)
Definition countJobSimple (s : RecategorizationStats)
    (job : Recat.JobData) : RecategorizationStats :=
  {| totalJobs := totalJobs s;
     jobsWithEmailData :=
       if hasEmailData job then S (jobsWithEmailData s)
       else jobsWithEmailData s;
     jobsWithoutEmailData :=
       if hasEmailData job then Nat.pred (jobsWithoutEmailData s)
       else jobsWithoutEmailData s;
     recentlyAnalyzed := recentlyAnalyzed s;
     needsAnalysis := needsAnalysis s;
     statusBreakdown := countStatus (Recat.status job) (statusBreakdown s) |}.

Definition simpleStats (n : nat) : RecategorizationStats :=
  {| totalJobs := n; jobsWithEmailData := 0; jobsWithoutEmailData := n;
     recentlyAnalyzed := 0; needsAnalysis := n; statusBreakdown := noStatus |}.

Definition GET (userId : option str) (snapshot : result (list Recat.JobData))
    : response :=
  if negb (truthy userId) then
    Failure 400 (lit "User ID is required") None
  else
    match snapshot with
    | Throw e => Failure 500 (lit "Failed to get basic stats") (Some e)
    | Ok jobs =>
        let s := fold_left countJobSimple jobs (simpleStats (length jobs)) in
        Json (lit "Basic recategorization analysis")
             {| stats := s;
                aiServiceAvailable := false;
                recommendations :=
                  {| shouldRunRecategorization := Nat.ltb 0 (totalJobs s);
                     potentialImpact := jobsWithEmailData s;
                     message :=
                       if Nat.ltb 0 (totalJobs s) then
                         showNat (totalJobs s) ++
                         lit " jobs available for analysis"
                       else lit "No jobs found to analyze" |} |}
    end.

End Stats.

(* ===================================================================== *)
(** ** [interview-prep-service.ts]: the resume analysis service *)
(* ===================================================================== *)

Module Resume.

(** [s.match(re)] with the [g] flag: the texts of the matches, found left
    to right, the search resuming where the previous match ended (one
    character further after an empty match); [null] is the empty list.
    [skip] counts the characters of the current match still to be
    passed. *)
Fixpoint matchAll_go (ci : bool) (r : re) (s : str) (skip p : nat)
    {struct s} : list str :=
  match skip with
  | S skip' =>
      match s with
      | [] => []
      | _ :: s' => matchAll_go ci r s' skip' (S p)
      end
  | O =>
      match rmatch ci r Some (MState p s None) with
      | Some e =>
          firstn (pos e - p) s ::
          match s with
          | [] => []
          | _ :: s' => matchAll_go ci r s' (Nat.pred (pos e - p)) (S p)
          end
      | None =>
          match s with
          | [] => []
          | _ :: s' => matchAll_go ci r s' 0 (S p)
          end
      end
  end.

Definition matchAll (ci : bool) (r : re) (s : str) : list str :=
  matchAll_go ci r s 0 0.

(** [Math.floor] and [Math.round] on an exact quotient: halves go up. *)
Definition floor (q : Q) : Z := (Qnum q / Zpos (Qden q))%Z.
Definition round (q : Q) : Z := floor (q + (1 # 2)).

Record ResumeAnalysisInput : Type := {
  jobDescription : str;
  resumeText : str
}.

Record Alignment : Type := {
  a_score : Z;
  a_feedback : str
}.

Record ResumeAnalysisResult : Type := {
  score : Z;
  strengths : list str;
  improvements : list str;
  missingSkills : list str;
  keywordGaps : list str;
  experienceAlignment : Alignment;
  skillsAlignment : Alignment;
  overallFeedback : str;
  actionableRecommendations : list str
}.

Definition techSkills : list str := strs
  ["react"; "angular"; "vue"; "javascript"; "typescript"; "python"; "java";
   "node"; "express"; "mongodb"; "postgresql"; "mysql"; "aws"; "azure";
   "docker"; "kubernetes"; "git"; "ci/cd"; "agile"; "scrum"; "rest";
   "graphql"; "html"; "css"; "sass"; "tailwind"; "bootstrap"; "webpack";
   "babel"; "jest"; "cypress"; "testing"; "leadership"; "management";
   "communication"; "problem-solving"; "teamwork"].

Definition experiencePattern : re := rx "(\d+)\+?\s*(years?|yrs?)".

Definition extractKeywords (text : str) : list str :=
  List.filter (fun skill => includes text skill) techSkills
  ++ matchAll false experiencePattern text.

(** [resumeKeywords.some(r => r.includes(keyword) || keyword.includes(r))] *)
Definition matches (resumeKeywords : list str) (keyword : str) : bool :=
  existsb (fun rKeyword =>
             includes rKeyword keyword || includes keyword rKeyword)
          resumeKeywords.

Definition generateFallbackStrengths (matchedKeywords : list str)
    : list str :=
  match length matchedKeywords with
  | O => [lit "Resume contains relevant professional content"]
  | n =>
      firstn (Nat.min (n + 1) 5)
        [lit "Resume includes " ++ showNat n ++
         lit " relevant technical skills";
         lit "Good keyword alignment with job requirements";
         lit "Professional formatting and structure detected"]
  end.

Definition generateFallbackImprovements (score : Q) : list str :=
  (if Recat.Qltb score 50 then
     strs ["Consider adding more technical skills that match the job requirements";
           "Include specific technologies mentioned in the job description";
           "Add quantifiable achievements and metrics"]
   else if Recat.Qltb score 75 then
     strs ["Fine-tune keyword usage to better match job requirements";
           "Add more specific technical details"]
   else
     strs ["Minor keyword optimizations could improve ATS compatibility"])
  ++ strs ["Use action verbs to describe accomplishments";
           "Ensure consistent formatting throughout the document"].

Definition generateFallbackRecommendations (missingSkills : list str)
    (score : Q) : list str :=
  firstn 5
    ((if Nat.ltb 0 (length missingSkills) then
        [lit "Add these missing skills if you have them: " ++
         join (lit ", ") (firstn 3 missingSkills)]
      else [])
     ++ (if Recat.Qltb score 60 then
           strs ["Consider taking courses or gaining experience in the key technologies listed in the job description";
                 "Restructure your resume to highlight relevant experience first"]
         else [])
     ++ strs ["Use the exact terminology from the job description where applicable";
              "Include a skills section with relevant technologies";
              "Quantify your achievements with specific numbers and metrics"]).

(** [(matched / total) * 100], or 0 for no keyword. *)
Definition keywordMatchRate (matched total : nat) : Q :=
  if Nat.ltb 0 total then
    (inject_Z (Z.of_nat matched) / inject_Z (Z.of_nat total) * 100)%Q
  else 0%Q.

(** [Math.min(Math.max(rate * 0.8, 20), 85)] *)
Definition baseScoreOf (rate : Q) : Q :=
  Qmin (Qmax (rate * (8 # 10)) 20) 85.

Definition performFallbackAnalysis (input : ResumeAnalysisInput)
    : ResumeAnalysisResult :=
  let jobDesc := toLowerCase (jobDescription input) in
  let resume := toLowerCase (resumeText input) in
  let jobKeywords := extractKeywords jobDesc in
  let resumeKeywords := extractKeywords resume in
  let matchedKeywords := List.filter (matches resumeKeywords) jobKeywords in
  let rate := keywordMatchRate (length matchedKeywords) (length jobKeywords) in
  let baseScore := baseScoreOf rate in
  let missing :=
    firstn 10
      (List.filter (fun keyword => negb (matches resumeKeywords keyword))
                   jobKeywords) in
  {| score := round baseScore;
     strengths := generateFallbackStrengths matchedKeywords;
     improvements := generateFallbackImprovements baseScore;
     missingSkills := missing;
     keywordGaps := firstn 5 missing;
     experienceAlignment :=
       {| a_score := round (baseScore * (9 # 10));
          a_feedback :=
            lit "Basic pattern analysis completed. For detailed experience analysis, AI service is required." |};
     skillsAlignment :=
       {| a_score := round (baseScore * (11 # 10));
          a_feedback :=
            lit "Found " ++ showNat (length matchedKeywords) ++
            lit " matching keywords out of " ++
            showNat (length jobKeywords) ++ lit " job requirements." |};
     overallFeedback :=
       lit "Pattern-based analysis complete. Resume matches " ++
       showZ (round rate) ++
       lit "% of key job requirements. For detailed AI analysis, please try again when quota resets.";
     actionableRecommendations :=
       generateFallbackRecommendations missing baseScore |}.

Section Service.

(** The remote model: the prompt built from the input is sent and the
    reply text comes back, or the call throws an error with a message. *)
Variable generateContent : ResumeAnalysisInput -> result str.

(** [parseResumeAnalysisResponse], which catches its own errors and always
    returns a result. *)
Variable parseResumeAnalysisResponse : str -> ResumeAnalysisResult.

Record service : Type := {
  genAI : bool;
  isInitialized : bool
}.

(** The constructor, from [GOOGLE_GEMINI_API_KEY || GEMINI_API_KEY]. *)
Definition newService (googleKey geminiKey : option str) : service :=
  match orElse googleKey geminiKey with
  | Some k =>
      if nonempty k && negb (str_eqb k AiService.placeholderKey)
      then {| genAI := true; isInitialized := true |}
      else {| genAI := false; isInitialized := false |}
  | None => {| genAI := false; isInitialized := false |}
  end.

Definition isAvailable (svc : service) : bool := isInitialized svc.

Definition invalidKey : str :=
  "Invalid API key. Please check your Gemini API configuration.".

Definition networkError : str :=
  "Network error. Please check your internet connection and try again.".

Definition analyzeResume (svc : service) (input : ResumeAnalysisInput)
    : result ResumeAnalysisResult :=
  if negb (isInitialized svc) || negb (genAI svc) then
    Ok (performFallbackAnalysis input)
  else
    match generateContent input with
    | Ok text => Ok (parseResumeAnalysisResponse text)
    | Throw message =>
        if includes message (lit "429") || includes message (lit "quota")
        then Ok (performFallbackAnalysis input)
        else if includes message (lit "API key") then Throw invalidKey
        else if includes message (lit "network")
                || includes message (lit "fetch")
        then Throw networkError
        else Ok (performFallbackAnalysis input)
    end.

End Service.

End Resume.

(* ===================================================================== *)
(** ** [debugJobImport]: which scanned jobs are new *)
(* ===================================================================== *)

Module Debug.

(** What the function reads of a stored job and of a scanned job: the
    message id, [None] when the property is absent. *)
Record ImportReport : Type := {
  totalFound : nat;
  newJobs : nat;
  duplicates : nat;
  expectedNewWithFlag : nat
}.

(** [new Set(existingJobs.filter(j => j.emailMessageId).map(...))] *)
Definition existingEmailMessageIds (existingJobs : list (option str))
    : gset str :=
  list_to_set
    (omap (fun o => if truthy o then o else None) existingJobs).

(** [existingEmailMessageIds.has(job.messageId)]: an absent id is in no
    set of strings. *)
Definition has (ids : gset str) (messageId : option str) : bool :=
  match messageId with
  | Some s => bool_decide (s ∈ ids)
  | None => false
  end.

Definition debugJobImport (jobApplications existingJobs : list (option str))
    : ImportReport :=
  let ids := existingEmailMessageIds existingJobs in
  let newJobs := List.filter (fun m => negb (has ids m)) jobApplications in
  let duplicateJobs := List.filter (fun m => has ids m) jobApplications in
  {| totalFound := length jobApplications;
     newJobs := length newJobs;
     duplicates := length duplicateJobs;
     expectedNewWithFlag := length newJobs |}.

End Debug.

(* ===================================================================== *)
(** ** The recategorization route: analysis with the AI service *)
(* ===================================================================== *)

Module Server.

(** The analysis of the route; [reasoning] is optional there. *)
Record JobAnalysis : Type := {
  newStatus : Status;
  newCompany : str;
  newJobTitle : str;
  confidence : Q;
  method : Method;
  reasoning : option str
}.

(** [a || b] for a possibly-null string and a string. *)
Definition orString (a : option str) (b : str) : str :=
  match a with
  | Some s => if nonempty s then s else b
  | None => b
  end.

(** The e-mail data sent to the service for a stored record. *)
Definition emailDataOf (job : Recat.JobData) : AiService.EmailData :=
  {| AiService.subject := default [] (Recat.emailSubject job);
     AiService.from := default [] (Recat.emailFrom job);
     AiService.content :=
       lit "Company: " ++ Recat.companyName job ++ lit ", Position: " ++
       Recat.jobTitle job ++ lit ". Subject: " ++
       default [] (Recat.emailSubject job) |}.

Definition patternAnalysis (job : Recat.JobData) : JobAnalysis :=
  let enhancedStatus := Recat.analyzeJobWithPatterns job in
  {| newStatus := Recat.p_status enhancedStatus;
     newCompany :=
       Recat.orStr (Recat.p_company enhancedStatus) (Recat.companyName job);
     newJobTitle :=
       Recat.orStr (Recat.p_jobTitle enhancedStatus) (Recat.jobTitle job);
     confidence := Recat.p_confidence enhancedStatus;
     method := regex;
     reasoning := Some (Recat.p_reasoning enhancedStatus) |}.

Section Analysis.

(** [aiEmailAnalysisService.isAvailable()] *)
Variable available : bool.

(** [aiEmailAnalysisService.analyzeEmail]: the validated reply, with its
    [reasoning] property when it has one, or null, or an exception. *)
Variable analyzeEmail :
  AiService.EmailData ->
  result (option (AiService.EmailAnalysisResult * option str)).

Definition analyzeJobWithAI (job : Recat.JobData) : JobAnalysis :=
  if negb (truthy (Recat.emailSubject job))
     && negb (truthy (Recat.emailFrom job)) then
    {| newStatus := Recat.status job;
       newCompany := Recat.companyName job;
       newJobTitle := Recat.jobTitle job;
       confidence := (1 # 10)%Q;
       method := insufficient_data;
       reasoning := Some (lit "No email data available for AI analysis") |}
  else
    let byPatterns := patternAnalysis job in
    if available then
      match analyzeEmail (emailDataOf job) with
      | Ok (Some (aiResult, why)) =>
          if Qle_bool (3 # 10) (AiService.confidence aiResult) then
            {| newStatus := AiService.status aiResult;
               newCompany :=
                 orString (AiService.company aiResult)
                          (Recat.companyName job);
               newJobTitle :=
                 orString (AiService.jobTitle aiResult) (Recat.jobTitle job);
               confidence := AiService.confidence aiResult;
               method := ai;
               reasoning := why |}
          else byPatterns
      | Ok None => byPatterns
      | Throw _ => byPatterns
      end
    else byPatterns.

End Analysis.

End Server.

(* ===================================================================== *)
(** ** The resume analysis route *)
(* ===================================================================== *)

Module ResumeRoute.

Inductive response : Type :=
| Success (analysis : Resume.ResumeAnalysisResult) (fallbackUsed : bool)
          (message : str)
| Failure (code : nat) (error : str).



Section Route.

Variable generateContent : Resume.ResumeAnalysisInput -> result str.
Variable parseResumeAnalysisResponse : str -> Resume.ResumeAnalysisResult.
Variable svc : Resume.service.


End Route.






End ResumeRoute.

(* ===================================================================== *)
(** ** Facts about the string primitives *)
(* ===================================================================== *)

Section StringFacts.

Lemma code_inj (a b : ascii) : code a = code b -> a = b.
Proof.
  unfold code. intros H.
  rewrite <- (ascii_N_embedding a), <- (ascii_N_embedding b). now rewrite H.
Qed.

Lemma ascii_eqb_true (a b : ascii) : ascii_eqb a b = true <-> a = b.
Proof.
  unfold ascii_eqb. rewrite N.eqb_eq. split.
  - apply code_inj.
  - now intros ->.
Qed.

Lemma str_eqb_true (a b : str) : str_eqb a b = true <-> a = b.
Proof.
  revert b. induction a as [|x a IH]; intros [|y b]; simpl;
    try (split; (discriminate || reflexivity)).
  rewrite andb_true_iff, ascii_eqb_true, IH. split.
  - now intros [-> ->].
  - now intros [= -> ->].
Qed.

Lemma str_eqb_refl (a : str) : str_eqb a a = true.
Proof. now apply str_eqb_true. Qed.

Lemma startsWith_spec (p s : str) :
  startsWith p s = true <-> exists t, s = p ++ t.
Proof.
  revert s. induction p as [|x p IH]; intros s; simpl.
  - split; [intros _; now exists s | reflexivity].
  - destruct s as [|y s].
    + split; [discriminate | intros [t Ht]; discriminate].
    + rewrite andb_true_iff, ascii_eqb_true, IH. split.
      * intros [-> [t ->]]. now exists t.
      * intros [t [= -> ->]]. split; [reflexivity | now exists t].
Qed.

Lemma includes_spec (s p : str) :
  includes s p = true <-> exists a b, s = a ++ p ++ b.
Proof.
  induction s as [|c s IH]; simpl.
  - rewrite orb_false_r, startsWith_spec. split.
    + intros [t Ht]. exists [], t. exact Ht.
    + intros [a [b H]]. destruct a; simpl in H.
      * now exists b.
      * discriminate.
  - rewrite orb_true_iff, startsWith_spec, IH. split.
    + intros [[t Ht] | [a [b H]]].
      * exists [], t. exact Ht.
      * exists (c :: a), b. simpl. now rewrite H.
    + intros [a [b H]]. destruct a as [|x a]; simpl in H.
      * left. now exists b.
      * right. injection H as _ H. now exists a, b.
Qed.

Lemma toLowerCase_app (a b : str) :
  toLowerCase (a ++ b) = toLowerCase a ++ toLowerCase b.
Proof. apply map_app. Qed.

(** Letter case does not hide a phrase from a search in lower case. *)
Lemma includes_lower (s m : str) :
  includes s m = true ->
  includes (toLowerCase s) (toLowerCase m) = true.
Proof.
  rewrite !includes_spec. intros [a [b ->]].
  exists (toLowerCase a), (toLowerCase b). now rewrite !toLowerCase_app.
Qed.

Lemma containsPhrase_includes (content : str) (phrase : string) :
  Spec.containsPhrase content phrase ->
  includes (toLowerCase content) (lit phrase) = true.
Proof.
  intros [a [m [b [-> Hm]]]]. apply includes_spec.
  exists (toLowerCase a), (toLowerCase b).
  now rewrite !toLowerCase_app, Hm.
Qed.

Lemma existsb_includes (text : str) (phrases : list str) (phrase : str) :
  In phrase phrases -> includes text phrase = true ->
  existsb (fun p => includes text p) phrases = true.
Proof.
  intros Hin Hinc. apply existsb_exists. now exists phrase.
Qed.

Lemma trimStart_suffix (s : str) : exists a, s = a ++ trimStart s.
Proof.
  induction s as [| c s [a IH]]; cbn.
  - now exists [].
  - destruct (is_space c).
    + exists (c :: a). cbn. now rewrite <- IH.
    + now exists [].
Qed.

Lemma trim_infix (s : str) : exists a b, s = a ++ trim s ++ b.
Proof.
  unfold trim, trimEnd.
  destruct (trimStart_suffix s) as [a Ha].
  destruct (trimStart_suffix (rev (trimStart s))) as [b Hb].
  exists a, (rev b).
  rewrite <- rev_app_distr, <- Hb, rev_involutive. exact Ha.
Qed.

Lemma forallb_trim (P : ascii -> bool) (s : str) :
  forallb P s = true -> forallb P (trim s) = true.
Proof.
  destruct (trim_infix s) as (a & b & H). intros Hs.
  rewrite H, !forallb_app in Hs.
  apply andb_true_iff in Hs. destruct Hs as [_ Hs].
  apply andb_true_iff in Hs. now destruct Hs.
Qed.

Lemma includes_trim (s p : str) :
  includes (toLowerCase (trim s)) p = true ->
  includes (toLowerCase s) p = true.
Proof.
  rewrite !includes_spec. intros (x & y & H).
  destruct (trim_infix s) as (a & b & Hs).
  exists (toLowerCase a ++ x), (y ++ toLowerCase b).
  rewrite Hs at 1. rewrite !toLowerCase_app, H, <- !app_assoc. reflexivity.
Qed.

Lemma lower_upper (c : ascii) : toLowerChar (toUpperChar c) = toLowerChar c.
Proof. destruct c as [[] [] [] [] [] [] [] []]; reflexivity. Qed.

Lemma lower_lower (c : ascii) : toLowerChar (toLowerChar c) = toLowerChar c.
Proof. destruct c as [[] [] [] [] [] [] [] []]; reflexivity. Qed.

Lemma toLowerCase_idem (s : str) :
  toLowerCase (toLowerCase s) = toLowerCase s.
Proof.
  unfold toLowerCase. rewrite map_map. apply map_ext. apply lower_lower.
Qed.

Lemma includes_self (s : str) : includes s s = true.
Proof. apply includes_spec. exists [], []. now rewrite app_nil_r. Qed.

Lemma existsb_false (A : Type) (f : A -> bool) (l : list A) (x : A) :
  existsb f l = false -> In x l -> f x = false.
Proof.
  intros H Hin. destruct (f x) eqn:E; [| reflexivity].
  rewrite <- H. symmetry. apply existsb_exists. now exists x.
Qed.

Lemma trimStart_head (s : str) :
  match trimStart s with
  | c :: _ => is_space c = false
  | [] => True
  end.
Proof.
  induction s as [| c s IH]; cbn; [exact I |].
  destruct (is_space c) eqn:E; [exact IH | exact E].
Qed.

Lemma trimStart_id (s : str) :
  match s with c :: _ => is_space c = false | [] => True end ->
  trimStart s = s.
Proof. destruct s as [| c s]; cbn; [reflexivity |]. now intros ->. Qed.

Lemma trim_idem (s : str) : trim (trim s) = trim s.
Proof.
  unfold trim at 1.
  assert (H1 : trimStart (trim s) = trim s).
  { apply trimStart_id. unfold trim, trimEnd.
    pose proof (trimStart_head s) as Hh.
    destruct (trimStart_suffix (rev (trimStart s))) as [b Hb].
    apply (f_equal (@rev ascii)) in Hb.
    rewrite rev_involutive, rev_app_distr in Hb.
    destruct (rev (trimStart (rev (trimStart s)))) as [| c u];
      [exact I |].
    rewrite Hb in Hh. exact Hh. }
  rewrite H1. unfold trim, trimEnd. rewrite rev_involutive.
  rewrite (trimStart_id (trimStart _)); [reflexivity |].
  apply trimStart_head.
Qed.

End StringFacts.

(* ===================================================================== *)
(** ** Facts about the matcher *)
(* ===================================================================== *)

Section MatcherFacts.

Lemma in_all_ascii (c : ascii) : In c all_ascii.
Proof.
  unfold all_ascii. apply in_map_iff. exists (nat_of_ascii c). split.
  - apply ascii_nat_embedding.
  - apply in_seq. pose proof (nat_ascii_bounded c). lia.
Qed.

Lemma class_within_sound (ci neg : bool) (rs : list (N * N))
    (P : ascii -> bool) (c : ascii) :
  class_within ci neg rs P = true ->
  chr_match ci neg rs c = true -> P c = true.
Proof.
  unfold class_within. rewrite forallb_forall. intros H Hc.
  specialize (H c (in_all_ascii c)). now rewrite Hc in H.
Qed.

Lemma reached_refl (P : ascii -> bool) (s : mstate) : reached P s s.
Proof. exists []. repeat split; simpl; lia. Qed.

Lemma reached_trans (P : ascii -> bool) (s1 s2 s3 : mstate) :
  reached P s1 s2 -> reached P s2 s3 -> reached P s1 s3.
Proof.
  intros (w1 & H1 & Hp1 & Hf1) (w2 & H2 & Hp2 & Hf2).
  exists (w1 ++ w2). rewrite H1, H2, <- app_assoc, length_app, forallb_app, Hf1, Hf2.
  repeat split; lia.
Qed.

Lemma star_loop_reached (P : ascii -> bool)
    (step : (mstate -> option mstate) -> mstate -> option mstate)
    (greedy : bool) (k : mstate -> option mstate) :
  (forall k' s e, step k' s = Some e ->
                  exists s', k' s' = Some e /\ reached P s s') ->
  forall n s e,
    star_loop step greedy k n s = Some e ->
    exists s', k s' = Some e /\ reached P s s'.
Proof.
  intros Hstep. induction n as [|n IH]; intros s e; cbn; [discriminate |].
  assert (Hagain : forall e',
    step (fun s' => if Nat.ltb (pos s) (pos s')
                    then star_loop step greedy k n s' else None) s = Some e' ->
    exists s', k s' = Some e' /\ reached P s s').
  { intros e' H. apply Hstep in H. destruct H as (s1 & H1 & Hr1).
    destruct (Nat.ltb (pos s) (pos s1)); [| discriminate].
    apply IH in H1. destruct H1 as (s2 & H2 & Hr2).
    exists s2. split; [exact H2 | eapply reached_trans; eassumption]. }
  destruct greedy.
  - destruct (step _ s) as [e' |] eqn:E.
    + intros [= <-]. now apply Hagain.
    + intros H. exists s. split; [exact H | apply reached_refl].
  - destruct (k s) as [e' |] eqn:E.
    + intros [= <-]. exists s. split; [exact E | apply reached_refl].
    + apply Hagain.
Qed.

(** A match consumes a stretch of the input, made of characters the
    pattern allows. *)
Lemma rmatch_reached (ci : bool) (P : ascii -> bool) (r : re) :
  consumes_only ci P r = true ->
  forall k s e,
    rmatch ci r k s = Some e ->
    exists s', k s' = Some e /\ reached P s s'.
Proof.
  induction r as [| neg rs | | | r1 IH1 r2 IH2 | r1 IH1 r2 IH2
                  | greedy r1 IH1 | r1 IH1]; cbn [consumes_only rmatch];
    intros Hok k s e.
  - intros H. exists s. split; [exact H | apply reached_refl].
  - destruct (rest s) as [| c t] eqn:Er; [discriminate |].
    destruct (chr_match ci neg rs c) eqn:Ec; [| discriminate].
    intros H. exists (advance s). split; [exact H |].
    exists [c]. cbn. rewrite Er. cbn.
    rewrite (class_within_sound _ _ _ _ _ Hok Ec). repeat split; lia.
  - destruct (Nat.eqb (pos s) 0); [| discriminate].
    intros H. exists s. split; [exact H | apply reached_refl].
  - destruct (rest s); [| discriminate].
    intros H. exists s. split; [exact H | apply reached_refl].
  - apply andb_true_iff in Hok. destruct Hok as [H1 H2].
    intros H. apply (IH1 H1) in H. destruct H as (s1 & H & Hr1).
    apply (IH2 H2) in H. destruct H as (s2 & H & Hr2).
    exists s2. split; [exact H | eapply reached_trans; eassumption].
  - apply andb_true_iff in Hok. destruct Hok as [H1 H2].
    destruct (rmatch ci r1 k s) as [e' |] eqn:E.
    + intros [= <-]. now apply (IH1 H1).
    + apply (IH2 H2).
  - apply star_loop_reached. intros k' s0 e0. apply (IH1 Hok).
  - intros H. apply (IH1 Hok) in H. destruct H as (s1 & H & Hr).
    exists (set_cap s s1). split; [exact H |].
    destruct Hr as (w & Hw & Hp & Hf). exists w. cbn. now repeat split.
Qed.

Lemma consumes_anything (ci : bool) (r : re) :
  consumes_only ci (fun _ => true) r = true.
Proof.
  induction r; cbn [consumes_only]; rewrite ?IHr1, ?IHr2; auto.
  unfold class_within. apply forallb_forall. intros c _.
  now destruct (chr_match _ _ _ _).
Qed.

Lemma star_loop_cap (P : ascii -> bool)
    (step : (mstate -> option mstate) -> mstate -> option mstate)
    (greedy : bool) (k : mstate -> option mstate) :
  (forall k' s e, cap_ok P s -> step k' s = Some e ->
                  exists s', k' s' = Some e /\ cap_ok P s') ->
  forall n s e,
    cap_ok P s ->
    star_loop step greedy k n s = Some e ->
    exists s', k s' = Some e /\ cap_ok P s'.
Proof.
  intros Hstep. induction n as [|n IH]; intros s e Hs; cbn; [discriminate |].
  assert (Hagain : forall e',
    step (fun s' => if Nat.ltb (pos s) (pos s')
                    then star_loop step greedy k n s' else None) s = Some e' ->
    exists s', k s' = Some e' /\ cap_ok P s').
  { intros e' H. apply Hstep in H; [| exact Hs].
    destruct H as (s1 & H1 & Hc1).
    destruct (Nat.ltb (pos s) (pos s1)); [| discriminate].
    now apply IH in H1. }
  destruct greedy.
  - destruct (step _ s) as [e' |] eqn:E.
    + intros [= <-]. now apply Hagain.
    + intros H. now exists s.
  - destruct (k s) as [e' |] eqn:E.
    + intros [= <-]. now exists s.
    + apply Hagain.
Qed.

Lemma rmatch_cap (ci : bool) (P : ascii -> bool) (r : re) :
  captures_only ci P r = true ->
  forall k s e,
    cap_ok P s ->
    rmatch ci r k s = Some e ->
    exists s', k s' = Some e /\ cap_ok P s'.
Proof.
  induction r as [| neg rs | | | r1 IH1 r2 IH2 | r1 IH1 r2 IH2
                  | greedy r1 IH1 | r1 IH1]; cbn [captures_only rmatch];
    intros Hok k s e Hs.
  - intros H. now exists s.
  - destruct (rest s) as [| c t]; [discriminate |].
    destruct (chr_match ci neg rs c); [| discriminate].
    intros H. now exists (advance s).
  - destruct (Nat.eqb (pos s) 0); [| discriminate].
    intros H. now exists s.
  - destruct (rest s); [| discriminate].
    intros H. now exists s.
  - apply andb_true_iff in Hok. destruct Hok as [H1 H2].
    intros H. apply (IH1 H1) in H; [| exact Hs]. destruct H as (s1 & H & Hc1).
    now apply (IH2 H2) in H.
  - apply andb_true_iff in Hok. destruct Hok as [H1 H2].
    destruct (rmatch ci r1 k s) as [e' |] eqn:E.
    + intros [= <-]. now apply (IH1 H1) in E.
    + now apply (IH2 H2).
  - apply star_loop_cap; [| exact Hs]. intros k' s0 e0. apply (IH1 Hok).
  - intros H. apply (rmatch_reached ci P r1 Hok) in H.
    destruct H as (s1 & H & (w & Hw & Hp & Hf)).
    exists (set_cap s s1). split; [exact H |].
    unfold cap_ok, set_cap. cbn.
    replace (pos s1 - pos s) with (length w) by lia.
    rewrite Hw, firstn_app, Nat.sub_diag, firstn_all. cbn.
    now rewrite app_nil_r.
Qed.

Lemma search_cap (ci : bool) (P : ascii -> bool) (r : re) :
  captures_only ci P r = true ->
  forall s p q e,
    search ci r p s = Some (q, e) -> cap_ok P e.
Proof.
  intros Hok. induction s as [| c s IH]; intros p q e; cbn.
  - destruct (rmatch ci r Some _) as [e' |] eqn:E; [| discriminate].
    intros [= <- <-]. apply (rmatch_cap ci P r Hok) in E; [| exact I].
    destruct E as (s' & [= ->] & H). exact H.
  - destruct (rmatch ci r Some _) as [e' |] eqn:E.
    + intros [= <- <-]. apply (rmatch_cap ci P r Hok) in E; [| exact I].
      destruct E as (s' & [= ->] & H). exact H.
    + apply IH.
Qed.

(** What [match1] captures is made of characters the group allows. *)
Lemma match1_alphabet (ci : bool) (P : ascii -> bool) (r : re) (s u : str) :
  captures_only ci P r = true ->
  match1 ci r s = Some (Some u) -> forallb P u = true.
Proof.
  intros Hok. unfold match1.
  destruct (search ci r 0 s) as [[q e] |] eqn:E; [| discriminate].
  intros [= Hc]. apply (search_cap ci P r Hok) in E.
  unfold cap_ok in E. now rewrite Hc in E.
Qed.

End MatcherFacts.

(* ===================================================================== *)
(** ** Status classifier *)
(* ===================================================================== *)

Section StatusClassifier.

Import Route.

Lemma determineStatus_refines (content : str) :
  determineStatus content = Spec.classify content.
Proof.
  unfold determineStatus, Spec.classify, Spec.priorityTable.
  generalize (toLowerCase content) rejectionIndicators offerIndicators
    interviewIndicators appliedIndicators.
  intros text l1 l2 l3 l4. cbn [Spec.firstMatch].
  destruct (existsb _ l1); [reflexivity|].
  destruct (existsb _ l2); [reflexivity|].
  destruct (existsb _ l3); [reflexivity|].
  destruct (existsb _ l4); reflexivity.
Qed.

Lemma firstMatch_not_ghosted (text : str) :
  Spec.firstMatch Spec.priorityTable text <> Some ghosted.
Proof.
  unfold Spec.priorityTable.
  generalize rejectionIndicators offerIndicators interviewIndicators
    appliedIndicators.
  intros l1 l2 l3 l4. cbn [Spec.firstMatch].
  destruct (existsb _ l1); [discriminate|].
  destruct (existsb _ l2); [discriminate|].
  destruct (existsb _ l3); [discriminate|].
  destruct (existsb _ l4); discriminate.
Qed.

(** C2. The status classifier checks rejected, offered, interviewing,
    applied in that order and the first category with a substring match
    wins, the default being applied; it never answers ghosted; content
    with both "unfortunately" and "schedule a call" is rejected. *)
Theorem determineStatus_priority (content : str) :
  determineStatus content = Spec.classify content /\
  determineStatus content <> ghosted /\
  (includes content "unfortunately" = true ->
   includes content "schedule a call" = true ->
   determineStatus content = rejected).
Proof.
  split; [apply determineStatus_refines | split].
  - rewrite determineStatus_refines. unfold Spec.classify.
    pose proof (firstMatch_not_ghosted (toLowerCase content)) as H.
    destruct (Spec.firstMatch _ _) as [[]|]; simpl; congruence.
  - intros Hrej _. unfold determineStatus.
    apply includes_lower in Hrej.
    change (toLowerCase "unfortunately") with (lit "unfortunately") in Hrej.
    rewrite (existsb_includes _ rejectionIndicators (lit "unfortunately"));
      [reflexivity | | exact Hrej].
    unfold rejectionIndicators, strs. apply in_map.
    repeat (first [left; reflexivity | right]).
Qed.

Lemma determineStatus_priority_witness :
  includes "Unfortunately not; unfortunately we cannot schedule a call"
           "unfortunately" = true /\
  includes "Unfortunately not; unfortunately we cannot schedule a call"
           "schedule a call" = true /\
  determineStatus
    "Unfortunately not; unfortunately we cannot schedule a call" = rejected.
Proof.
  split; [reflexivity | split; [reflexivity |]].
  apply (determineStatus_priority
           "Unfortunately not; unfortunately we cannot schedule a call");
    reflexivity.
Defined.

End StatusClassifier.

(* ===================================================================== *)
(** ** Noise filter *)
(* ===================================================================== *)

Section NoiseFilter.

Import Route.

Lemma confirmation_phrase (content : str) :
  Spec.containsPhrase content "thank you for applying" \/
  Spec.containsPhrase content "thanks for applying" \/
  Spec.containsPhrase content "application received" \/
  Spec.containsPhrase content "we have received your application" \/
  Spec.containsPhrase content "your application has been received" \/
  (Spec.containsPhrase content "thank you for your interest" /\
   (Spec.containsPhrase content "application" \/
    Spec.containsPhrase content "position" \/
    Spec.containsPhrase content "role")) ->
  isApplicationConfirmation (toLowerCase content) = true.
Proof.
  unfold isApplicationConfirmation.
  intros [H | [H | [H | [H | [H | [H [H' | [H' | H']]]]]]]];
    apply containsPhrase_includes in H;
    try apply containsPhrase_includes in H';
    rewrite H; try rewrite H';
    rewrite ?orb_true_r, ?orb_true_l; reflexivity.
Qed.

(** C3. Content with an application-confirmation phrase is never a
    job-board notification, whatever the sender and the subject. *)
Theorem confirmation_is_not_noise (content from subject : str) :
  Spec.containsPhrase content "thank you for applying" \/
  Spec.containsPhrase content "thanks for applying" \/
  Spec.containsPhrase content "application received" \/
  Spec.containsPhrase content "we have received your application" \/
  Spec.containsPhrase content "your application has been received" \/
  (Spec.containsPhrase content "thank you for your interest" /\
   (Spec.containsPhrase content "application" \/
    Spec.containsPhrase content "position" \/
    Spec.containsPhrase content "role")) ->
  isJobBoardNotification content from subject = false.
Proof.
  intros H. unfold isJobBoardNotification.
  now rewrite (confirmation_phrase content H).
Qed.

Lemma confirmation_is_not_noise_witness :
  existsb (fun pattern =>
             includes (toLowerCase "notifications@indeed.com") pattern)
          senderPatterns = true /\
  isJobBoardNotification
    "Thank you for applying to the Analyst position. Unsubscribe here."
    "notifications@indeed.com" "Job alert: weekly digest" = false.
Proof.
  split; [reflexivity |].
  apply (confirmation_is_not_noise
           "Thank you for applying to the Analyst position. Unsubscribe here."
           "notifications@indeed.com" "Job alert: weekly digest").
  left. exists [], (lit "Thank you for applying"),
    (lit " to the Analyst position. Unsubscribe here.").
  split; reflexivity.
Defined.

End NoiseFilter.

(* ===================================================================== *)
(** ** Batch recategorization *)
(* ===================================================================== *)

Section Recategorization.

Import Recat.

Variable clock : nat -> Z.
Variable updateDoc : str -> gmap string value -> result unit.

Lemma analyzeJobWithAI_method (job : JobData) :
  method (fst (analyzeJobWithAI job)) = regex \/
  method (fst (analyzeJobWithAI job)) = insufficient_data.
Proof.
  unfold analyzeJobWithAI.
  destruct (negb (truthy (emailSubject job)) && negb (truthy (emailFrom job)));
    simpl; auto.
Qed.

(** The analysis keeps the stored company and job title. *)
Lemma analyzeJobWithAI_keeps (job : JobData) :
  newCompany (fst (analyzeJobWithAI job)) = companyName job /\
  newJobTitle (fst (analyzeJobWithAI job)) = jobTitle job.
Proof.
  unfold analyzeJobWithAI.
  destruct (negb (truthy (emailSubject job)) && negb (truthy (emailFrom job)));
    simpl; [auto|].
  unfold analyzeJobWithPatterns, orStr.
  repeat match goal with
         | |- context [if ?b then _ else _] => destruct b
         end; simpl; auto.
Qed.

(** What the analysing branch of one iteration adds to the trace, and
    what it does to the counters. *)
Lemma analyzeAndUpdate_shape (mode : Mode) (job : JobData) (st : loopState) :
  let st' := fst (analyzeAndUpdate clock updateDoc mode job st) in
  aiAnalyzed (res st') = aiAnalyzed (res st) /\
  analyzedJobs (res st') = S (analyzedJobs (res st)) /\
  exists logs writes,
    trace st' =
      trace st ++
      LogAnalyzing (companyName job) (jobTitle job) (status job) :: logs ++
      writes /\
    logs = snd (analyzeJobWithAI job) /\
    (writes = [] \/
     exists now sc cc tc,
       writes = [UpdateDoc (id job)
                   (buildUpdates now job (fst (analyzeJobWithAI job))
                                 sc cc tc)]).
Proof.
  unfold analyzeAndUpdate.
  pose proof (analyzeJobWithAI_method job) as Hm.
  destruct (analyzeJobWithAI job) as [analysis logs]. simpl in Hm.
  cbn [fst snd].
  set (sc := negb (status_eqb (newStatus analysis) (status job))).
  set (cc := nonempty (newCompany analysis) &&
             negb (str_eqb (newCompany analysis) (companyName job))).
  set (tc := nonempty (newJobTitle analysis) &&
             negb (str_eqb (newJobTitle analysis) (jobTitle job))).
  assert (Hmethod : method analysis <> ai) by (destruct Hm as [-> | ->]; discriminate).
  destruct (method analysis) eqn:Em; [congruence | |];
    (destruct (sc || cc || tc);
     [destruct mode;
      [ destruct sc; cbn; repeat split; auto;
        exists logs, []; rewrite app_nil_r, <- app_assoc; auto
      | cbn [tick]; cbv zeta; cbn [fst snd];
        match goal with
        | |- context [updateDoc ?i ?u] => destruct (updateDoc i u)
        end;
        destruct sc; cbn; repeat split; auto;
        exists logs; eexists; rewrite <- !app_assoc; cbn;
        (split; [reflexivity | split; [reflexivity | right; eauto]]) ]
     | cbn; repeat split; auto;
       exists logs, []; rewrite app_nil_r, <- app_assoc; auto ]).
Qed.

Lemma buildUpdates_dom (now : Z) (job : JobData) (analysis : JobAnalysis)
    (sc cc tc : bool) :
  dom (buildUpdates now job analysis sc cc tc) ⊆ Spec.writtenFields.
Proof.
  unfold buildUpdates, Spec.writtenFields, Spec.namedFields.
  destruct sc, cc, tc, (nonempty (reasoning analysis));
    rewrite ?dom_insert_L, dom_empty_L; set_solver.
Qed.

Lemma processJob_shape (mode : Mode) (forceUpdate : bool) (job : JobData)
    (st : loopState) :
  let st' := processJob clock updateDoc mode forceUpdate job st in
  aiAnalyzed (res st') = aiAnalyzed (res st) /\
  exists evs,
    trace st' = trace st ++ evs /\
    Forall (Spec.eventWithin Spec.writtenFields) evs.
Proof.
  assert (Hlogs : forall j, Forall (Spec.eventWithin Spec.writtenFields)
                              (snd (analyzeJobWithAI j))).
  { intros j. unfold analyzeJobWithAI.
    destruct (_ && _); simpl; repeat constructor. }
  assert (Hgo : forall s0,
    let st' :=
      match analyzeAndUpdate clock updateDoc mode job s0 with
      | (s1, Ok _) => s1
      | (s1, Throw e) =>
          onResult (pushError (lit "Failed to process job " ++ id job ++
                               lit ": " ++ e)) s1
      end in
    aiAnalyzed (res st') = aiAnalyzed (res s0) /\
    exists evs, trace st' = trace s0 ++ evs /\
                Forall (Spec.eventWithin Spec.writtenFields) evs).
  { intros s0.
    pose proof (analyzeAndUpdate_shape mode job s0) as H. cbv zeta in H.
    destruct (analyzeAndUpdate clock updateDoc mode job s0) as [s1 [u | e]];
      cbn [fst] in H; destruct H as (Hai & _ & logs & writes & Htr & -> & Hw);
      cbn; (split; [exact Hai |]);
      (eexists; split; [exact Htr |]);
      (constructor; [exact I |]); apply Forall_app; (split; [apply Hlogs |]);
      (destruct Hw as [-> | (now & sc & cc & tc & ->)];
       [constructor | repeat constructor; apply buildUpdates_dom]). }
  unfold processJob.
  destruct forceUpdate; cbn [negb].
  - apply Hgo.
  - destruct (lastAnalyzed job) as [t|].
    + cbn [tick]. destruct (analyzedRecently _ t).
      * cbn. split; [reflexivity |].
        eexists; split; [reflexivity | repeat constructor].
      * specialize (Hgo {| res := res st; trace := trace st;
                           reads := S (reads st) |}).
        exact Hgo.
    + apply Hgo.
Qed.

Lemma runLoop_shape (mode : Mode) (forceUpdate : bool) (jobs : list JobData)
    (st : loopState) :
  let st' := runLoop clock updateDoc mode forceUpdate jobs st in
  aiAnalyzed (res st') = aiAnalyzed (res st) /\
  exists evs,
    trace st' = trace st ++ evs /\
    Forall (Spec.eventWithin Spec.writtenFields) evs.
Proof.
  revert st. induction jobs as [|job jobs IH]; intros st; cbn.
  - split; [reflexivity |]. exists []. now rewrite app_nil_r.
  - destruct (IH (processJob clock updateDoc mode forceUpdate job st))
      as (Hai & evs2 & Htr2 & Hok2).
    destruct (processJob_shape mode forceUpdate job st)
      as (Hai1 & evs1 & Htr1 & Hok1).
    split; [unfold runLoop in Hai; rewrite Hai; exact Hai1 |].
    exists (evs1 ++ evs2). split.
    + unfold runLoop in Htr2. rewrite Htr2, Htr1. now rewrite app_assoc.
    + apply Forall_app. now split.
Qed.

Lemma run_shape (snapshot : result (list JobData)) (mode : Mode)
    (forceUpdate : bool) (r : RecategorizationResult) (tr : list event) :
  runRecategorization clock updateDoc snapshot mode forceUpdate = Ok (r, tr) ->
  aiAnalyzed r = 0 /\ Forall (Spec.eventWithin Spec.writtenFields) tr.
Proof.
  unfold runRecategorization.
  destruct snapshot as [[|job jobs] | e]; [| | discriminate].
  - intros [= <- <-]. split; [reflexivity | constructor].
  - remember (job :: jobs) as js eqn:Ejs.
    destruct (runLoop_shape mode forceUpdate js (initialState (length js)))
      as (Hai & evs & Htr & Hok).
    intros [= <- <-]. split; [exact Hai |]. rewrite Htr. exact Hok.
Qed.


Lemma buildUpdates_reasoning (now : Z) (job : JobData)
    (analysis : JobAnalysis) (sc cc tc : bool) :
  nonempty (reasoning analysis) = true ->
  "analysisReasoning" ∈ dom (buildUpdates now job analysis sc cc tc).
Proof.
  intros H. unfold buildUpdates. rewrite H.
  rewrite dom_insert_L. set_solver.
Qed.

Lemma reasoning_not_named : "analysisReasoning" ∉ Spec.namedFields.
Proof.
  unfold Spec.namedFields.
  rewrite !elem_of_union, !elem_of_singleton. intuition discriminate.
Qed.



(** C9. A record with neither an e-mail subject nor a sender gets the
    [insufficient_data] result carrying its stored status, company and job
    title, and the pattern path is not entered (nothing is logged). *)
Theorem no_email_data_short_circuits (job : JobData) :
  truthy (emailSubject job) = false ->
  truthy (emailFrom job) = false ->
  analyzeJobWithAI job =
    ({| newStatus := status job;
        newCompany := companyName job;
        newJobTitle := jobTitle job;
        confidence := (1 # 10)%Q;
        method := insufficient_data;
        reasoning := lit "No email data available for analysis" |}, []).
Proof.
  intros Hs Hf. unfold analyzeJobWithAI. now rewrite Hs, Hf.
Qed.

(** C10. The batch analysis never answers with method [ai], and the
    [aiAnalyzed] counter of every result of a run is 0. *)
Theorem batch_never_uses_ai :
  (forall job : JobData,
     method (fst (analyzeJobWithAI job)) = regex \/
     method (fst (analyzeJobWithAI job)) = insufficient_data) /\
  (forall (snapshot : result (list JobData)) (mode : Mode)
          (forceUpdate : bool) (r : RecategorizationResult)
          (tr : list event),
     runRecategorization clock updateDoc snapshot mode forceUpdate
       = Ok (r, tr) ->
     aiAnalyzed r = 0).
Proof.
  split.
  - apply analyzeJobWithAI_method.
  - intros snapshot mode forceUpdate r tr H.
    exact (proj1 (run_shape snapshot mode forceUpdate r tr H)).
Qed.

(** C7, as amended. Every update issued by a run writes fields among
    status, companyName, jobTitle, lastAnalyzed, analysisMethod,
    confidence and analysisReasoning. *)
Theorem updates_write_listed_fields (snapshot : result (list JobData))
    (mode : Mode) (forceUpdate : bool) (r : RecategorizationResult)
    (tr : list event) :
  runRecategorization clock updateDoc snapshot mode forceUpdate = Ok (r, tr) ->
  Spec.writesOnly Spec.writtenFields tr.
Proof.
  intros H doc updates Hin.
  destruct (run_shape snapshot mode forceUpdate r tr H) as [_ Hok].
  rewrite List.Forall_forall in Hok. exact (Hok _ Hin).
Qed.

End Recategorization.

Section RecategorizationExamples.

Import Recat Examples.


Lemma no_email_data_short_circuits_witness :
  truthy (emailSubject manualJob) = false /\
  truthy (emailFrom manualJob) = false /\
  method (fst (analyzeJobWithAI manualJob)) = insufficient_data /\
  newStatus (fst (analyzeJobWithAI manualJob)) = interviewing /\
  snd (analyzeJobWithAI manualJob) = [].
Proof.
  split; [reflexivity | split; [reflexivity |]].
  rewrite (no_email_data_short_circuits manualJob); repeat split; reflexivity.
Defined.

Lemma batch_never_uses_ai_witness :
  exists r tr,
    runRecategorization twoDaysLater acceptAll
      (Ok [rejectedJob; manualJob]) analyze true = Ok (r, tr) /\
    analyzedJobs r = 2 /\ aiAnalyzed r = 0.
Proof.
  eexists; eexists. split; [reflexivity |]. split; [reflexivity |].
  apply (proj2 (batch_never_uses_ai twoDaysLater acceptAll)
           (Ok [rejectedJob; manualJob]) analyze true _ _ eq_refl).
Defined.

Lemma updates_write_listed_fields_witness :
  exists r tr,
    runRecategorization twoDaysLater acceptAll
      (Ok [rejectedJob]) update false = Ok (r, tr) /\
    updatedJobs r = 1 /\
    Spec.writesOnly Spec.writtenFields tr.
Proof.
  eexists; eexists. split; [reflexivity |]. split; [reflexivity |].
  apply (updates_write_listed_fields twoDaysLater acceptAll
           (Ok [rejectedJob]) update false _ _ eq_refl).
Defined.

(** C7, as stated, fails: the update of a re-classified record also
    writes analysisReasoning. *)
Lemma updates_write_reasoning :
  ~ (forall (clock : nat -> Z)
            (updateDoc : str -> gmap string value -> result unit)
            (snapshot : result (list JobData)) (mode : Mode)
            (forceUpdate : bool) (r : RecategorizationResult)
            (tr : list event),
       runRecategorization clock updateDoc snapshot mode forceUpdate
         = Ok (r, tr) ->
       Spec.writesOnly Spec.namedFields tr).
Proof.
  intros H.
  specialize (H twoDaysLater acceptAll (Ok [rejectedJob]) update false
                _ _ eq_refl).
  specialize (H (id rejectedJob)
                (buildUpdates (twoDaysLater 0) rejectedJob
                   (fst (analyzeJobWithAI rejectedJob)) true false false)).
  apply reasoning_not_named. apply H; [| now apply buildUpdates_reasoning].
  right. right. left. reflexivity.
Qed.

End RecategorizationExamples.

(* ===================================================================== *)
(** ** Hybrid classifier and confidence scorer *)
(* ===================================================================== *)

Section Hybrid.

Import AiService Route.

Variable available : bool.
Variable analyze : EmailData -> result (option EmailAnalysisResult).


(** The hybrid classifier returns on every input. *)
Lemma determineStatusWithAI_returns (content subject from : str) :
  exists a,
    determineStatusWithAI available analyze content subject from = Ok a.
Proof.
  unfold determineStatusWithAI. destruct available; [| cbn; eauto].
  destruct (analyze _) as [[r |] | e]; cbn; eauto.
  destruct (Qle_bool _ _); cbn; eauto.
Qed.

Lemma regexAnalysis_method (content subject from : str) :
  a_method (regexAnalysis content subject from) = regex.
Proof. reflexivity. Qed.

End Hybrid.

Section HybridClaims.

Import AiService Route.








End HybridClaims.

(* ===================================================================== *)
(** ** Company extractor *)
(* ===================================================================== *)

Section CompanyExtractor.

Import Route.

Lemma replaceAll_class_id (ci neg : bool) (rs : list (N * N)) (rep s : str) :
  forallb (fun c => negb (chr_match ci neg rs c)) s = true ->
  replaceAll ci (Chr neg rs) rep s = s.
Proof.
  intros H. unfold replaceAll.
  enough (Hgo : forall p, replaceAll_go ci (Chr neg rs) rep s 0 p = s)
    by apply Hgo.
  induction s as [| c s IH]; intros p; cbn.
  - reflexivity.
  - cbn in H. apply andb_true_iff in H. destruct H as [Hc Hs].
    apply negb_true_iff in Hc. rewrite Hc. f_equal. now apply IH.
Qed.

Lemma lower_capitalizeWord (w : str) :
  toLowerCase (capitalizeWord w) = toLowerCase w.
Proof.
  destruct w as [| c w]; cbn; [reflexivity |].
  now rewrite lower_upper, toLowerCase_idem.
Qed.

Lemma splitBy_cons (is_sep : ascii -> bool) (s : str) :
  exists w ws, splitBy is_sep s = w :: ws.
Proof.
  induction s as [| c s (w & ws & IH)]; cbn; [now eauto |].
  destruct (is_sep c); [now eauto |]. rewrite IH. eauto.
Qed.

Lemma join_cons (sep w : str) (ws : list str) :
  ws <> [] -> join sep (w :: ws) = w ++ sep ++ join sep ws.
Proof. destruct ws; [congruence | reflexivity]. Qed.

Lemma join_splitChar (sep : ascii) (s : str) :
  join [sep] (splitChar sep s) = s.
Proof.
  unfold splitChar. induction s as [| c s IH]; cbn; [reflexivity |].
  destruct (splitBy_cons (fun c0 => ascii_eqb c0 sep) s) as (w & ws & E).
  destruct (ascii_eqb c sep) eqn:Ec.
  - apply ascii_eqb_true in Ec. subst c.
    rewrite E in *. rewrite join_cons by discriminate.
    cbn [app]. f_equal. exact IH.
  - rewrite E in *. destruct ws as [| w' ws].
    + cbn in *. now rewrite IH.
    + rewrite join_cons by discriminate.
      rewrite join_cons in IH by discriminate.
      cbn [app]. f_equal. exact IH.
Qed.

Lemma lower_join_capitalize (sep : str) (l : list str) :
  toLowerCase (join sep (map capitalizeWord l)) = toLowerCase (join sep l).
Proof.
  induction l as [| w ws IH]; [reflexivity |].
  destruct ws as [| w' ws].
  - cbn. apply lower_capitalizeWord.
  - cbn [map] in *.
    rewrite (join_cons sep (capitalizeWord w)) by discriminate.
    rewrite (join_cons sep w) by discriminate.
    rewrite !toLowerCase_app, lower_capitalizeWord. now rewrite IH.
Qed.

Lemma mem_includes (terms : list str) (name : str) :
  (forall term, In term terms -> includes name term = false) ->
  mem name terms = false.
Proof.
  intros H. unfold mem. destruct (existsb _ terms) eqn:E; [| reflexivity].
  apply existsb_exists in E. destruct E as (t & Hin & Ht).
  apply str_eqb_true in Ht. subst t.
  rewrite <- (H name Hin). symmetry. apply includes_self.
Qed.

(** A candidate of the pattern stage contains no generic term. *)
Lemma companyCandidate_not_generic (captured name : str) :
  forallb keptInCompany captured = true ->
  companyCandidate captured = Some name ->
  forall term, In term companyGenericTerms ->
               includes (toLowerCase name) term = false.
Proof.
  intros Hkept. unfold companyCandidate.
  destruct (existsb _ companyGenericTerms) eqn:Egen; [discriminate |].
  cbn [negb andb].
  destruct (lengthWithin 2 50 (trim captured)); [| discriminate].
  change (rx "[^\w\s&.\-']")
    with (Chr true [(48, 57); (65, 90); (95, 95); (97, 122); (9, 13);
                    (32, 32); (38, 38); (46, 46); (45, 45); (39, 39)]%N).
  rewrite replaceAll_class_id.
  2:{ apply forallb_trim in Hkept. exact Hkept. }
  destruct (_ && _ && _); [| discriminate].
  intros [= <-] term Hin.
  change (lit " ") with [" "%char].
  rewrite lower_join_capitalize, join_splitChar.
  destruct (includes (toLowerCase (trim (trim captured))) term) eqn:E;
    [| reflexivity].
  apply includes_trim in E.
  pose proof (existsb_false _ _ _ term Egen Hin) as Hf. cbn beta in Hf.
  apply orb_false_iff in Hf. destruct Hf as [Hf _]. congruence.
Qed.

Lemma companyPatterns_capture :
  forallb (captures_only true keptInCompany) companyPatterns = true.
Proof. vm_compute. reflexivity. Qed.

Lemma companyFromPatterns_not_generic (patterns : list re)
    (fullText name : str) :
  forallb (captures_only true keptInCompany) patterns = true ->
  companyFromPatterns patterns fullText = Some name ->
  forall term, In term companyGenericTerms ->
               includes (toLowerCase name) term = false.
Proof.
  induction patterns as [| pattern more IH]; cbn; [discriminate |].
  intros Hok. apply andb_true_iff in Hok. destruct Hok as [Hp Hmore].
  destruct (match1 true pattern fullText) as [[captured |] |] eqn:Em;
    try now apply IH.
  destruct (nonempty captured); [| now apply IH].
  destruct (companyCandidate captured) as [c |] eqn:Ec; [| now apply IH].
  intros [= <-].
  apply (companyCandidate_not_generic captured c); [| exact Ec].
  eapply match1_alphabet; eassumption.
Qed.

Lemma companyFromDisplayName_not_generic (from name : str) :
  companyFromDisplayName from = Some name ->
  forall term, In term fromNameGenericTerms ->
               includes (toLowerCase name) term = false.
Proof.
  unfold companyFromDisplayName.
  destruct (match1 false _ from) as [[captured |] |]; try discriminate.
  destruct (_ && _); [| discriminate].
  destruct (existsb _ fromNameGenericTerms) eqn:Egen; [discriminate |].
  intros [= <-] term Hin.
  exact (existsb_false _ _ _ term Egen Hin).
Qed.

Lemma companyFromDomain_checked (from name : str) :
  companyFromDomain from = Some name ->
  exists d,
    match1 false (rx "@([^.]+)\.") from = Some (Some d) /\
    mem (toLowerCase d) excludedDomains = false.
Proof.
  unfold companyFromDomain.
  destruct (match1 false _ from) as [[d |] |]; try discriminate.
  destruct (mem (toLowerCase d) excludedDomains) eqn:E; [discriminate |].
  intros _. now exists d.
Qed.

(** C6, as amended. Each stage of the company extractor filters with its
    own list.  A value taken from the body or subject patterns contains
    no term of that stage's generic-term list, in any letter case, and so
    equals none; a value taken from the From display name contains no
    term of that stage's list; a value derived from the sender domain
    comes from a domain token that is not an excluded domain. *)
Theorem extractCompany_stage_filters (from body subject name : str) :
  extractCompany from body subject = Some name ->
  (companyFromDomain from = Some name /\
   exists d,
     match1 false (rx "@([^.]+)\.") from = Some (Some d) /\
     mem (toLowerCase d) excludedDomains = false) \/
  (companyFromDomain from = None /\
   companyFromPatterns companyPatterns (subject ++ lit " " ++ body)
     = Some name /\
   (forall term, In term companyGenericTerms ->
                 includes (toLowerCase name) term = false) /\
   Spec.isListed companyGenericTerms name = false) \/
  (companyFromDomain from = None /\
   companyFromPatterns companyPatterns (subject ++ lit " " ++ body) = None /\
   companyFromDisplayName from = Some name /\
   (forall term, In term fromNameGenericTerms ->
                 includes (toLowerCase name) term = false) /\
   Spec.isListed fromNameGenericTerms name = false).
Proof.
  unfold extractCompany.
  destruct (companyFromDomain from) as [c |] eqn:E1.
  - intros [= ->]. left. split; [reflexivity |].
    now apply (companyFromDomain_checked from name).
  - destruct (companyFromPatterns companyPatterns _) as [c |] eqn:E2.
    + intros [= ->]. right. left.
      pose proof (companyFromPatterns_not_generic _ _ _
                    companyPatterns_capture E2) as H.
      repeat split; auto. now apply mem_includes.
    + intros E3. right. right.
      pose proof (companyFromDisplayName_not_generic _ _ E3) as H.
      repeat split; auto. now apply mem_includes.
Qed.

Lemma extractCompany_stage_filters_witness :
  extractCompany "x@gmail.com" "I work at Acme Rockets and we like you"
                 "hello" = Some (lit "Acme Rockets") /\
  Spec.isListed companyGenericTerms "Acme Rockets" = false.
Proof.
  split; [vm_compute; reflexivity |].
  destruct (extractCompany_stage_filters
              "x@gmail.com" "I work at Acme Rockets and we like you"
              "hello" "Acme Rockets") as [H | [H | H]].
  - vm_compute. reflexivity.
  - destruct H as [H _]. vm_compute in H. discriminate.
  - destruct H as (_ & _ & _ & H). exact H.
  - destruct H as (_ & H & _). vm_compute in H. discriminate.
Defined.

(** C6, as stated, fails at the sender-domain stage, which does not
    consult the generic-term lists: "Team" and "Hr" are returned. *)
Lemma extractCompany_returns_generic :
  ~ (forall from body subject name : str,
       extractCompany from body subject = Some name ->
       Spec.isListed companyGenericTerms name = false).
Proof.
  intros H.
  specialize (H (lit "noreply@team.com") [] [] (lit "Team")).
  vm_compute in H. specialize (H eq_refl). discriminate.
Qed.

End CompanyExtractor.

(* ===================================================================== *)
(** ** Text normalizer *)
(* ===================================================================== *)

Section Normalizer.

Import Route.

(** A pattern that needs a character the input lacks matches nowhere. *)
Lemma rmatch_needs (ci : bool) (P : ascii -> bool) (r : re) :
  needs ci P r = true ->
  forall k s e, rmatch ci r k s = Some e -> existsb P (rest s) = true.
Proof.
  induction r as [| neg rs | | | r1 IH1 r2 IH2 | r1 IH1 r2 IH2
                  | greedy r1 IH1 | r1 IH1]; cbn [needs rmatch];
    intros Hn k s e; try discriminate.
  - destruct (rest s) as [| c t]; [discriminate |].
    destruct (chr_match ci neg rs c) eqn:Ec; [| discriminate].
    intros _. cbn. now rewrite (class_within_sound _ _ _ _ _ Hn Ec).
  - apply orb_true_iff in Hn. destruct Hn as [H1 | H2].
    + apply (IH1 H1).
    + intros H.
      apply (rmatch_reached ci (fun _ => true) r1 (consumes_anything ci r1))
        in H.
      destruct H as (s1 & H & (w & Hw & _)).
      apply (IH2 H2) in H. rewrite Hw, existsb_app, H. apply orb_true_r.
  - apply andb_true_iff in Hn. destruct Hn as [H1 H2].
    destruct (rmatch ci r1 k s) eqn:E.
    + intros _. now apply (IH1 H1) in E.
    + apply (IH2 H2).
  - apply (IH1 Hn).
Qed.

Lemma replaceAll_no_match (ci : bool) (P : ascii -> bool) (r : re)
    (rep s : str) :
  needs ci P r = true ->
  existsb P s = false ->
  replaceAll ci r rep s = s.
Proof.
  intros Hn. unfold replaceAll.
  enough (Hgo : forall p, existsb P s = false ->
                          replaceAll_go ci r rep s 0 p = s) by apply Hgo.
  induction s as [| c s IH]; intros p Hs; cbn [replaceAll_go].
  - destruct (rmatch ci r Some _) eqn:E; [| reflexivity].
    apply (rmatch_needs ci P r Hn) in E. cbn in E. discriminate.
  - destruct (rmatch ci r Some _) eqn:E.
    + apply (rmatch_needs ci P r Hn) in E. cbn [rest] in E. congruence.
    + f_equal. apply IH. cbn in Hs. now apply orb_false_iff in Hs.
Qed.

Lemma applySteps_no_match (P : ascii -> bool)
    (steps : list (bool * re * str)) (s : str) :
  forallb (fun '(ci, r, _) => needs ci P r) steps = true ->
  existsb P s = false ->
  applySteps steps s = s.
Proof.
  unfold applySteps. induction steps as [| [[ci r] rep] more IH]; cbn.
  - reflexivity.
  - intros H Hs. apply andb_true_iff in H. destruct H as [Hr Hmore].
    rewrite (replaceAll_no_match ci P r rep s Hr Hs). now apply IH.
Qed.

Lemma applySteps_app (l1 l2 : list (bool * re * str)) (s : str) :
  applySteps (l1 ++ l2) s = applySteps l2 (applySteps l1 s).
Proof. unfold applySteps. apply fold_left_app. Qed.


(** *** The whitespace steps *)

Lemma chr_ws (c : ascii) : chr_match false false ws_ranges c = is_space c.
Proof.
  unfold chr_match, in_ranges, ws_ranges, is_space. cbn.
  now destruct (between 9 13 c), (between 32 32 c).
Qed.

Lemma rmatch_ws (k : mstate -> option mstate) (p : nat) (s : str)
    (cp : option str) :
  rmatch false (Chr false ws_ranges) k (MState p s cp) =
    match s with
    | c :: t => if is_space c then k (MState (S p) t cp) else None
    | [] => None
    end.
Proof.
  destruct s as [| c t]; [reflexivity |].
  cbn [rmatch rest]. rewrite chr_ws. reflexivity.
Qed.

Lemma star_ws (cp : option str) (t : str) :
  forall n p,
    length t < n ->
    star_loop (rmatch false (Chr false ws_ranges)) true Some n
              (MState p t cp)
    = Some (MState (p + leadingSpaces t) (skipn (leadingSpaces t) t) cp).
Proof.
  induction t as [| c t IH]; intros [| n] p Hn; try (cbn in Hn; lia).
  - cbn [star_loop]. rewrite rmatch_ws. cbn. now rewrite Nat.add_0_r.
  - cbn [star_loop]. rewrite rmatch_ws. cbn [leadingSpaces].
    destruct (is_space c).
    + cbn [pos].
      replace (Nat.ltb p (S p)) with true by (symmetry; apply Nat.ltb_lt; lia).
      rewrite IH by (cbn in Hn; lia). cbn [skipn].
      now rewrite Nat.add_succ_r.
    + cbn. now rewrite Nat.add_0_r.
Qed.

Lemma rmatch_spaces (p : nat) (s : str) :
  rmatch false spaces Some (MState p s None) =
    match s with
    | c :: t =>
        if is_space c
        then Some (MState (S p + leadingSpaces t)
                          (skipn (leadingSpaces t) t) None)
        else None
    | [] => None
    end.
Proof.
  change (rmatch false spaces Some (MState p s None))
    with (rmatch false (Chr false ws_ranges)
            (fun s1 => star_loop (rmatch false (Chr false ws_ranges)) true
                         Some (S (length (rest s1))) s1)
            (MState p s None)).
  rewrite rmatch_ws. destruct s as [| c t]; [reflexivity |].
  destruct (is_space c); [| reflexivity].
  cbn [rest]. apply star_ws. lia.
Qed.

Lemma leadingSpaces_le (s : str) : leadingSpaces s <= length s.
Proof. induction s as [| c s IH]; cbn; [lia |]. destruct (is_space c); lia. Qed.

Lemma replaceAll_go_skip (ci : bool) (r : re) (rep : str) :
  forall k s p,
    k <= length s ->
    replaceAll_go ci r rep s k p = replaceAll_go ci r rep (skipn k s) 0 (p + k).
Proof.
  induction k as [| k IH]; intros s p Hk.
  - now rewrite Nat.add_0_r.
  - destruct s as [| c s]; [cbn in Hk; lia |].
    cbn [replaceAll_go skipn]. rewrite IH by (cbn in Hk; lia).
    now rewrite Nat.add_succ_r.
Qed.

Lemma collapseSpaces_run (s : str) :
  collapseSpaces true s = collapseSpaces false (skipn (leadingSpaces s) s).
Proof.
  induction s as [| c s IH]; [reflexivity |].
  cbn [leadingSpaces]. destruct (is_space c) eqn:E.
  - cbn [skipn collapseSpaces]. now rewrite E.
  - cbn [skipn collapseSpaces]. now rewrite E.
Qed.

Lemma replaceAll_spaces (s : str) :
  replaceAll false spaces (lit " ") s = collapseSpaces false s.
Proof.
  unfold replaceAll.
  enough (Hgo : forall n s p, length s <= n ->
            replaceAll_go false spaces (lit " ") s 0 p
            = collapseSpaces false s) by (apply (Hgo (length s)); lia).
  clear s. induction n as [| n IH]; intros s p Hn.
  - destruct s; [reflexivity | cbn in Hn; lia].
  - destruct s as [| c s]; [cbn [replaceAll_go]; now rewrite rmatch_spaces |].
    cbn [replaceAll_go collapseSpaces]. rewrite rmatch_spaces.
    destruct (is_space c).
    + cbn [pos].
      replace (S p + leadingSpaces s - p) with (S (leadingSpaces s)) by lia.
      change (lit " " ++ ?x) with (" "%char :: x). f_equal.
      rewrite replaceAll_go_skip by apply leadingSpaces_le.
      rewrite IH.
      * symmetry. apply collapseSpaces_run.
      * rewrite length_skipn. cbn in Hn. lia.
    + f_equal. apply IH. cbn in Hn. lia.
Qed.

Lemma singleSpaced_collapse (b : bool) (s : str) :
  singleSpaced b (collapseSpaces b s) = true.
Proof.
  revert b. induction s as [| c s IH]; intros b; [reflexivity |].
  cbn [collapseSpaces]. destruct (is_space c) eqn:E.
  - destruct b; [apply IH |]. cbn. apply IH.
  - cbn [singleSpaced]. rewrite E. apply IH.
Qed.

Lemma singleSpaced_weaken (b : bool) (s : str) :
  singleSpaced b s = true -> singleSpaced false s = true.
Proof.
  destruct s as [| c s]; [reflexivity |]. cbn.
  destruct (is_space c); [| auto]. destruct b; [discriminate | auto].
Qed.

Lemma singleSpaced_suffix (a t : str) (b : bool) :
  singleSpaced b (a ++ t) = true -> singleSpaced false t = true.
Proof.
  revert b. induction a as [| c a IH]; intros b; cbn [app].
  - apply singleSpaced_weaken.
  - cbn [singleSpaced]. destruct (is_space c).
    + intros H. apply andb_true_iff in H. destruct H as [_ H]. now apply IH in H.
    + apply IH.
Qed.

Lemma singleSpaced_prefix (t a : str) (b : bool) :
  singleSpaced b (t ++ a) = true -> singleSpaced b t = true.
Proof.
  revert b. induction t as [| c t IH]; intros b; [reflexivity |].
  cbn [app singleSpaced]. destruct (is_space c).
  - intros H. apply andb_true_iff in H. destruct H as [H1 H2].
    rewrite H1. now apply IH in H2.
  - apply IH.
Qed.

Lemma singleSpaced_trim (s : str) :
  singleSpaced false s = true -> singleSpaced false (trim s) = true.
Proof.
  destruct (trim_infix s) as (a & b & H). intros Hs. rewrite H in Hs.
  apply singleSpaced_suffix in Hs. now apply singleSpaced_prefix in Hs.
Qed.


Lemma singleSpaced_no_newline (b : bool) (s : str) :
  singleSpaced b s = true -> existsb isNewline s = false.
Proof.
  revert b. induction s as [| c s IH]; intros b; [reflexivity |].
  cbn [singleSpaced existsb]. destruct (is_space c) eqn:E.
  - intros H. apply andb_true_iff in H. destruct H as [H Hs].
    apply andb_true_iff in H. destruct H as [_ Hc].
    apply ascii_eqb_true in Hc. subst c. cbn. now apply IH in Hs.
  - intros H. apply IH in H. rewrite H.
    destruct (isNewline c) eqn:En; [| reflexivity].
    apply ascii_eqb_true in En. subst c. discriminate.
Qed.

Lemma spaceSteps_collapse (s : str) :
  applySteps spaceSteps s = collapseSpaces false s.
Proof.
  change spaceSteps
    with ([(false, spaces, lit " ")] ++ skipn 36 cleanSteps).
  rewrite applySteps_app. cbn [applySteps fold_left].
  rewrite replaceAll_spaces.
  apply (applySteps_no_match isNewline).
  - vm_compute. reflexivity.
  - apply (singleSpaced_no_newline false). apply singleSpaced_collapse.
Qed.

(** The normalizer, step by step. *)
Lemma cleanHtmlContent_unfold (x : str) :
  cleanHtmlContent x =
    if negb (nonempty x) then []
    else trim (collapseSpaces false (applySteps markupSteps x)).
Proof.
  unfold cleanHtmlContent. destruct (negb (nonempty x)); [reflexivity |].
  rewrite <- (firstn_skipn 35 cleanSteps) at 1.
  fold markupSteps spaceSteps.
  now rewrite applySteps_app, spaceSteps_collapse.
Qed.




End Normalizer.


(* ===================================================================== *)
(** ** The end-to-end scenarios of the specification, evaluated *)
(* ===================================================================== *)

Section Scenarios.

Import Route.

Example pattern_spaces : rx "\s+" = spaces.
Proof. reflexivity. Qed.

Example pattern_sender_domain :
  rx "@([^.]+)\." =
    Seq (Chr false [(64, 64)]%N)
        (Seq (Group (Seq (Chr true [(46, 46)]%N)
                         (Star true (Chr true [(46, 46)]%N))))
             (Chr false [(46, 46)]%N)).
Proof. reflexivity. Qed.

Example patterns_all_parse :
  forallb (fun src => match parse src with Some _ => true | None => false end)
    ["thanks?\s+for\s+applying\s+(?:to|at|with)\s+([A-Z][a-zA-Z\s&.\-']+?)(?:\s+for|\s+as|\s+\(|[\.,!]|\s+team|\s+hr|\s+and|\s+we|\s+your|\s+today|\s+yesterday|\s+on|\s*$)";
     "^(.+?)\s*<.*>$"; "\n{3,}"; "<br\s*\/?>"; "&[a-zA-Z0-9#]+;";
     "[^\w\s\-\/\.]"]%string = true.
Proof. vm_compute. reflexivity. Qed.

(** Scenario 1: an application confirmation from a company address. *)
Example scenario_confirmation :
  extractCompany Examples.acmeFrom
    "We have received your application and will review it."
    Examples.acmeSubject = Some (lit "Acme") /\
  extractJobTitle
    (toLowerCase
       (Examples.acmeSubject ++ lit " " ++
        lit "We have received your application and will review it."))
    Examples.acmeSubject = Some (lit "Software Engineer") /\
  determineStatus
    (Examples.acmeSubject ++ lit " " ++
     lit "We have received your application and will review it.") = applied.
Proof. vm_compute. repeat split. Qed.

(** Scenario 2: rejection language wins over interview language. *)
Example scenario_rejection :
  determineStatus
    "After your interview, we regret to inform you that we have decided to move forward with other candidates"
  = rejected.
Proof. vm_compute. reflexivity. Qed.

(** Scenario 3: a job-alert digest is dropped. *)
Example scenario_job_alert :
  isJobRelatedEmail
    (toLowerCase "LinkedIn Job Alert: 12 new jobs matching your search ")
    "jobs-noreply@linkedin.com"
    "LinkedIn Job Alert: 12 new jobs matching your search" = false.
Proof. vm_compute. reflexivity. Qed.

(** The sender-domain stage on generic domain names. *)
Example sender_domain_generic :
  extractCompany "careers@hr.com" [] [] = Some (lit "Hr") /\
  extractCompany "Team <x@gmail.com>" [] [] = Some (lit "Team") /\
  extractCompany "x@gmail.com" "Thanks for applying to Digest." []
    = Some (lit "Digest").
Proof. vm_compute. repeat split. Qed.

(** One pass of the normalizer over a small document. *)
Example normalizer_sample :
  cleanHtmlContent
    "<html><head><style>p {color: red;}</style></head><body><p style='x'>Hello&nbsp;World</p><br/>bye &amp; thanks</body></html>"
  = lit "Hello World bye & thanks".
Proof. vm_compute. reflexivity. Qed.

End Scenarios.

(* ===================================================================== *)
(** ** Further properties: text normalizer *)
(* ===================================================================== *)

Section NormalizerShape.

Import Route.

(** X1. Whatever the input, the normalized text is trimmed, its only
    whitespace is single spaces, and it holds no line feed: the
    whitespace collapse replaces every run, line feeds included, before
    the steps that limit consecutive line feeds run. *)
Theorem cleanHtmlContent_shape (x : str) :
  trim (cleanHtmlContent x) = cleanHtmlContent x /\
  singleSpaced false (cleanHtmlContent x) = true /\
  existsb isNewline (cleanHtmlContent x) = false /\
  (x = [] -> cleanHtmlContent x = []).
Proof.
  assert (Hss : singleSpaced false (cleanHtmlContent x) = true).
  { rewrite cleanHtmlContent_unfold. destruct (negb (nonempty x));
      [reflexivity |].
    apply singleSpaced_trim. apply singleSpaced_collapse. }
  split; [| split; [exact Hss | split]].
  - rewrite cleanHtmlContent_unfold. destruct (negb (nonempty x));
      [reflexivity | apply trim_idem].
  - now apply (singleSpaced_no_newline false).
  - intros ->. reflexivity.
Qed.



End NormalizerShape.

(* ===================================================================== *)
(** ** Further properties: noise filter, hybrid classifier, scan loop *)
(* ===================================================================== *)

Section ScanLoop.

Import AiService Route.

Lemma in_strs (x : string) (l : list string) : In x l -> In (lit x) (strs l).
Proof. apply in_map. Qed.

(** X3. For content in lower case, as the scan loop passes it, an
    application-confirmation phrase makes the message job related
    whatever the sender and subject: the noise filter stands back and
    the phrase is among the confirmation patterns. *)
Theorem lowercase_confirmation_is_job_related (content from subject : str) :
  toLowerCase content = content ->
  isApplicationConfirmation content = true ->
  isJobRelatedEmail content from subject = true.
Proof.
  intros Hlow Hconf. unfold isJobRelatedEmail, isJobBoardNotification.
  rewrite Hlow, Hconf.
  assert (H : existsb (fun pattern => includes content pattern)
                applicationConfirmationPatterns = true).
  { unfold isApplicationConfirmation in Hconf.
    repeat (apply orb_true_iff in Hconf; destruct Hconf as [Hconf | Hconf]).
    6: apply andb_true_iff in Hconf; destruct Hconf as [Hconf _].
    all: eapply existsb_includes; [| exact Hconf];
      apply in_strs; repeat (first [left; reflexivity | right]). }
  rewrite H. now rewrite orb_true_r.
Qed.

Lemma lowercase_confirmation_is_job_related_witness :
  isJobRelatedEmail "thanks for applying to acme" "notifications@indeed.com"
                    "Update" = true.
Proof.
  apply (lowercase_confirmation_is_job_related
           "thanks for applying to acme" "notifications@indeed.com" "Update");
    reflexivity.
Defined.

Lemma regexAnalysis_confidence (content subject from : str) :
  (3 # 10 <= a_confidence (regexAnalysis content subject from) <= 9 # 10)%Q.
Proof.
  unfold regexAnalysis. cbn [a_confidence].
  destruct (truthy (extractCompany from content subject) && _);
    destruct (truthy (extractJobTitle content subject) && _);
    destruct (determineStatus content);
    split; apply Qle_bool_iff; vm_compute; reflexivity.
Qed.

Lemma determineStatusWithAI_floor
    (available : bool)
    (analyze : EmailData -> result (option EmailAnalysisResult))
    (content subject from : str) :
  exists a,
    determineStatusWithAI available analyze content subject from = Ok a /\
    (2 # 10 <= a_confidence a)%Q /\
    (a_method a = ai \/ a_method a = regex).
Proof.
  assert (Hregex :
    (2 # 10 <= a_confidence (regexAnalysis content subject from))%Q).
  { eapply Qle_trans;
      [| exact (proj1 (regexAnalysis_confidence content subject from))].
    discriminate. }
  unfold determineStatusWithAI. destruct available.
  - destruct (analyze _) as [[r |] | e]; cbn.
    + destruct (Qle_bool (2 # 10) (confidence r)) eqn:Ec; cbn.
      * apply Qle_bool_iff in Ec. eexists. split; [reflexivity |].
        split; [exact Ec | now left].
      * eexists. split; [reflexivity |]. split; [exact Hregex | now right].
    + eexists. split; [reflexivity |]. split; [exact Hregex | now right].
    + eexists. split; [reflexivity |]. split; [exact Hregex | now right].
  - cbn. eexists. split; [reflexivity |]. split; [exact Hregex | now right].
Qed.

(** X4. The hybrid classifier returns on every input, and what it
    returns is either the classifier's answer, verbatim and with method
    ai, when the service is available and the answer has confidence 0.2 or
    more, or else the regex analysis.  Its confidence is never below 0.2,
    and on the regex path it lies between 0.3 and 0.9. *)
Theorem determineStatusWithAI_outcome
    (available : bool)
    (analyze : EmailData -> result (option EmailAnalysisResult))
    (content subject from : str) :
  exists a,
    determineStatusWithAI available analyze content subject from = Ok a /\
    (2 # 10 <= a_confidence a)%Q /\
    ((available = true /\
      exists r,
        analyze {| subject := subject; from := from; content := content |}
          = Ok (Some r) /\
        (2 # 10 <= confidence r)%Q /\
        a = {| a_status := status r; a_company := company r;
               a_jobTitle := jobTitle r; a_confidence := confidence r;
               a_method := ai |}) \/
     (a = regexAnalysis content subject from /\
      a_method a = regex /\
      (3 # 10 <= a_confidence a <= 9 # 10)%Q)).
Proof.
  assert (Hregex : forall a, a = regexAnalysis content subject from ->
    (2 # 10 <= a_confidence a)%Q /\
    (a = regexAnalysis content subject from /\ a_method a = regex /\
     (3 # 10 <= a_confidence a <= 9 # 10)%Q)).
  { intros a ->. pose proof (regexAnalysis_confidence content subject from) as H.
    split; [| now repeat split].
    eapply Qle_trans; [| exact (proj1 H)]. discriminate. }
  unfold determineStatusWithAI. destruct available.
  - destruct (analyze _) as [[r |] | e] eqn:E; cbn.
    + destruct (Qle_bool (2 # 10) (confidence r)) eqn:Ec; cbn.
      * apply Qle_bool_iff in Ec. eexists. split; [reflexivity |].
        split; [exact Ec |]. left. split; [reflexivity |].
        exists r. now repeat split.
      * eexists. split; [reflexivity |].
        destruct (Hregex _ eq_refl) as [H1 H2]. split; [exact H1 | now right].
    + eexists. split; [reflexivity |].
      destruct (Hregex _ eq_refl) as [H1 H2]. split; [exact H1 | now right].
    + eexists. split; [reflexivity |].
      destruct (Hregex _ eq_refl) as [H1 H2]. split; [exact H1 | now right].
  - cbn. eexists. split; [reflexivity |].
    destruct (Hregex _ eq_refl) as [H1 H2]. split; [exact H1 | now right].
Qed.

Lemma penalty_free (content : str) :
  existsb (fun w => includes content w) Props.penaltyWords = false ->
  includes content "newsletter" || includes content "digest" ||
  includes content "marketing" || includes content "promotional" ||
  includes content "unsubscribe" ||
  includes content "you may be interested" = false.
Proof.
  intros H.
  assert (Hw : forall w : string,
             In w ["newsletter"; "digest"; "marketing"; "promotional";
                   "unsubscribe"; "you may be interested"]%string ->
             includes content (lit w) = false).
  { intros w Hin.
    exact (existsb_false _ _ _ (lit w) H (in_strs _ _ Hin)). }
  rewrite !Hw; [reflexivity | ..]; repeat (first [left; reflexivity | right]).
Qed.

Lemma adjustedConfidence_no_penalty (analysisConfidence : Q)
    (company jobTitle : option str) (subject from content : str) :
  existsb (fun w => includes (toLowerCase content) w) Props.penaltyWords
    = false ->
  (analysisConfidence
     <= adjustedConfidence analysisConfidence company jobTitle subject from
                           content)%Q.
Proof.
  intros H. unfold adjustedConfidence. rewrite (penalty_free _ H).
  destruct company as [c |];
    repeat match goal with
           | |- context [if ?b then _ else _] => destruct b
           end; lra.
Qed.

(** X5. The adjustments of the scan loop move the analysis confidence by
    at most 0.3 down and 0.5 up, and without newsletter or digest wording
    in the content they never lower it. *)
Theorem adjustedConfidence_range (analysisConfidence : Q)
    (company jobTitle : option str) (subject from content : str) :
  (analysisConfidence - (3 # 10)
     <= adjustedConfidence analysisConfidence company jobTitle subject from
                           content
     <= analysisConfidence + (5 # 10))%Q /\
  (existsb (fun w => includes (toLowerCase content) w) Props.penaltyWords
     = false ->
   (analysisConfidence
      <= adjustedConfidence analysisConfidence company jobTitle subject from
                            content)%Q).
Proof.
  unfold adjustedConfidence. split.
  - destruct company as [c |];
      repeat match goal with
             | |- context [if ?b then _ else _] => destruct b
             end; split; lra.
  - intros H. fold (adjustedConfidence analysisConfidence company jobTitle
                      subject from content).
    now apply adjustedConfidence_no_penalty.
Qed.

Lemma adjustedConfidence_range_witness :
  (3 # 10 <= adjustedConfidence (3 # 10) (Some (lit "Acme")) None
               "Interview invitation" "jane.doe@acme.com"
               "please schedule a call")%Q.
Proof.
  apply (proj2 (adjustedConfidence_range (3 # 10) (Some (lit "Acme")) None
                  "Interview invitation" "jane.doe@acme.com"
                  "please schedule a call")).
  reflexivity.
Defined.



Lemma processMessage_wellFormed
    (available : bool)
    (analyze : EmailData -> result (option EmailAnalysisResult))
    (subject from : str) (p : payload) (j : JobApplication) :
  processMessage available analyze subject from p = Ok (Some j) ->
  Props.wellFormed j /\ j_emailSubject j = subject /\ j_emailFrom j = from.
Proof.
  unfold processMessage, scoreMessage.
  destruct (isJobRelatedEmail _ from subject); [| discriminate].
  destruct (determineStatusWithAI_floor available analyze
              (toLowerCase (subject ++ lit " " ++ messageBody p))
              subject from) as (a & -> & _ & Hm).
  cbn [bind].
  destruct (Qle_bool _ _) eqn:Ec; [| discriminate].
  intros [= <-]. apply Qle_bool_iff in Ec.
  split; [| split; reflexivity].
  unfold Props.wellFormed.
  cbn [j_company j_jobTitle j_analysisMethod j_confidence].
  repeat split.
  - destruct (truthy (orElse _ _)) eqn:Et; [| reflexivity].
    destruct (orElse _ _) as [c |]; [exact Et | discriminate].
  - destruct (truthy (orElse (a_jobTitle a) _)) eqn:Et; [| reflexivity].
    destruct (orElse (a_jobTitle a) _) as [c |]; [exact Et | discriminate].
  - destruct Hm as [-> | ->]; discriminate.
  - exact Ec.
  - apply Q.le_min_r.
Qed.

(** X7. Every application the scan loop returns has a non-empty company
    and job title (the placeholders stand in for a missing extraction), a
    method that is ai or regex, a confidence between 0.2 and 0.95, and the
    subject and sender of one of the scanned messages; the loop returns at
    most one application per message. *)
Theorem scanMessages_wellFormed
    (available : bool)
    (analyze : EmailData -> result (option EmailAnalysisResult))
    (messages : list (str * str * payload)) :
  Forall (fun j =>
            Props.wellFormed j /\
            In (j_emailSubject j, j_emailFrom j) (map fst messages))
         (scanMessages available analyze messages) /\
  length (scanMessages available analyze messages) <= length messages.
Proof.
  induction messages as [| [[subject from] p] more [IH1 IH2]]; cbn.
  - split; [constructor | lia].
  - assert (Hmore : Forall (fun j =>
              Props.wellFormed j /\
              In (j_emailSubject j, j_emailFrom j)
                 ((subject, from) :: map fst more))
              (scanMessages available analyze more)).
    { eapply List.Forall_impl; [| exact IH1]. cbn. intros j [H1 H2]. auto. }
    destruct (processMessage available analyze subject from p)
      as [[j |] | e] eqn:E; try (split; [exact Hmore | lia]).
    split; [| cbn; lia]. constructor; [| exact Hmore].
    destruct (processMessage_wellFormed _ _ _ _ _ _ E) as (H & Hs & Hf).
    split; [exact H |]. left. now rewrite Hs, Hf.
Qed.

End ScanLoop.

(* ===================================================================== *)
(** ** Further properties: field extractors *)
(* ===================================================================== *)

Section Extractors.

Import Route.







(** *** Job titles *)

Lemma splitSpaces_aux_cons (s : str) (b : bool) :
  exists w ws, splitSpaces_aux s b = w :: ws.
Proof.
  revert b. induction s as [| c s IH]; intros b; cbn; [now eauto |].
  destruct (is_space c).
  - destruct b; [apply IH | now eauto].
  - destruct (IH false) as (w & ws & ->). eauto.
Qed.

Lemma splitSpaces_no_space (s : str) :
  existsb is_space s = false -> splitSpaces_aux s false = [s].
Proof.
  induction s as [| c s IH]; cbn; [reflexivity |].
  intros H. apply orb_false_iff in H. destruct H as [Hc Hs].
  rewrite Hc, (IH Hs). reflexivity.
Qed.

Lemma splitSpaces_two (s : str) :
  existsb is_space s = true ->
  exists w1 w2 ws, splitSpaces s = w1 :: w2 :: ws.
Proof.
  unfold splitSpaces. induction s as [| c s IH]; cbn; [discriminate |].
  destruct (is_space c) eqn:Ec.
  - intros _. destruct (splitSpaces_aux_cons s true) as (w & ws & ->). eauto.
  - cbn. intros H. destruct (IH H) as (w1 & w2 & ws & ->). eauto.
Qed.

Lemma splitBy_two (p : ascii -> bool) (s : str) :
  existsb p s = true ->
  exists w1 w2 ws, splitBy p s = w1 :: w2 :: ws.
Proof.
  induction s as [| c s IH]; cbn; [discriminate |].
  destruct (p c) eqn:Ec.
  - intros _. destruct (splitBy_cons p s) as (w & ws & ->). eauto.
  - cbn. intros H. destruct (IH H) as (w1 & w2 & ws & ->). eauto.
Qed.

(** A join of two pieces or more shows its separator. *)
Lemma join_two_separator (P : ascii -> bool) (sep w1 w2 : str)
    (ws : list str) :
  existsb P sep = true ->
  existsb P (join sep (w1 :: w2 :: ws)) = true.
Proof.
  intros H. rewrite join_cons by discriminate.
  rewrite !existsb_app, H. now rewrite orb_true_r.
Qed.

Lemma existsb_lower (P : ascii -> bool) (s : str) :
  (forall c, P (toLowerChar c) = P c) ->
  existsb P (toLowerCase s) = existsb P s.
Proof.
  intros H. unfold toLowerCase.
  induction s as [| c s IH]; [reflexivity |].
  cbn [map existsb]. now rewrite H, IH.
Qed.

Lemma dash_lower (c : ascii) : isDashOrSlash (toLowerChar c) = isDashOrSlash c.
Proof. destruct c as [[] [] [] [] [] [] [] []]; reflexivity. Qed.

Lemma space_lower (c : ascii) : is_space (toLowerChar c) = is_space c.
Proof. destruct c as [[] [] [] [] [] [] [] []]; reflexivity. Qed.

(** A text with a character that no listed term has is not listed. *)
Lemma mem_by_character (P : ascii -> bool) (terms : list str) (s : str) :
  forallb (fun term => negb (existsb P term)) terms = true ->
  existsb P s = true ->
  mem s terms = false.
Proof.
  intros Hterms Hs. unfold mem.
  destruct (existsb (str_eqb s) terms) eqn:E; [| reflexivity].
  apply existsb_exists in E. destruct E as (t & Hin & Heq).
  apply str_eqb_true in Heq. subst t.
  rewrite forallb_forall in Hterms. specialize (Hterms s Hin).
  now rewrite Hs in Hterms.
Qed.

Lemma lookupWord_in (table : list (string * string)) (w v : str) :
  lookupWord table w = Some v -> In v (map (fun kv => lit (snd kv)) table).
Proof.
  induction table as [| [k x] more IH]; cbn; [discriminate |].
  destruct (str_eqb w (lit k)).
  - intros [= <-]. now left.
  - intros H. right. now apply IH.
Qed.

Lemma techWords_not_excluded :
  forallb (fun v => negb (mem (toLowerCase v) excludeTerms))
          (map (fun kv => lit (snd kv)) techWords) = true.
Proof. vm_compute. reflexivity. Qed.

Lemma excludeTerms_plain :
  forallb (fun term => negb (existsb is_space term)) excludeTerms = true /\
  forallb (fun term => negb (existsb isDashOrSlash term)) excludeTerms = true.
Proof. split; vm_compute; reflexivity. Qed.

Lemma capitalizeTitleWord_not_excluded (w : str) :
  mem (toLowerCase w) excludeTerms = false ->
  mem (toLowerCase (capitalizeTitleWord w)) excludeTerms = false.
Proof.
  intros Hw. unfold capitalizeTitleWord.
  destruct (lookupWord techWords (toLowerCase w)) as [v |] eqn:El.
  - apply lookupWord_in in El.
    pose proof techWords_not_excluded as H. rewrite forallb_forall in H.
    specialize (H v El). now apply negb_true_iff in H.
  - destruct (includes w "-" || includes w "/") eqn:Ed.
    + assert (Hd : existsb isDashOrSlash w = true).
      { apply orb_true_iff in Ed. destruct Ed as [Ed | Ed];
          apply includes_spec in Ed; destruct Ed as (a & b & ->);
          rewrite !existsb_app; cbn; now rewrite orb_true_r. }
      destruct (splitBy_two _ _ Hd) as (w1 & w2 & ws & ->).
      apply (mem_by_character isDashOrSlash); [apply excludeTerms_plain |].
      rewrite (existsb_lower _ _ dash_lower).
      cbn [map]. apply join_two_separator.
      now destruct (includes w "-").
    + now rewrite lower_capitalizeWord.
Qed.

Lemma titleCandidate_not_excluded (captured title : str) :
  titleCandidate captured = Some title ->
  mem (toLowerCase title) excludeTerms = false.
Proof.
  unfold titleCandidate.
  set (t := trim (replaceAll false _ [] (trim captured))).
  destruct (Nat.leb 3 (length t)); [| discriminate].
  destruct (Nat.leb (length t) 80); [| discriminate].
  destruct (mem (toLowerCase t) excludeTerms) eqn:Em; [discriminate |].
  cbn [negb andb].
  destruct (_ && _ && _ && _); [| discriminate].
  intros [= <-].
  destruct (existsb is_space t) eqn:Es.
  - destruct (splitSpaces_two _ Es) as (w1 & w2 & ws & ->).
    apply (mem_by_character is_space); [apply excludeTerms_plain |].
    rewrite (existsb_lower _ _ space_lower).
    cbn [map]. now apply join_two_separator.
  - unfold splitSpaces. rewrite (splitSpaces_no_space _ Es). cbn [map join].
    now apply capitalizeTitleWord_not_excluded.
Qed.

(** X9. A job title returned by the extractor is never one of the filler
    terms it excludes (position, role, team, ...), in any letter case:
    the capitalization applied after the check cannot bring one back. *)
Theorem extractJobTitle_not_excluded (content subject title : str) :
  extractJobTitle content subject = Some title ->
  Spec.isListed excludeTerms title = false.
Proof.
  unfold extractJobTitle, Spec.isListed.
  generalize (subject ++ lit " " ++ content) as fullText. intros fullText.
  induction titlePatterns as [| pattern more IH]; cbn; [discriminate |].
  destruct (match1 true pattern fullText) as [[captured |] |];
    try exact IH.
  destruct (nonempty captured); [| exact IH].
  destruct (titleCandidate captured) as [t |] eqn:Et; [| exact IH].
  intros [= <-]. exact (titleCandidate_not_excluded _ _ Et).
Qed.

Lemma extractJobTitle_not_excluded_witness :
  extractJobTitle "you applied for the senior ui/ux designer position at acme"
                  "hello" = Some (lit "Senior Ui/Ux Designer") /\
  Spec.isListed excludeTerms "Senior Ui/Ux Designer" = false.
Proof.
  split; [vm_compute; reflexivity |].
  apply (extractJobTitle_not_excluded
           "you applied for the senior ui/ux designer position at acme"
           "hello").
  vm_compute. reflexivity.
Defined.

End Extractors.

(* ===================================================================== *)
(** ** Further properties: the AI e-mail analysis service *)
(* ===================================================================== *)

Section AiServiceFacts.

Import AiService.

Variable generateContent : EmailData -> result str.
Variable JSON_parse : str -> result json.

Lemma isValidAnalysisResult_sound (obj : json) (r : EmailAnalysisResult) :
  isValidAnalysisResult obj = Some r ->
  (exists s, prop obj "status" = Some (JStr s) /\
             statusOfString s = Some (status r)) /\
  nullOrString (prop obj "company") = Some (company r) /\
  nullOrString (prop obj "jobTitle") = Some (jobTitle r) /\
  prop obj "confidence" = Some (JNum (confidence r)) /\
  (0 <= confidence r <= 1)%Q.
Proof.
  unfold isValidAnalysisResult.
  destruct obj as [| | | | | fields]; try discriminate.
  destruct (prop (JObj fields) "status") as [[| | | s | |] |]; try discriminate.
  destruct (statusOfString s) as [st |] eqn:Es; [| discriminate].
  destruct (nullOrString (prop (JObj fields) "company")) as [c |];
    [| discriminate].
  destruct (nullOrString (prop (JObj fields) "jobTitle")) as [t |];
    [| discriminate].
  destruct (prop (JObj fields) "confidence") as [[| | q | | |] |];
    try discriminate.
  destruct (Qle_bool 0 q && Qle_bool q 1) eqn:Eq; [| discriminate].
  intros [= <-]. cbn. apply andb_true_iff in Eq. destruct Eq as [H0 H1].
  apply Qle_bool_iff in H0, H1. repeat split; auto. now exists s.
Qed.

(** X10. A result that the service returns has passed validation: the
    service is initialized, the remote call returned a reply, and the
    result repeats the fields of a parsed object with a listed status, a
    string-or-null company and job title, and a numeric confidence
    between 0 and 1. *)
Theorem analyzeEmail_validated (svc : service) (ed : EmailData)
    (r : EmailAnalysisResult) :
  analyzeEmail generateContent JSON_parse svc ed = Some r ->
  isInitialized svc = true /\
  (0 <= confidence r <= 1)%Q /\
  exists text cleaned obj,
    generateContent ed = Ok text /\
    JSON_parse cleaned = Ok obj /\
    (exists s, prop obj "status" = Some (JStr s) /\
               statusOfString s = Some (status r)) /\
    nullOrString (prop obj "company") = Some (company r) /\
    nullOrString (prop obj "jobTitle") = Some (jobTitle r) /\
    prop obj "confidence" = Some (JNum (confidence r)).
Proof.
  unfold analyzeEmail.
  destruct (isInitialized svc); [| discriminate]. cbn [negb orb].
  destruct (negb (genAI svc)); [discriminate |].
  destruct (generateContent ed) as [text | e]; [| discriminate].
  unfold parseAIResponse.
  set (cleaned := match match0 _ _ _ with Some m => m | None => _ end).
  destruct (JSON_parse cleaned) as [obj | e] eqn:Ep; [| discriminate].
  intros H. apply isValidAnalysisResult_sound in H.
  destruct H as (Hs & Hc & Ht & Hq & Hb).
  split; [reflexivity | split; [exact Hb |]].
  exists text, cleaned, obj. repeat split; auto.
Qed.

(** *** Reading the reply between the braces *)

Lemma chr_any (c : ascii) : chr_match false false Props.anyChar c = true.
Proof.
  assert (H : forallb (chr_match false false Props.anyChar) all_ascii = true)
    by (vm_compute; reflexivity).
  rewrite forallb_forall in H. apply H, in_all_ascii.
Qed.

Lemma chr_open (c : ascii) :
  chr_match false false [(123, 123)]%N c = Props.isOpenBrace c.
Proof. destruct c as [[] [] [] [] [] [] [] []]; reflexivity. Qed.

Lemma chr_close (c : ascii) :
  chr_match false false [(125, 125)]%N c = Props.isCloseBrace c.
Proof. destruct c as [[] [] [] [] [] [] [] []]; reflexivity. Qed.

Lemma rmatch_any (k : mstate -> option mstate) (p : nat) (s : str)
    (cp : option str) :
  rmatch false (Chr false Props.anyChar) k (MState p s cp) =
    match s with
    | _ :: t => k (MState (S p) t cp)
    | [] => None
    end.
Proof.
  destruct s as [| c t]; [reflexivity |].
  cbn [rmatch rest]. rewrite chr_any. reflexivity.
Qed.

Lemma rmatch_close (k : mstate -> option mstate) (p : nat) (s : str)
    (cp : option str) :
  rmatch false (Chr false [(125, 125)]%N) k (MState p s cp) =
    match s with
    | c :: t => if Props.isCloseBrace c then k (MState (S p) t cp) else None
    | [] => None
    end.
Proof.
  destruct s as [| c t]; [reflexivity |].
  cbn [rmatch rest]. rewrite chr_close. reflexivity.
Qed.

Lemma rmatch_open (k : mstate -> option mstate) (p : nat) (s : str)
    (cp : option str) :
  rmatch false (Chr false [(123, 123)]%N) k (MState p s cp) =
    match s with
    | c :: t => if Props.isOpenBrace c then k (MState (S p) t cp) else None
    | [] => None
    end.
Proof.
  destruct s as [| c t]; [reflexivity |].
  cbn [rmatch rest]. rewrite chr_open. reflexivity.
Qed.

Lemma upToClose_none (cp : option str) (t : str) :
  existsb Props.isCloseBrace t = false ->
  forall n p, Props.upToClose n p t cp = None.
Proof.
  unfold Props.upToClose.
  induction t as [| c t IH]; intros H [| n] p; try reflexivity.
  cbn in H. apply orb_false_iff in H. destruct H as [Hc Ht].
  cbn [star_loop]. rewrite rmatch_any, rmatch_close, Hc. cbn [pos].
  replace (Nat.ltb p (S p)) with true by (symmetry; apply Nat.ltb_lt; lia).
  now rewrite (IH Ht).
Qed.

Lemma upToClose_last (cp : option str) (post : str) :
  existsb Props.isCloseBrace post = false ->
  forall mid n p,
    length (mid ++ "}"%char :: post) < n ->
    Props.upToClose n p (mid ++ "}"%char :: post) cp
    = Some (MState (p + length mid + 1) post cp).
Proof.
  intros Hpost. unfold Props.upToClose.
  induction mid as [| c mid IH]; intros [| n] p Hn; try (cbn in Hn; lia).
  - cbn [app star_loop]. rewrite rmatch_any. cbn [pos].
    replace (Nat.ltb p (S p)) with true by (symmetry; apply Nat.ltb_lt; lia).
    fold (Props.upToClose n (S p) post cp). rewrite (upToClose_none cp post Hpost).
    rewrite rmatch_close. cbn. do 2 f_equal. lia.
  - cbn [app star_loop]. rewrite rmatch_any. cbn [pos].
    replace (Nat.ltb p (S p)) with true by (symmetry; apply Nat.ltb_lt; lia).
    rewrite IH by (cbn in Hn; lia). cbn [length]. do 2 f_equal. lia.
Qed.

Lemma rmatch_braces (p : nat) (s : str) :
  rmatch false Props.bracesPattern Some (MState p s None) =
    match s with
    | c :: t =>
        if Props.isOpenBrace c
        then Props.upToClose (S (length t)) (S p) t None
        else None
    | [] => None
    end.
Proof.
  change (rmatch false Props.bracesPattern Some (MState p s None))
    with (rmatch false (Chr false [(123, 123)]%N)
            (fun s1 => Props.upToClose (S (length (rest s1))) (pos s1) (rest s1)
                                 (cap s1))
            (MState p s None)).
  now rewrite rmatch_open.
Qed.

Lemma search_braces (post : str) :
  existsb Props.isCloseBrace post = false ->
  forall pre mid p,
    existsb Props.isOpenBrace pre = false ->
    search false Props.bracesPattern p (pre ++ "{"%char :: mid ++ "}"%char :: post)
    = Some (p + length pre,
            MState (p + length pre + length mid + 2) post None).
Proof.
  intros Hpost. induction pre as [| c pre IH]; intros mid p Hpre.
  - cbn [app search]. rewrite rmatch_braces.
    change (Props.isOpenBrace "{") with true. cbv iota.
    rewrite (upToClose_last None post Hpost mid)
      by (rewrite length_app; cbn; lia).
    cbn [length].
    replace (S p + length mid + 1) with (p + 0 + length mid + 2) by lia.
    now rewrite Nat.add_0_r.
  - cbn in Hpre. apply orb_false_iff in Hpre. destruct Hpre as [Hc Hpre].
    cbn [app search]. rewrite rmatch_braces, Hc.
    rewrite (IH mid (S p) Hpre). cbn [length].
    replace (S p + length pre) with (p + S (length pre)) by lia.
    reflexivity.
Qed.

Lemma search_no_brace (s : str) :
  existsb Props.isOpenBrace s = false ->
  forall p, search false Props.bracesPattern p s = None.
Proof.
  induction s as [| c s IH]; intros H p; cbn [search];
    rewrite rmatch_braces; [reflexivity |].
  cbn in H. apply orb_false_iff in H. destruct H as [Hc Hs].
  rewrite Hc. now apply IH.
Qed.

(** X11. The reply of the model is read from its first opening brace to
    its last closing brace, whatever surrounds them (code fences, prose)
    and whatever lies between, and that stretch is what is parsed; a
    reply without an opening brace is parsed whole. *)
Theorem parseAIResponse_between_braces (response pre mid post : str) :
  trim response = pre ++ "{"%char :: mid ++ "}"%char :: post ->
  existsb Props.isOpenBrace pre = false ->
  existsb Props.isCloseBrace post = false ->
  parseAIResponse JSON_parse response =
    match JSON_parse ("{"%char :: mid ++ ["}"%char]) with
    | Ok parsed => isValidAnalysisResult parsed
    | Throw _ => None
    end /\
  (forall other,
     existsb Props.isOpenBrace (trim other) = false ->
     parseAIResponse JSON_parse other =
       match JSON_parse (trim other) with
       | Ok parsed => isValidAnalysisResult parsed
       | Throw _ => None
       end).
Proof.
  intros Htrim Hpre Hpost. split.
  - unfold parseAIResponse, match0.
    change (rx "\{[\s\S]*\}") with Props.bracesPattern.
    rewrite Htrim, (search_braces post Hpost pre mid 0 Hpre).
    cbn [pos Nat.add].
    replace (length pre + length mid + 2 - length pre)
      with (S (length mid + 1)) by lia.
    rewrite skipn_app, Nat.sub_diag, skipn_all. cbn [app skipn firstn].
    rewrite firstn_app, firstn_all2 by lia.
    replace (length mid + 1 - length mid) with 1 by lia.
    reflexivity.
  - intros other Hother. unfold parseAIResponse, match0.
    change (rx "\{[\s\S]*\}") with Props.bracesPattern.
    now rewrite (search_no_brace _ Hother).
Qed.

End AiServiceFacts.

Section AiServiceExamples.

Import AiService.

Lemma analyzeEmail_validated_witness :
  isInitialized Props.sampleService = true /\
  (0 <= 9 # 10 <= 1)%Q /\
  exists text cleaned obj,
    Props.sampleReply Props.sampleEmail = Ok text /\
    Props.sampleParse cleaned = Ok obj /\
    (exists s, prop obj "status" = Some (JStr s) /\
               statusOfString s = Some rejected) /\
    nullOrString (prop obj "company") = Some (Some (lit "Acme")) /\
    nullOrString (prop obj "jobTitle") = Some None /\
    prop obj "confidence" = Some (JNum (9 # 10)).
Proof.
  apply (analyzeEmail_validated Props.sampleReply Props.sampleParse
           Props.sampleService Props.sampleEmail
           {| status := rejected; company := Some (lit "Acme");
              jobTitle := None; confidence := 9 # 10 |}).
  vm_compute. reflexivity.
Defined.

Lemma parseAIResponse_between_braces_witness :
  parseAIResponse Props.sampleParse "```json {status: {x}} ``` " =
    match Props.sampleParse (lit "{status: {x}}") with
    | Ok parsed => isValidAnalysisResult parsed
    | Throw _ => None
    end /\
  (forall other,
     existsb Props.isOpenBrace (trim other) = false ->
     parseAIResponse Props.sampleParse other =
       match Props.sampleParse (trim other) with
       | Ok parsed => isValidAnalysisResult parsed
       | Throw _ => None
       end).
Proof.
  apply (parseAIResponse_between_braces Props.sampleParse
           "```json {status: {x}} ``` " (lit "```json ") (lit "status: {x}")
           (lit " ```")); reflexivity.
Defined.

(** X12. The service is available exactly when the key is set, not empty
    and not the placeholder; when it is not available, analyzing returns
    null whatever the remote model would answer. *)
Theorem service_availability (apiKey : option str) :
  (isAvailable (newService apiKey) = true <->
   exists key, apiKey = Some key /\ key <> [] /\ key <> placeholderKey) /\
  (isAvailable (newService apiKey) = false ->
   forall generateContent JSON_parse ed,
     analyzeEmail generateContent JSON_parse (newService apiKey) ed = None).
Proof.
  split.
  - unfold isAvailable, newService. destruct apiKey as [key |].
    + destruct (nonempty key && negb (str_eqb key placeholderKey)) eqn:E;
        cbn; split.
      * intros _. exists key. apply andb_true_iff in E. destruct E as [E1 E2].
        apply negb_true_iff in E2. repeat split.
        -- now destruct key.
        -- intros ->. now rewrite str_eqb_refl in E2.
      * reflexivity.
      * discriminate.
      * intros (k & [= <-] & Hne & Hph). exfalso.
        apply andb_false_iff in E. destruct E as [E | E].
        -- now destruct key.
        -- apply negb_false_iff, str_eqb_true in E. contradiction.
    + cbn. split; [discriminate |]. intros (k & H & _). discriminate.
  - unfold isAvailable, analyzeEmail. now intros ->.
Qed.

Lemma service_availability_witness :
  isAvailable (newService (Some placeholderKey)) = false /\
  analyzeEmail (fun _ => Ok (lit "{}")) (fun _ => Ok (JObj []))
               (newService (Some placeholderKey))
               {| subject := []; from := []; content := [] |} = None.
Proof.
  split; [reflexivity |].
  apply (proj2 (service_availability (Some placeholderKey))). reflexivity.
Defined.

End AiServiceExamples.

(* ===================================================================== *)
(** ** Further properties: batch recategorization *)
(* ===================================================================== *)

Section RunFacts.

Import Recat.

Variable clock : nat -> Z.
Variable updateDoc : str -> gmap string value -> result unit.

Lemma analyzeJobWithAI_reasoning (job : JobData) :
  nonempty (reasoning (fst (analyzeJobWithAI job))) = true.
Proof.
  unfold analyzeJobWithAI.
  destruct (negb (truthy (emailSubject job)) && negb (truthy (emailFrom job)));
    [reflexivity |].
  unfold analyzeJobWithPatterns. cbn [fst reasoning].
  repeat match goal with
         | |- context [if ?b then _ else _] => destruct b
         end; reflexivity.
Qed.

Lemma analyzeJobWithAI_logs (job : JobData) :
  Props.countUpdates (snd (analyzeJobWithAI job)) = 0 /\
  Forall (Props.updateOf job) (snd (analyzeJobWithAI job)).
Proof.
  unfold analyzeJobWithAI.
  destruct (negb (truthy (emailSubject job)) && negb (truthy (emailFrom job)));
    cbn; split; repeat constructor.
Qed.

(** The loop body after the gate, with what the analysis cannot do left
    out: it never proposes a company or a job title, and never answers
    with method ai. *)
Lemma analyzeAndUpdate_eq (mode : Mode) (job : JobData) (st : loopState) :
  analyzeAndUpdate clock updateDoc mode job st =
    let a := fst (analyzeJobWithAI job) in
    let base := Props.analysed job st in
    if negb (status_eqb (newStatus a) (status job)) then
      match mode with
      | update =>
          let u := buildUpdates (clock (reads st)) job a true false false in
          let st1 :=
            emit [UpdateDoc (id job) u]
                 (onResult (pushChange (changeOf job a))
                           (snd (tick clock base))) in
          match updateDoc (id job) u with
          | Ok _ => (onResult incUpdated st1, Ok tt)
          | Throw e => (st1, Throw e)
          end
      | analyze => (onResult (pushChange (changeOf job a)) base, Ok tt)
      end
    else (base, Ok tt).
Proof.
  unfold analyzeAndUpdate, Props.analysed.
  pose proof (analyzeJobWithAI_method job) as Hm.
  pose proof (analyzeJobWithAI_keeps job) as [Hc Ht].
  destruct (analyzeJobWithAI job) as [a logs]. cbn [fst snd] in *.
  rewrite Hc, Ht, !str_eqb_refl. cbn [negb]. rewrite !andb_false_r, !orb_false_r.
  cbv zeta.
  destruct (negb (status_eqb (newStatus a) (status job))).
  - destruct mode.
    + destruct Hm as [-> | ->]; reflexivity.
    + destruct Hm as [-> | ->]; cbn [tick fst snd trackMethod];
        destruct (updateDoc _ _); reflexivity.
  - destruct Hm as [-> | ->]; reflexivity.
Qed.

Lemma status_eqb_true (a b : Status) : status_eqb a b = true <-> a = b.
Proof. destruct a, b; cbn; split; intros H; (reflexivity || discriminate). Qed.

Lemma changed_means_regex (job : JobData) :
  status_eqb (newStatus (fst (analyzeJobWithAI job))) (status job) = false ->
  method (fst (analyzeJobWithAI job)) = regex.
Proof.
  unfold analyzeJobWithAI.
  destruct (negb (truthy (emailSubject job)) && negb (truthy (emailFrom job)));
    [| reflexivity].
  cbn. intros H. exfalso. apply not_true_iff_false in H. apply H.
  now apply status_eqb_true.
Qed.

Lemma countUpdates_app (l1 l2 : list event) :
  Props.countUpdates (l1 ++ l2) = Props.countUpdates l1 + Props.countUpdates l2.
Proof. unfold Props.countUpdates. now rewrite List.filter_app, List.length_app. Qed.

Lemma countUpdates_cons (e : event) (l : list event) :
  Props.countUpdates (e :: l) =
    (if Props.isUpdate e then 1 else 0) + Props.countUpdates l.
Proof. unfold Props.countUpdates. cbn. now destruct (Props.isUpdate e). Qed.

Lemma buildUpdates_fields (now : Z) (job : JobData) :
  status_eqb (newStatus (fst (analyzeJobWithAI job))) (status job) = false ->
  Props.updateOf job
    (UpdateDoc (id job)
       (buildUpdates now job (fst (analyzeJobWithAI job)) true false false)).
Proof.
  intros Hch. cbn [Props.updateOf]. unfold buildUpdates.
  rewrite (analyzeJobWithAI_reasoning job), (changed_means_regex job Hch).
  split; [reflexivity | split; [| split; [| split]]].
  - unfold Props.updateFields. rewrite !dom_insert_L, dom_empty_L. set_solver.
  - now simplify_map_eq.
  - now simplify_map_eq.
  - intros Heq. apply status_eqb_true in Heq. congruence.
Qed.

Lemma analysed_shape (job : JobData) (s0 : loopState) :
  trace (Props.analysed job s0) =
    trace s0 ++
    LogAnalyzing (companyName job) (jobTitle job) (status job)
      :: snd (analyzeJobWithAI job) /\
  reads (Props.analysed job s0) = reads s0 /\
  totalJobs (res (Props.analysed job s0)) = totalJobs (res s0) /\
  analyzedJobs (res (Props.analysed job s0)) = S (analyzedJobs (res s0)) /\
  regexFallback (res (Props.analysed job s0))
    + skipped (res (Props.analysed job s0))
    = S (regexFallback (res s0) + skipped (res s0)) /\
  aiAnalyzed (res (Props.analysed job s0)) = aiAnalyzed (res s0) /\
  updatedJobs (res (Props.analysed job s0)) = updatedJobs (res s0) /\
  errors (res (Props.analysed job s0)) = errors (res s0) /\
  statusChanges (res (Props.analysed job s0)) = statusChanges (res s0).
Proof.
  unfold Props.analysed.
  destruct (analyzeJobWithAI_method job) as [-> | ->]; cbn;
    rewrite <- ?app_assoc; repeat split; lia.
Qed.

#[local] Ltac finish :=
  repeat match goal with
         | |- _ /\ _ => split
         | |- _ -> _ => intro
         end;
  try discriminate; try lia; try reflexivity; auto.

(** One iteration of the loop, in numbers. *)
Lemma processJob_step (mode : Mode) (forceUpdate : bool) (job : JobData)
    (st : loopState) :
  let st' := processJob clock updateDoc mode forceUpdate job st in
  totalJobs (res st') = totalJobs (res st) /\
  regexFallback (res st') + skipped (res st')
    = S (regexFallback (res st) + skipped (res st)) /\
  analyzedJobs (res st') <= S (analyzedJobs (res st)) /\
  (forceUpdate = true -> analyzedJobs (res st') = S (analyzedJobs (res st))) /\
  exists evs,
    trace st' = trace st ++ evs /\
    Forall (Props.updateOf job) evs /\
    updatedJobs (res st') + length (errors (res st'))
      = updatedJobs (res st) + length (errors (res st))
        + Props.countUpdates evs /\
    (mode = analyze ->
     Props.countUpdates evs = 0 /\
     updatedJobs (res st') = updatedJobs (res st) /\
     errors (res st') = errors (res st)) /\
    (mode = update ->
     length (statusChanges (res st'))
       = length (statusChanges (res st)) + Props.countUpdates evs).
Proof.
  assert (Hgo : forall s0,
    let st' :=
      match analyzeAndUpdate clock updateDoc mode job s0 with
      | (s1, Ok _) => s1
      | (s1, Throw e) =>
          onResult (pushError (lit "Failed to process job " ++ id job ++
                               lit ": " ++ e)) s1
      end in
    totalJobs (res st') = totalJobs (res s0) /\
    regexFallback (res st') + skipped (res st')
      = S (regexFallback (res s0) + skipped (res s0)) /\
    analyzedJobs (res st') = S (analyzedJobs (res s0)) /\
    exists evs,
      trace st' = trace s0 ++ evs /\
      Forall (Props.updateOf job) evs /\
      updatedJobs (res st') + length (errors (res st'))
        = updatedJobs (res s0) + length (errors (res s0))
          + Props.countUpdates evs /\
      (mode = analyze ->
       Props.countUpdates evs = 0 /\
       updatedJobs (res st') = updatedJobs (res s0) /\
       errors (res st') = errors (res s0)) /\
      (mode = update ->
       length (statusChanges (res st'))
         = length (statusChanges (res s0)) + Props.countUpdates evs)).
  { intros s0. rewrite analyzeAndUpdate_eq. cbv zeta.
    destruct (analysed_shape job s0)
      as (Htr & Hrd & Htot & Han & Hsum & _ & Hup & Herr & Hsc).
    destruct (analyzeJobWithAI_logs job) as [Hl0 HlF].
    destruct (negb (status_eqb _ (status job))) eqn:Ech.
    - apply negb_true_iff in Ech.
      pose proof (buildUpdates_fields (clock (reads s0)) job Ech) as Hu.
      destruct mode.
      + cbn. rewrite Htot, Han, Hup, Herr, Hsc. finish.
        eexists. split; [exact Htr |].
        rewrite countUpdates_cons, Hl0. cbn.
        split; [constructor; [exact I | exact HlF] |].
        finish.
      + cbn [tick snd].
        destruct (updateDoc _ _) as [u | e]; cbn;
          rewrite Htot, Han, Hup, Herr, Hsc, Htr, ?length_app; cbn;
          finish;
          (eexists; split; [rewrite <- app_assoc; reflexivity |]);
          cbn [app];
          rewrite countUpdates_cons, countUpdates_app, Hl0; cbn;
          (split; [constructor; [exact I |]; apply Forall_app; split;
                   [exact HlF | constructor; [exact Hu | constructor]] |]);
          finish.
    - rewrite Htot, Han, Hup, Herr, Hsc. finish.
      eexists. split; [exact Htr |].
      rewrite countUpdates_cons, Hl0. cbn.
      split; [constructor; [exact I | exact HlF] |].
      finish. }
  unfold processJob. destruct forceUpdate; cbn [negb].
  - destruct (Hgo st) as (H1 & H2 & H3 & H4). finish.
  - destruct (lastAnalyzed job) as [t |].
    + cbn [tick]. destruct (analyzedRecently _ t).
      * cbn. finish.
        exists [LogSkipping (companyName job)].
        finish; repeat constructor.
      * destruct (Hgo {| res := res st; trace := trace st;
                         reads := S (reads st) |}) as (H1 & H2 & H3 & H4).
        cbn in *. finish.
    + destruct (Hgo st) as (H1 & H2 & H3 & H4). finish.
Qed.

Lemma updateOf_from (jobs : list JobData) (job : JobData) (evs : list event) :
  In job jobs -> Forall (Props.updateOf job) evs ->
  Forall (Props.updateFrom jobs) evs.
Proof.
  intros Hin. apply List.Forall_impl. intros [| | | doc u |] H; try exact I.
  exists job. now split.
Qed.

Lemma updateFrom_mono (jobs more : list JobData) (evs : list event) :
  (forall job, In job jobs -> In job more) ->
  Forall (Props.updateFrom jobs) evs -> Forall (Props.updateFrom more) evs.
Proof.
  intros Hsub. apply List.Forall_impl. intros [| | | doc u |] H; try exact I.
  destruct H as (job & Hin & H). exists job. split; [now apply Hsub | exact H].
Qed.

(** The whole loop, in numbers. *)
Lemma runLoop_counts (mode : Mode) (forceUpdate : bool) (jobs : list JobData)
    (st : loopState) :
  let st' := runLoop clock updateDoc mode forceUpdate jobs st in
  totalJobs (res st') = totalJobs (res st) /\
  regexFallback (res st') + skipped (res st')
    = regexFallback (res st) + skipped (res st) + length jobs /\
  analyzedJobs (res st') <= analyzedJobs (res st) + length jobs /\
  (forceUpdate = true ->
   analyzedJobs (res st') = analyzedJobs (res st) + length jobs) /\
  exists evs,
    trace st' = trace st ++ evs /\
    Forall (Props.updateFrom jobs) evs /\
    updatedJobs (res st') + length (errors (res st'))
      = updatedJobs (res st) + length (errors (res st))
        + Props.countUpdates evs /\
    (mode = analyze ->
     Props.countUpdates evs = 0 /\
     updatedJobs (res st') = updatedJobs (res st) /\
     errors (res st') = errors (res st)) /\
    (mode = update ->
     length (statusChanges (res st'))
       = length (statusChanges (res st)) + Props.countUpdates evs).
Proof.
  revert st. induction jobs as [| job jobs IH]; intros st.
  - cbn. finish. exists []. rewrite app_nil_r. cbn. finish.
  - cbn [runLoop fold_left length].
    pose proof (processJob_step mode forceUpdate job st) as Hs.
    cbv zeta in Hs.
    destruct Hs as (Ht1 & Hs1 & Ha1 & Hf1 & evs1 & Htr1 & Hu1 & Hw1 & Hz1 & Hc1).
    specialize (IH (processJob clock updateDoc mode forceUpdate job st)).
    cbv zeta in IH. unfold runLoop in IH.
    destruct IH as (Ht2 & Hs2 & Ha2 & Hf2 & evs2 & Htr2 & Hu2 & Hw2 & Hz2 & Hc2).
    split; [congruence |]. split; [lia |]. split; [lia |].
    split; [intros Hf; rewrite (Hf2 Hf), (Hf1 Hf); lia |].
    exists (evs1 ++ evs2).
    split; [rewrite Htr2, Htr1; now rewrite app_assoc |].
    split.
    { apply Forall_app. split.
      - apply (updateOf_from _ job); [now left | exact Hu1].
      - apply (updateFrom_mono jobs); [intros j Hj; now right | exact Hu2]. }
    rewrite countUpdates_app.
    split; [lia |]. split.
    + intros Hm. destruct (Hz1 Hm) as (? & ? & ?), (Hz2 Hm) as (? & ? & ?).
      split; [lia |]. split; congruence.
    + intros Hm. specialize (Hc1 Hm). specialize (Hc2 Hm). lia.
Qed.

(** The run on a snapshot that could be read. *)
Lemma run_counts (mode : Mode) (forceUpdate : bool) (jobs : list JobData) :
  exists (r : RecategorizationResult) (tr : list event),
    runRecategorization clock updateDoc (Ok jobs) mode forceUpdate
      = Ok (r, tr) /\
    totalJobs r = length jobs /\
    regexFallback r + skipped r = length jobs /\
    analyzedJobs r <= length jobs /\
    (forceUpdate = true -> analyzedJobs r = length jobs) /\
    Forall (Props.updateFrom jobs) tr /\
    updatedJobs r + length (errors r) = Props.countUpdates tr /\
    (mode = analyze ->
     Props.countUpdates tr = 0 /\ updatedJobs r = 0 /\ errors r = []) /\
    (mode = update -> length (statusChanges r) = Props.countUpdates tr).
Proof.
  unfold runRecategorization. destruct jobs as [| job jobs].
  - exists (emptyResult 0), []. cbn. finish.
  - remember (job :: jobs) as js eqn:Ejs.
    pose proof (runLoop_counts mode forceUpdate js (initialState (length js)))
      as H.
    cbv zeta in H. cbn [initialState res trace emptyResult totalJobs
      regexFallback skipped analyzedJobs updatedJobs errors statusChanges
      length app] in H.
    destruct H as (Ht & Hs & Ha & Hf & evs & Htr & Hu & Hw & Hz & Hc).
    eexists _, _. split; [reflexivity |].
    rewrite Htr. cbn [app].
    split; [exact Ht |]. split; [lia |]. split; [lia |].
    split; [intros Hf'; rewrite (Hf Hf'); lia |].
    split; [exact Hu |]. split; [lia |]. split.
    + intros Hm. destruct (Hz Hm) as (? & ? & ?). finish.
    + intros Hm. rewrite (Hc Hm). reflexivity.
Qed.

(** X13. A run over a snapshot that could be read returns a result in
    which every record is counted once, as analysed by the patterns or as
    skipped; no more records are analysed than were read; and every update
    sent to the store is counted once, as an updated record or as an
    error. *)
Theorem run_accounts_for_every_record (mode : Mode) (forceUpdate : bool)
    (jobs : list JobData) :
  exists (r : RecategorizationResult) (tr : list event),
    runRecategorization clock updateDoc (Ok jobs) mode forceUpdate
      = Ok (r, tr) /\
    totalJobs r = length jobs /\
    regexFallback r + skipped r = totalJobs r /\
    analyzedJobs r <= totalJobs r /\
    updatedJobs r + length (errors r) = Props.countUpdates tr.
Proof.
  destruct (run_counts mode forceUpdate jobs)
    as (r & tr & Hrun & Ht & Hs & Ha & _ & _ & Hw & _).
  exists r, tr. rewrite Ht. auto.
Qed.

(** X14. In mode [analyze] the run sends no update to the store, counts no
    updated record and reports no error, whatever the records are. *)
Theorem analyze_mode_never_writes (forceUpdate : bool) (jobs : list JobData) :
  exists (r : RecategorizationResult) (tr : list event),
    runRecategorization clock updateDoc (Ok jobs) analyze forceUpdate
      = Ok (r, tr) /\
    Props.countUpdates tr = 0 /\ updatedJobs r = 0 /\ errors r = [].
Proof.
  destruct (run_counts analyze forceUpdate jobs)
    as (r & tr & Hrun & _ & _ & _ & _ & _ & _ & Hz & _).
  exists r, tr. split; [exact Hrun | exact (Hz eq_refl)].
Qed.

(** X15. In mode [update] every update sent to the store is the update of
    a record of the snapshot whose analysed status differs from the stored
    one: it is addressed to that record, writes the five fields
    lastAnalyzed, analysisMethod, confidence, status and analysisReasoning
    and no other (so never companyName or jobTitle), records the method
    regex and sets the analysed status.  The result lists as many status
    changes as updates were sent. *)
Theorem update_mode_writes_status_changes (forceUpdate : bool)
    (jobs : list JobData) :
  exists (r : RecategorizationResult) (tr : list event),
    runRecategorization clock updateDoc (Ok jobs) update forceUpdate
      = Ok (r, tr) /\
    Forall (Props.updateFrom jobs) tr /\
    length (statusChanges r) = Props.countUpdates tr.
Proof.
  destruct (run_counts update forceUpdate jobs)
    as (r & tr & Hrun & _ & _ & _ & _ & Hu & _ & _ & Hc).
  exists r, tr. split; [exact Hrun |]. split; [exact Hu | exact (Hc eq_refl)].
Qed.




End RunFacts.

Section AnalysisFacts.

Import Recat.

(** X17. When the analysis of a record proposes a status other than the
    stored one, it comes from the patterns, its confidence is at least
    0.6, and the proposed status is never ghosted. *)
Theorem proposed_change_is_confident (job : JobData) :
  newStatus (fst (analyzeJobWithAI job)) <> status job ->
  method (fst (analyzeJobWithAI job)) = regex /\
  (6 # 10 <= confidence (fst (analyzeJobWithAI job)))%Q /\
  newStatus (fst (analyzeJobWithAI job)) <> ghosted.
Proof.
  unfold analyzeJobWithAI, analyzeJobWithPatterns.
  destruct (negb (truthy (emailSubject job)) && negb (truthy (emailFrom job)));
    cbn [fst newStatus method confidence p_status p_confidence];
    [intros H; now destruct H |].
  repeat match goal with
         | |- context [if ?b then _ else _] => destruct b
         end;
    cbn [fst newStatus method confidence p_status p_confidence];
    intros H; (repeat split; try discriminate; try (now destruct H)).
Qed.

Lemma proposed_change_is_confident_witness :
  method (fst (analyzeJobWithAI Examples.rejectedJob)) = regex /\
  (6 # 10 <= confidence (fst (analyzeJobWithAI Examples.rejectedJob)))%Q /\
  newStatus (fst (analyzeJobWithAI Examples.rejectedJob)) <> ghosted.
Proof.
  apply (proposed_change_is_confident Examples.rejectedJob).
  vm_compute. discriminate.
Defined.

End AnalysisFacts.

Section RunRelations.

Import Recat.

Variable clock : nat -> Z.
Variables updateDoc1 updateDoc2 : str -> gmap string value -> result unit.

(** The loop body after the gate decides the same under two stores and
    two modes. *)
Lemma afterGate_decisions (mode1 mode2 : Mode) (job : JobData)
    (s1 s2 : loopState) :
  Props.sameDecisions (res s1) (res s2) ->
  Props.sameDecisions
    (res match analyzeAndUpdate clock updateDoc1 mode1 job s1 with
         | (s, Ok _) => s
         | (s, Throw e) =>
             onResult (pushError (lit "Failed to process job " ++ id job ++
                                  lit ": " ++ e)) s
         end)
    (res match analyzeAndUpdate clock updateDoc2 mode2 job s2 with
         | (s, Ok _) => s
         | (s, Throw e) =>
             onResult (pushError (lit "Failed to process job " ++ id job ++
                                  lit ": " ++ e)) s
         end).
Proof.
  unfold Props.sameDecisions. intros (Ht & Ha & Hai & Hr & Hs & Hc).
  rewrite !analyzeAndUpdate_eq. cbv zeta. unfold Props.analysed.
  destruct (analyzeJobWithAI_method job) as [-> | ->];
    destruct (negb (status_eqb _ (status job)));
    destruct mode1, mode2; cbn [tick snd];
    try destruct (updateDoc1 _ _); try destruct (updateDoc2 _ _); cbn;
    rewrite ?Ht, ?Ha, ?Hai, ?Hr, ?Hs, ?Hc; repeat split; reflexivity.
Qed.


Lemma processJob_decisions (mode1 mode2 : Mode) (forceUpdate : bool)
    (job : JobData) (s1 s2 : loopState) :
  forceUpdate = true \/ clock (reads s1) = clock (reads s2) ->
  Props.sameDecisions (res s1) (res s2) ->
  Props.sameDecisions
    (res (processJob clock updateDoc1 mode1 forceUpdate job s1))
    (res (processJob clock updateDoc2 mode2 forceUpdate job s2)).
Proof.
  intros Hgate Hsame. unfold processJob.
  destruct forceUpdate; cbn [negb].
  - now apply afterGate_decisions.
  - destruct Hgate as [Hf | Hclk]; [discriminate |].
    destruct (lastAnalyzed job) as [t |]; [| now apply afterGate_decisions].
    cbn [tick]. rewrite Hclk.
    destruct (analyzedRecently (clock (reads s2)) t).
    + cbn. unfold Props.sameDecisions in *. cbn.
      destruct Hsame as (Ht & Ha & Hai & Hr & Hs & Hc).
      rewrite Ht, Ha, Hai, Hr, Hs, Hc. repeat split; reflexivity.
    + now apply afterGate_decisions.
Qed.



Lemma runLoop_modes (mode1 mode2 : Mode) (forceUpdate : bool)
    (jobs : list JobData) (s1 s2 : loopState) :
  forceUpdate = true \/ (forall n m, clock n = clock m) ->
  Props.sameDecisions (res s1) (res s2) ->
  Props.sameDecisions
    (res (runLoop clock updateDoc1 mode1 forceUpdate jobs s1))
    (res (runLoop clock updateDoc2 mode2 forceUpdate jobs s2)).
Proof.
  intros Hgate. revert s1 s2.
  induction jobs as [| job jobs IH]; intros s1 s2 Hsame; [exact Hsame |].
  cbn [runLoop fold_left]. apply IH.
  apply processJob_decisions; [| exact Hsame].
  destruct Hgate as [Hf | Hclk]; [now left | right; apply Hclk].
Qed.

Lemma sameDecisions_refl (r : RecategorizationResult) :
  Props.sameDecisions r r.
Proof. unfold Props.sameDecisions. repeat split; reflexivity. Qed.


(** X19. A dry run predicts the update run: when [forceUpdate] is set, or
    the clock does not move during the runs, a run in mode [analyze] and a
    run in mode [update] over the same snapshot report the same status
    changes and the same counts of analysed and skipped records, whatever
    the store answers. *)
Theorem dry_run_predicts_update (forceUpdate : bool) (jobs : list JobData) :
  forceUpdate = true \/ (forall n m, clock n = clock m) ->
  exists (r1 r2 : RecategorizationResult) (tr1 tr2 : list event),
    runRecategorization clock updateDoc1 (Ok jobs) analyze forceUpdate
      = Ok (r1, tr1) /\
    runRecategorization clock updateDoc2 (Ok jobs) update forceUpdate
      = Ok (r2, tr2) /\
    Props.sameDecisions r1 r2.
Proof.
  intros Hgate. unfold runRecategorization. destruct jobs as [| job jobs].
  - exists (emptyResult 0), (emptyResult 0), [], [].
    repeat split; reflexivity.
  - remember (job :: jobs) as js eqn:Ejs.
    eexists _, _, _, _. split; [reflexivity |]. split; [reflexivity |].
    apply runLoop_modes; [exact Hgate | apply sameDecisions_refl].
Qed.

End RunRelations.

Section RunExamples.

Import Recat.

Lemma dry_run_predicts_update_witness :
  exists (r1 r2 : RecategorizationResult) (tr1 tr2 : list event),
    runRecategorization Examples.twoDaysLater Examples.acceptAll
      (Ok [Examples.rejectedJob; Examples.recentJob]) analyze true
      = Ok (r1, tr1) /\
    runRecategorization Examples.twoDaysLater Props.refuseAll
      (Ok [Examples.rejectedJob; Examples.recentJob]) update true
      = Ok (r2, tr2) /\
    Props.sameDecisions r1 r2.
Proof.
  apply (dry_run_predicts_update Examples.twoDaysLater Examples.acceptAll
           Props.refuseAll true
           [Examples.rejectedJob; Examples.recentJob]).
  left. reflexivity.
Defined.

End RunExamples.

(* ===================================================================== *)
(** ** Further properties: statistics and the run they announce *)
(* ===================================================================== *)

Section StatsFacts.

Import Recat.

Variable clock : nat -> Z.
Variable updateDoc : str -> gmap string value -> result unit.

(** One iteration of the loop on the counters of the analysis: [gate] tells
    whether the staleness gate skips the record. *)
Lemma processJob_counters (mode : Mode) (forceUpdate : bool) (job : JobData)
    (st : loopState) :
  let st' := processJob clock updateDoc mode forceUpdate job st in
  let gate :=
    negb forceUpdate &&
    match lastAnalyzed job with
    | Some t => analyzedRecently (clock (reads st)) t
    | None => false
    end in
  analyzedJobs (res st') = (if gate then 0 else 1) + analyzedJobs (res st) /\
  regexFallback (res st')
    = (if gate then 0 else if Stats.hasEmailData job then 1 else 0)
      + regexFallback (res st) /\
  skipped (res st')
    = (if gate then 1 else if Stats.hasEmailData job then 0 else 1)
      + skipped (res st) /\
  exists evs,
    trace st' = trace st ++ evs /\
    Props.countUpdates evs <= (if gate then 0 else 1) /\
    length (statusChanges (res st'))
      <= (if gate then 0 else 1) + length (statusChanges (res st)).
Proof.
  assert (Hgo : forall s0,
    let st' :=
      match analyzeAndUpdate clock updateDoc mode job s0 with
      | (s1, Ok _) => s1
      | (s1, Throw e) =>
          onResult (pushError (lit "Failed to process job " ++ id job ++
                               lit ": " ++ e)) s1
      end in
    analyzedJobs (res st') = 1 + analyzedJobs (res s0) /\
    regexFallback (res st')
      = (if Stats.hasEmailData job then 1 else 0) + regexFallback (res s0) /\
    skipped (res st')
      = (if Stats.hasEmailData job then 0 else 1) + skipped (res s0) /\
    exists evs,
      trace st' = trace s0 ++ evs /\
      Props.countUpdates evs <= 1 /\
      length (statusChanges (res st')) <= 1 + length (statusChanges (res s0))).
  { intros s0. rewrite analyzeAndUpdate_eq. cbv zeta.
    unfold Props.analysed, analyzeJobWithAI, Stats.hasEmailData.
    rewrite <- negb_orb.
    destruct (truthy (emailSubject job) || truthy (emailFrom job));
      cbn [negb fst snd method newStatus trackMethod];
      destruct (negb (status_eqb _ (status job)));
      destruct mode; cbn [tick snd];
      try destruct (updateDoc _ _); cbn;
      rewrite ?length_app; cbn;
      (split; [reflexivity |]); (split; [reflexivity |]);
      (split; [reflexivity |]);
      (eexists; split; [rewrite <- ?app_assoc; reflexivity |]);
      rewrite ?countUpdates_cons, ?countUpdates_app; cbn; split; lia. }
  unfold processJob. destruct forceUpdate; cbn [negb andb].
  - apply Hgo.
  - destruct (lastAnalyzed job) as [t |]; [| apply Hgo].
    cbn [tick]. destruct (analyzedRecently _ t).
    + cbn. repeat split.
      exists [LogSkipping (companyName job)]. cbn. repeat split; lia.
    + apply (Hgo {| res := res st; trace := trace st;
                    reads := S (reads st) |}).
Qed.

(** The loop sends no more updates and lists no more status changes than
    it analyses records. *)
Lemma runLoop_bounded (mode : Mode) (forceUpdate : bool) (jobs : list JobData)
    (st : loopState) :
  let st' := runLoop clock updateDoc mode forceUpdate jobs st in
  analyzedJobs (res st) <= analyzedJobs (res st') /\
  exists evs,
    trace st' = trace st ++ evs /\
    Props.countUpdates evs + analyzedJobs (res st) <= analyzedJobs (res st') /\
    length (statusChanges (res st')) + analyzedJobs (res st)
      <= length (statusChanges (res st)) + analyzedJobs (res st').
Proof.
  revert st. induction jobs as [| job jobs IH]; intros st.
  - cbn. split; [lia |]. exists []. rewrite app_nil_r. cbn.
    split; [reflexivity | lia].
  - cbn [runLoop fold_left].
    pose proof (processJob_counters mode forceUpdate job st) as Hs.
    cbv zeta in Hs. destruct Hs as (Ha & _ & _ & evs1 & Htr1 & Hu1 & Hc1).
    specialize (IH (processJob clock updateDoc mode forceUpdate job st)).
    cbv zeta in IH. unfold runLoop in IH.
    destruct IH as (Ha2 & evs2 & Htr2 & Hu2 & Hc2).
    split; [lia |]. exists (evs1 ++ evs2).
    split; [rewrite Htr2, Htr1; now rewrite app_assoc |].
    rewrite countUpdates_app. lia.
Qed.



End StatsFacts.

Section StatsAndRun.

Import Recat.

Variables statsClock clock : nat -> Z.
Variable updateDoc : str -> gmap string value -> result unit.

Lemma runLoop_forced_stats (mode : Mode) (jobs : list JobData)
    (st : loopState) (acc : Stats.RecategorizationStats * nat) :
  let st' := runLoop clock updateDoc mode true jobs st in
  let s := fst acc in
  let s' := fst (fold_left (Stats.countJob statsClock) jobs acc) in
  regexFallback (res st') + Stats.jobsWithEmailData s
    = regexFallback (res st) + Stats.jobsWithEmailData s' /\
  skipped (res st') + Stats.jobsWithoutEmailData s
    = skipped (res st) + Stats.jobsWithoutEmailData s' /\
  analyzedJobs (res st') = analyzedJobs (res st) + length jobs.
Proof.
  revert st acc. induction jobs as [| job jobs IH]; intros st [s n].
  - cbn. lia.
  - cbn [runLoop fold_left length].
    specialize (IH (processJob clock updateDoc mode true job st)
                   (Stats.countJob statsClock (s, n) job)).
    cbv zeta in IH. unfold runLoop in IH. destruct IH as (IH1 & IH2 & IH3).
    pose proof (processJob_counters clock updateDoc mode true job st) as Hs.
    cbv zeta in Hs. cbn [negb andb] in Hs. destruct Hs as (Ha & Hr & Hk & _).
    cbv zeta. cbn [fst].
    assert (Hw : Stats.jobsWithEmailData
                   (fst (Stats.countJob statsClock (s, n) job))
                 = (if Stats.hasEmailData job then 1 else 0)
                   + Stats.jobsWithEmailData s).
    { unfold Stats.countJob. destruct (lastAnalyzed job) as [t |];
        destruct (Stats.hasEmailData job); reflexivity. }
    assert (Hwo : Stats.jobsWithoutEmailData
                    (fst (Stats.countJob statsClock (s, n) job))
                  = (if Stats.hasEmailData job then 0 else 1)
                    + Stats.jobsWithoutEmailData s).
    { unfold Stats.countJob. destruct (lastAnalyzed job) as [t |];
        destruct (Stats.hasEmailData job); reflexivity. }
    lia.
Qed.

(** X21. The potential impact that the statistics announce is what a
    forced run does: over the same snapshot, a run with [forceUpdate]
    analyses every record whatever its [lastAnalyzed] is, by the patterns
    exactly the records counted with e-mail data, and counts as skipped
    exactly those counted without, whatever the clocks and the store. *)
Theorem forced_run_matches_stats (mode : Mode) (jobs : list JobData) :
  exists reply r tr,
    Stats.getRecategorizationStats statsClock (Ok jobs) = Ok reply /\
    runRecategorization clock updateDoc (Ok jobs) mode true = Ok (r, tr) /\
    analyzedJobs r = length jobs /\
    regexFallback r = Stats.potentialImpact (Stats.recommendations reply) /\
    regexFallback r = Stats.jobsWithEmailData (Stats.stats reply) /\
    skipped r = Stats.jobsWithoutEmailData (Stats.stats reply).
Proof.
  unfold runRecategorization, Stats.getRecategorizationStats.
  destruct jobs as [| job jobs].
  - eexists _, _, _. repeat split.
  - remember (job :: jobs) as js eqn:Ejs.
    eexists _, _, _. split; [reflexivity |]. split; [reflexivity |].
    cbn [Stats.stats Stats.recommendations Stats.potentialImpact].
    pose proof (runLoop_forced_stats mode js (initialState (length js))
                  (Stats.emptyStats (length js), 0)) as H.
    cbv zeta in H. cbn [fst initialState res emptyResult regexFallback skipped
      analyzedJobs Stats.emptyStats Stats.jobsWithEmailData
      Stats.jobsWithoutEmailData] in H.
    unfold Stats.collect. lia.
Qed.

End StatsAndRun.

Section StatsAndStaleness.

Import Recat.

Variable clock : nat -> Z.
Variable updateDoc : str -> gmap string value -> result unit.
Hypothesis frozen : forall n m, clock n = clock m.

Lemma runLoop_stale_stats (mode : Mode) (jobs : list JobData)
    (st : loopState) (acc : Stats.RecategorizationStats * nat) :
  let st' := runLoop clock updateDoc mode false jobs st in
  let s := fst acc in
  let s' := fst (fold_left (Stats.countJob clock) jobs acc) in
  analyzedJobs (res st') + Stats.needsAnalysis s
    = analyzedJobs (res st) + Stats.needsAnalysis s'.
Proof using frozen.
  revert st acc. induction jobs as [| job jobs IH]; intros st [s n].
  - cbn. lia.
  - cbn [runLoop fold_left].
    specialize (IH (processJob clock updateDoc mode false job st)
                   (Stats.countJob clock (s, n) job)).
    cbv zeta in IH. unfold runLoop in IH.
    pose proof (processJob_counters clock updateDoc mode false job st) as Hs.
    cbv zeta in Hs. cbn [negb andb] in Hs. destruct Hs as (Ha & _).
    cbv zeta. cbn [fst].
    assert (Hn : Stats.needsAnalysis (fst (Stats.countJob clock (s, n) job))
                 = (if match lastAnalyzed job with
                       | Some t => analyzedRecently (clock (reads st)) t
                       | None => false
                       end then 0 else 1)
                   + Stats.needsAnalysis s).
    { unfold Stats.countJob. destruct (lastAnalyzed job) as [t |].
      - rewrite (frozen (reads st) n). cbn [fst Stats.needsAnalysis].
        destruct (analyzedRecently (clock n) t); reflexivity.
      - reflexivity. }
    lia.
Qed.

(** X22. When the clock does not move, the statistics announce the run
    without [forceUpdate]: it analyses exactly the records counted as
    needing analysis.  When the statistics do not recommend a run, it
    analyses no record, sends no update and lists no status change. *)
Theorem stats_announce_run (mode : Mode) (jobs : list JobData) :
  exists reply r tr,
    Stats.getRecategorizationStats clock (Ok jobs) = Ok reply /\
    runRecategorization clock updateDoc (Ok jobs) mode false = Ok (r, tr) /\
    analyzedJobs r = Stats.needsAnalysis (Stats.stats reply) /\
    (Stats.shouldRunRecategorization (Stats.recommendations reply) = false ->
     analyzedJobs r = 0 /\ Props.countUpdates tr = 0 /\
     statusChanges r = []).
Proof using frozen.
  unfold runRecategorization, Stats.getRecategorizationStats.
  destruct jobs as [| job jobs].
  - eexists _, _, _. repeat split.
  - remember (job :: jobs) as js eqn:Ejs.
    eexists _, _, _. split; [reflexivity |]. split; [reflexivity |].
    cbn [Stats.stats Stats.recommendations Stats.shouldRunRecategorization].
    pose proof (runLoop_stale_stats mode js (initialState (length js))
                  (Stats.emptyStats (length js), 0)) as H.
    cbv zeta in H. cbn [fst initialState res emptyResult analyzedJobs
      Stats.emptyStats Stats.needsAnalysis] in H.
    fold (Stats.collect clock js) in H.
    split; [lia |]. intros Hno.
    apply Nat.ltb_ge in Hno.
    destruct (runLoop_bounded clock updateDoc mode false js
                (initialState (length js))) as (_ & evs & Htr & Hu & Hc).
    cbn [initialState res trace emptyResult analyzedJobs statusChanges
      length app] in Htr, Hu, Hc.
    rewrite Htr. split; [lia |]. split; [lia |].
    apply length_zero_iff_nil. lia.
Qed.

End StatsAndStaleness.

Section StatsExamples.

Import Recat.

Lemma stats_announce_run_witness :
  exists reply r tr,
    Stats.getRecategorizationStats Examples.twoDaysLater
      (Ok [Examples.recentJob]) = Ok reply /\
    runRecategorization Examples.twoDaysLater Props.refuseAll
      (Ok [Examples.recentJob]) update false = Ok (r, tr) /\
    analyzedJobs r = Stats.needsAnalysis (Stats.stats reply) /\
    (Stats.shouldRunRecategorization (Stats.recommendations reply) = false ->
     analyzedJobs r = 0 /\ Props.countUpdates tr = 0 /\
     statusChanges r = []).
Proof.
  apply (stats_announce_run Examples.twoDaysLater Props.refuseAll).
  intros n m. reflexivity.
Defined.

End StatsExamples.

Section SimpleStats.

Import Recat.

Variable clock : nat -> Z.

Lemma countJobSimple_fold (jobs : list JobData)
    (s1 : Stats.RecategorizationStats)
    (acc : Stats.RecategorizationStats * nat) :
  Stats.jobsWithEmailData s1 = Stats.jobsWithEmailData (fst acc) ->
  Stats.statusBreakdown s1 = Stats.statusBreakdown (fst acc) ->
  Stats.jobsWithoutEmailData s1
    = Stats.jobsWithoutEmailData (fst acc) + length jobs ->
  let s1' := fold_left Stats.countJobSimple jobs s1 in
  let s2' := fst (fold_left (Stats.countJob clock) jobs acc) in
  Stats.jobsWithEmailData s1' = Stats.jobsWithEmailData s2' /\
  Stats.statusBreakdown s1' = Stats.statusBreakdown s2' /\
  Stats.jobsWithoutEmailData s1' = Stats.jobsWithoutEmailData s2' /\
  Stats.totalJobs s1' = Stats.totalJobs s1 /\
  Stats.recentlyAnalyzed s1' = Stats.recentlyAnalyzed s1 /\
  Stats.needsAnalysis s1' = Stats.needsAnalysis s1.
Proof.
  revert s1 acc. induction jobs as [| job jobs IH]; intros s1 [s2 n];
    cbn [fst length fold_left]; intros Hw Hb Hwo.
  - cbn. repeat split; auto. lia.
  - specialize (IH (Stats.countJobSimple s1 job)
                   (Stats.countJob clock (s2, n) job)).
    cbv zeta in IH |- *.
    destruct IH as (H1 & H2 & H3 & H4 & H5 & H6).
    + unfold Stats.countJob, Stats.countJobSimple.
      destruct (lastAnalyzed job) as [t |]; cbn; now rewrite Hw.
    + unfold Stats.countJob, Stats.countJobSimple.
      destruct (lastAnalyzed job) as [t |]; cbn; now rewrite Hb.
    + unfold Stats.countJob, Stats.countJobSimple.
      destruct (lastAnalyzed job) as [t |]; cbn;
        destruct (Stats.hasEmailData job); lia.
    + rewrite H1, H2, H3, H4, H5, H6. repeat split.
Qed.

(** X23. The simple statistics endpoint counts the records with and
    without e-mail data and the statuses exactly as the service does, but
    it reads no [lastAnalyzed]: it reports every record as needing
    analysis and none as recently analysed, and recommends a run as soon
    as there is a record.  Without a user id it answers 400. *)
Theorem simple_stats_agree (userId : str) (jobs : list JobData) :
  nonempty userId = true ->
  (exists reply,
     Stats.GET (Some userId) (Ok jobs)
       = Stats.Json (lit "Basic recategorization analysis") reply /\
     let s := Stats.stats reply in
     let full := Stats.collect clock jobs in
     Stats.totalJobs s = length jobs /\
     Stats.jobsWithEmailData s = Stats.jobsWithEmailData full /\
     Stats.jobsWithoutEmailData s = Stats.jobsWithoutEmailData full /\
     Stats.statusBreakdown s = Stats.statusBreakdown full /\
     Stats.recentlyAnalyzed s = 0 /\
     Stats.needsAnalysis s = length jobs /\
     Stats.shouldRunRecategorization (Stats.recommendations reply)
       = negb (Nat.eqb (length jobs) 0)) /\
  (forall snapshot,
     Stats.GET None snapshot
       = Stats.Failure 400 (lit "User ID is required") None /\
     Stats.GET (Some []) snapshot
       = Stats.Failure 400 (lit "User ID is required") None).
Proof.
  intros Hid. split; [| intros snapshot; split; reflexivity].
  unfold Stats.GET. cbn [truthy]. rewrite Hid. cbn [negb].
  eexists. split; [reflexivity |].
  cbn [Stats.stats Stats.recommendations Stats.shouldRunRecategorization].
  destruct (countJobSimple_fold jobs (Stats.simpleStats (length jobs))
              (Stats.emptyStats (length jobs), 0) eq_refl eq_refl eq_refl)
    as (H1 & H2 & H3 & H4 & H5 & H6).
  unfold Stats.collect. rewrite H1, H2, H3, H4, H5, H6. cbn.
  repeat split. now destruct (length jobs).
Qed.

End SimpleStats.

Section SimpleStatsExamples.

Import Recat.

Lemma simple_stats_agree_witness :
  (exists reply,
     Stats.GET (Some (lit "user-1"))
       (Ok [Examples.rejectedJob; Examples.manualJob])
       = Stats.Json (lit "Basic recategorization analysis") reply /\
     let s := Stats.stats reply in
     let full :=
       Stats.collect Examples.twoDaysLater
         [Examples.rejectedJob; Examples.manualJob] in
     Stats.totalJobs s = 2 /\
     Stats.jobsWithEmailData s = Stats.jobsWithEmailData full /\
     Stats.jobsWithoutEmailData s = Stats.jobsWithoutEmailData full /\
     Stats.statusBreakdown s = Stats.statusBreakdown full /\
     Stats.recentlyAnalyzed s = 0 /\
     Stats.needsAnalysis s = 2 /\
     Stats.shouldRunRecategorization (Stats.recommendations reply) = true) /\
  (forall snapshot,
     Stats.GET None snapshot
       = Stats.Failure 400 (lit "User ID is required") None /\
     Stats.GET (Some []) snapshot
       = Stats.Failure 400 (lit "User ID is required") None).
Proof.
  apply (simple_stats_agree Examples.twoDaysLater "user-1"
           [Examples.rejectedJob; Examples.manualJob]).
  reflexivity.
Defined.

End SimpleStatsExamples.

(* ===================================================================== *)
(** ** Further properties: the resume analysis fallback *)
(* ===================================================================== *)

Section ResumeFacts.

Import Resume.

Lemma floor_ge (z : Z) (q : Q) : (inject_Z z <= q)%Q -> (z <= floor q)%Z.
Proof.
  destruct q as [n d]. unfold Qle, floor, inject_Z. cbn. intros H.
  apply Z.div_le_lower_bound; lia.
Qed.

Lemma floor_lt (z : Z) (q : Q) : (q < inject_Z z)%Q -> (floor q < z)%Z.
Proof.
  destruct q as [n d]. unfold Qlt, floor, inject_Z. cbn. intros H.
  apply Z.div_lt_upper_bound; lia.
Qed.

Lemma round_between (a b : Z) (q : Q) :
  (inject_Z a <= q <= inject_Z b)%Q -> (a <= round q <= b)%Z.
Proof.
  intros [Ha Hb]. unfold round. split.
  - apply floor_ge. lra.
  - enough (floor (q + (1 # 2)) < b + 1)%Z by lia.
    apply floor_lt. rewrite inject_Z_plus. change (inject_Z 1) with 1%Q. lra.
Qed.

Lemma keywordMatchRate_range (matched total : nat) :
  matched <= total -> (0 <= keywordMatchRate matched total <= 100)%Q.
Proof.
  intros Hle. unfold keywordMatchRate.
  destruct (Nat.ltb 0 total) eqn:E; [| split; discriminate].
  apply Nat.ltb_lt in E.
  assert (Ht : (0 < inject_Z (Z.of_nat total))%Q).
  { change 0%Q with (inject_Z 0). rewrite <- Zlt_Qlt. lia. }
  assert (Hm : (0 <= inject_Z (Z.of_nat matched))%Q).
  { change 0%Q with (inject_Z 0). rewrite <- Zle_Qle. lia. }
  assert (Hmt : (inject_Z (Z.of_nat matched) <= inject_Z (Z.of_nat total))%Q).
  { rewrite <- Zle_Qle. lia. }
  set (m := inject_Z (Z.of_nat matched)) in *.
  set (t := inject_Z (Z.of_nat total)) in *.
  assert (H0 : (0 <= m / t)%Q).
  { apply Qle_shift_div_l; [exact Ht | lra]. }
  assert (H1 : (m / t <= 1)%Q).
  { apply Qle_shift_div_r; [exact Ht | lra]. }
  split; lra.
Qed.

Lemma baseScoreOf_range (rate : Q) :
  (0 <= rate <= 100)%Q -> (20 <= baseScoreOf rate <= 80)%Q.
Proof.
  intros [H0 H1]. unfold baseScoreOf. split.
  - apply Q.min_glb; [apply Q.le_max_r | discriminate].
  - eapply Qle_trans; [apply Q.le_min_l |].
    apply Q.max_lub; [lra | discriminate].
Qed.

Lemma filter_length_le (A : Type) (f : A -> bool) (l : list A) :
  length (List.filter f l) <= length l.
Proof.
  induction l as [| x l IH]; cbn; [lia |]. destruct (f x); cbn; lia.
Qed.

Lemma fallback_baseScore (input : ResumeAnalysisInput) :
  let jobKeywords := extractKeywords (toLowerCase (jobDescription input)) in
  let resumeKeywords := extractKeywords (toLowerCase (resumeText input)) in
  (20 <= baseScoreOf
           (keywordMatchRate
              (length (List.filter (matches resumeKeywords) jobKeywords))
              (length jobKeywords)) <= 80)%Q.
Proof.
  cbv zeta. apply baseScoreOf_range, keywordMatchRate_range,
    filter_length_le.
Qed.

(** X24. The fallback analysis scores every resume between 20 and 80: the
    cap of 85 in the code is never reached, since a full keyword match
    gives 80.  The experience score lies between 18 and 72 and the skills
    score between 22 and 88. *)
Theorem fallback_score_range (input : ResumeAnalysisInput) :
  let r := performFallbackAnalysis input in
  (20 <= score r <= 80)%Z /\
  (18 <= a_score (experienceAlignment r) <= 72)%Z /\
  (22 <= a_score (skillsAlignment r) <= 88)%Z.
Proof.
  cbv zeta. unfold performFallbackAnalysis.
  cbn [score experienceAlignment skillsAlignment a_score].
  pose proof (fallback_baseScore input) as H. cbv zeta in H.
  set (base := baseScoreOf _) in *. clearbody base. destruct H as [H0 H1].
  split; [| split]; apply round_between; unfold inject_Z; split; lra.
Qed.

Lemma matchAll_go_substring (ci : bool) (r : re) (s : str) (skip p : nat)
    (k : str) :
  In k (matchAll_go ci r s skip p) -> exists a b, s = a ++ k ++ b.
Proof.
  revert skip p. induction s as [| c s IH]; intros skip p.
  - destruct skip; cbn [matchAll_go]; [| intros []].
    destruct (rmatch ci r Some _); [| intros []].
    intros [<- | []]. exists [], []. now destruct (pos _ - p).
  - destruct skip; cbn [matchAll_go].
    + destruct (rmatch ci r Some _) as [e |].
      * intros [<- | Hin].
        -- exists [], (skipn (pos e - p) (c :: s)). cbn [app].
           now rewrite firstn_skipn.
        -- destruct (IH _ _ Hin) as (a & b & ->). now exists (c :: a), b.
      * intros Hin. destruct (IH _ _ Hin) as (a & b & ->).
        now exists (c :: a), b.
    + intros Hin. destruct (IH _ _ Hin) as (a & b & ->).
      now exists (c :: a), b.
Qed.

Lemma extractKeywords_includes (text k : str) :
  In k (extractKeywords text) -> includes text k = true.
Proof.
  unfold extractKeywords. rewrite in_app_iff, filter_In.
  intros [[_ H] | H]; [exact H |].
  apply includes_spec. exact (matchAll_go_substring _ _ _ _ _ _ H).
Qed.

Lemma techSkill_found (text k : str) :
  In k techSkills -> includes text k = true -> In k (extractKeywords text).
Proof.
  intros Hk Hin. unfold extractKeywords. apply in_app_iff. left.
  apply filter_In. now split.
Qed.

Lemma matches_self (keywords : list str) (k : str) :
  In k keywords -> matches keywords k = true.
Proof.
  intros Hin. unfold matches. apply existsb_exists. exists k.
  split; [exact Hin |]. now rewrite includes_self.
Qed.

Lemma in_firstn (A : Type) (n : nat) (l : list A) (x : A) :
  In x (firstn n l) -> In x l.
Proof.
  revert n. induction l as [| y l IH]; intros [| n]; cbn; try tauto.
  intros [-> | H]; [now left | right; eauto].
Qed.

(** X25. The fallback analysis reports at most ten missing skills, and the
    keyword gaps are the first five of them.  Every reported skill occurs
    in the job description (in lower case), and a reported skill of the
    fixed skill list does not occur in the resume. *)
Theorem fallback_missing_skills (input : ResumeAnalysisInput) :
  let r := performFallbackAnalysis input in
  length (missingSkills r) <= 10 /\
  keywordGaps r = firstn 5 (missingSkills r) /\
  Forall (fun k =>
            includes (toLowerCase (jobDescription input)) k = true /\
            (In k techSkills ->
             includes (toLowerCase (resumeText input)) k = false))
         (missingSkills r).
Proof.
  cbv zeta. unfold performFallbackAnalysis.
  cbn [missingSkills keywordGaps].
  split; [apply firstn_le_length |]. split; [reflexivity |].
  apply List.Forall_forall. intros k Hk. apply in_firstn, filter_In in Hk.
  destruct Hk as [Hjob Hno]. apply negb_true_iff in Hno.
  split; [now apply extractKeywords_includes |].
  intros Hskill.
  destruct (includes (toLowerCase (resumeText input)) k) eqn:E;
    [| reflexivity].
  rewrite (matches_self _ k (techSkill_found _ k Hskill E)) in Hno.
  discriminate.
Qed.

(** The advice of the fallback analysis is never empty and stays short:
    one to three strengths, three to five improvements, and three to five
    recommendations, of which the advice to use the terminology of the
    job description is always one. *)
Lemma fallback_advice_bounded (input : ResumeAnalysisInput) :
  let r := performFallbackAnalysis input in
  1 <= length (strengths r) <= 3 /\
  3 <= length (improvements r) <= 5 /\
  3 <= length (actionableRecommendations r) <= 5 /\
  In (lit "Use the exact terminology from the job description where applicable")
     (actionableRecommendations r).
Proof.
  cbv zeta. unfold performFallbackAnalysis.
  cbn [strengths improvements actionableRecommendations].
  set (base := baseScoreOf _). clearbody base.
  set (missing := firstn 10 _). clearbody missing.
  split; [| split].
  - unfold generateFallbackStrengths.
    destruct (length (List.filter _ _)) as [| n]; [cbn; lia |].
    rewrite List.length_firstn. cbn [length]. lia.
  - unfold generateFallbackImprovements.
    destruct (Recat.Qltb base 50); [cbn; lia |].
    destruct (Recat.Qltb base 75); cbn; lia.
  - unfold generateFallbackRecommendations.
    destruct (Nat.ltb 0 (length missing));
      destruct (Recat.Qltb base 60); cbn; (split; [lia | tauto]).
Qed.

Lemma filter_all (A : Type) (f : A -> bool) (l : list A) :
  (forall x, In x l -> f x = true) -> List.filter f l = l.
Proof.
  induction l as [| x l IH]; intros H; [reflexivity |]. cbn.
  rewrite (H x (or_introl eq_refl)), IH; [reflexivity |].
  intros y Hy. apply H. now right.
Qed.

Lemma filter_none (A : Type) (f : A -> bool) (l : list A) :
  (forall x, In x l -> f x = true) ->
  List.filter (fun x => negb (f x)) l = [].
Proof.
  induction l as [| x l IH]; intros H; [reflexivity |]. cbn.
  rewrite (H x (or_introl eq_refl)). cbn. apply IH.
  intros y Hy. apply H. now right.
Qed.

(** X26. A resume identical to the job description has no missing skill
    and no keyword gap, and it scores 80, the highest score of the
    fallback, as soon as the description holds one keyword; without any
    keyword in the description the score is 20. *)
Theorem identical_resume_scores_80 (text : str) :
  let r := performFallbackAnalysis
             {| jobDescription := text; resumeText := text |} in
  missingSkills r = [] /\
  keywordGaps r = [] /\
  score r = if Nat.ltb 0 (length (extractKeywords (toLowerCase text)))
            then 80%Z else 20%Z.
Proof.
  cbv zeta. unfold performFallbackAnalysis.
  cbn [jobDescription resumeText missingSkills keywordGaps score].
  set (keywords := extractKeywords (toLowerCase text)).
  rewrite (filter_none _ (matches keywords) keywords (matches_self keywords)).
  rewrite (filter_all _ (matches keywords) keywords (matches_self keywords)).
  split; [reflexivity |]. split; [reflexivity |].
  destruct (Nat.ltb 0 (length keywords)) eqn:E.
  - apply Nat.ltb_lt in E.
    pose proof (keywordMatchRate_range (length keywords) (length keywords)
                  (Nat.le_refl _)) as [_ Hhi].
    assert (Hlo : (100 <= keywordMatchRate (length keywords)
                            (length keywords))%Q).
    { unfold keywordMatchRate.
      destruct (Nat.ltb_spec 0 (length keywords)) as [_ | ?]; [| lia].
      assert (Ht : (0 < inject_Z (Z.of_nat (length keywords)))%Q).
      { change 0%Q with (inject_Z 0). rewrite <- Zlt_Qlt. lia. }
      set (t := inject_Z _) in *.
      assert (H1 : (1 <= t / t)%Q).
      { apply Qle_shift_div_l; [exact Ht | lra]. }
      lra. }
    set (rate := keywordMatchRate _ _) in *. clearbody rate.
    enough (80 <= round (baseScoreOf rate) <= 80)%Z by lia.
    apply round_between. unfold inject_Z, baseScoreOf. split.
    + apply Q.min_glb; [| discriminate].
      eapply Qle_trans; [| apply Q.le_max_l]. lra.
    + eapply Qle_trans; [apply Q.le_min_l |].
      apply Q.max_lub; [lra | discriminate].
  - apply Nat.ltb_ge in E.
    destruct keywords as [| k ks]; [reflexivity | cbn in E; lia].
Qed.

End ResumeFacts.

Section ResumeService.

Import Resume.

Variable generateContent : ResumeAnalysisInput -> result str.
Variable parseResumeAnalysisResponse : str -> ResumeAnalysisResult.

(** X27. Resume analysis falls back rather than fail: without an
    initialized service, and on any error of the remote call whose
    message mentions 429 or quota, the result is the fallback analysis.
    An error is rethrown only when its message mentions neither: as an
    invalid-key error when it mentions API key, else as a network error
    when it mentions network or fetch; every other error gives the
    fallback analysis too. *)
Theorem analyzeResume_outcome (svc : service) (input : ResumeAnalysisInput) :
  (isAvailable svc = false ->
   analyzeResume generateContent parseResumeAnalysisResponse svc input
     = Ok (performFallbackAnalysis input)) /\
  (forall e,
     generateContent input = Throw e ->
     (includes e (lit "429") || includes e (lit "quota")) = true ->
     analyzeResume generateContent parseResumeAnalysisResponse svc input
       = Ok (performFallbackAnalysis input)) /\
  match analyzeResume generateContent parseResumeAnalysisResponse svc input
  with
  | Ok r =>
      r = performFallbackAnalysis input \/
      exists text,
        generateContent input = Ok text /\
        r = parseResumeAnalysisResponse text
  | Throw m =>
      exists e,
        generateContent input = Throw e /\
        includes e (lit "429") = false /\
        includes e (lit "quota") = false /\
        ((m = invalidKey /\ includes e (lit "API key") = true) \/
         (m = networkError /\ includes e (lit "API key") = false /\
          (includes e (lit "network") || includes e (lit "fetch")) = true))
  end.
Proof.
  unfold analyzeResume, isAvailable. split; [| split].
  - now intros ->.
  - intros e He Hq.
    destruct (negb (isInitialized svc) || negb (genAI svc)); [reflexivity |].
    now rewrite He, Hq.
  - destruct (negb (isInitialized svc) || negb (genAI svc)); [now left |].
    destruct (generateContent input) as [text | e]; [right; now exists text |].
    destruct (includes e (lit "429")) eqn:E1; [now left |].
    destruct (includes e (lit "quota")) eqn:E2; [now left |].
    cbn [orb].
    destruct (includes e (lit "API key")) eqn:E3.
    + exists e. repeat split; auto.
    + destruct (includes e (lit "network") || includes e (lit "fetch")) eqn:E4;
        [| now left].
      exists e. repeat split; auto.
Qed.

End ResumeService.

Section DebugFacts.

Import Debug.

Lemma filter_partition_length (A : Type) (f : A -> bool) (l : list A) :
  length (List.filter (fun x => negb (f x)) l) + length (List.filter f l)
    = length l.
Proof.
  induction l as [| x l IH]; [reflexivity |]. cbn.
  destruct (f x); cbn; lia.
Qed.

Lemma has_existing (existingJobs : list (option str)) (m : str) :
  has (existingEmailMessageIds existingJobs) (Some m) = true <->
  nonempty m = true /\ In (Some m) existingJobs.
Proof.
  unfold has, existingEmailMessageIds.
  rewrite bool_decide_eq_true, elem_of_list_to_set, list_elem_of_omap.
  split.
  - intros (o & Hin & Ho). apply list_elem_of_In in Hin.
    destruct o as [s |]; cbn in Ho; [| discriminate].
    destruct (nonempty s) eqn:E; [| discriminate].
    injection Ho as ->. now split.
  - intros [Hne Hin]. exists (Some m). split; [now apply list_elem_of_In |].
    cbn. now rewrite Hne.
Qed.

(** X28. The import report counts every scanned job once, as new or as
    duplicate, and expects the new flag on exactly the new ones.  A
    scanned job is a duplicate exactly when its message id is not empty
    and is the id of a stored job; a scanned job without message id is
    always new. *)
Theorem debugJobImport_partition
    (jobApplications existingJobs : list (option str)) :
  let r := debugJobImport jobApplications existingJobs in
  newJobs r + duplicates r = totalFound r /\
  totalFound r = length jobApplications /\
  expectedNewWithFlag r = newJobs r /\
  duplicates r
    = length (List.filter
                (fun m => match m with
                          | Some s =>
                              nonempty s &&
                              existsb (fun e => match e with
                                                | Some x => str_eqb x s
                                                | None => false
                                                end) existingJobs
                          | None => false
                          end)
                jobApplications).
Proof.
  cbv zeta. unfold debugJobImport.
  cbn [newJobs duplicates totalFound expectedNewWithFlag].
  split; [apply filter_partition_length |]. split; [reflexivity |].
  split; [reflexivity |]. f_equal. apply filter_ext. intros [m |]; [| reflexivity].
  apply eq_true_iff_eq. rewrite has_existing, andb_true_iff, existsb_exists.
  split.
  - intros [Hne Hin]. split; [exact Hne |]. exists (Some m).
    split; [exact Hin | apply str_eqb_refl].
  - intros [Hne (e & Hin & He)]. split; [exact Hne |].
    destruct e as [x |]; [| discriminate].
    apply str_eqb_true in He. now subst.
Qed.

End DebugFacts.

(* ===================================================================== *)
(** ** Further properties: the routes *)
(* ===================================================================== *)

Section ServerFacts.

Variable available : bool.
Variable analyzeEmail :
  AiService.EmailData ->
  result (option (AiService.EmailAnalysisResult * option str)).

(** X29. The analysis of the recategorization route either takes the
    answer of the AI service, which needs the service available, a
    record with e-mail data and an answer of confidence 0.3 or more, and
    then keeps the stored company and job title wherever the answer has
    none; or it agrees with the analysis of the client-side service in
    status, company, job title, confidence and method. *)
Theorem server_analysis_outcome (job : Recat.JobData) :
  let a := Server.analyzeJobWithAI available analyzeEmail job in
  let c := fst (Recat.analyzeJobWithAI job) in
  (Server.method a = ai /\
   available = true /\
   Stats.hasEmailData job = true /\
   exists r why,
     analyzeEmail (Server.emailDataOf job) = Ok (Some (r, why)) /\
     (3 # 10 <= AiService.confidence r)%Q /\
     Server.newStatus a = AiService.status r /\
     Server.confidence a = AiService.confidence r /\
     Server.reasoning a = why /\
     Server.newCompany a
       = Server.orString (AiService.company r) (Recat.companyName job) /\
     Server.newJobTitle a
       = Server.orString (AiService.jobTitle r) (Recat.jobTitle job)) \/
  (Server.method a = Recat.method c /\
   Server.method a <> ai /\
   Server.newStatus a = Recat.newStatus c /\
   Server.newCompany a = Recat.newCompany c /\
   Server.newJobTitle a = Recat.newJobTitle c /\
   Server.confidence a = Recat.confidence c).
Proof.
  cbv zeta. unfold Server.analyzeJobWithAI, Recat.analyzeJobWithAI,
    Stats.hasEmailData.
  rewrite <- negb_orb.
  destruct (truthy (Recat.emailSubject job) || truthy (Recat.emailFrom job));
    cbn [negb fst]; [| right; cbn; repeat split; discriminate].
  assert (Hpat :
    Server.method (Server.patternAnalysis job) = regex /\
    Server.method (Server.patternAnalysis job) <> ai /\
    Server.newStatus (Server.patternAnalysis job)
      = Recat.p_status (Recat.analyzeJobWithPatterns job) /\
    Server.newCompany (Server.patternAnalysis job)
      = Recat.orStr (Recat.p_company (Recat.analyzeJobWithPatterns job))
                    (Recat.companyName job) /\
    Server.newJobTitle (Server.patternAnalysis job)
      = Recat.orStr (Recat.p_jobTitle (Recat.analyzeJobWithPatterns job))
                    (Recat.jobTitle job) /\
    Server.confidence (Server.patternAnalysis job)
      = Recat.p_confidence (Recat.analyzeJobWithPatterns job)).
  { cbn. repeat split. discriminate. }
  destruct available; [| right; exact Hpat].
  destruct (analyzeEmail _) as [[[r why] |] | e] eqn:E;
    [| right; exact Hpat | right; exact Hpat].
  destruct (Qle_bool (3 # 10) (AiService.confidence r)) eqn:Ec;
    [| right; exact Hpat].
  left. apply Qle_bool_iff in Ec. cbn [Server.method].
  repeat split. exists r, why. repeat split. exact Ec.
Qed.

End ServerFacts.

Section ResumeRouteFacts.

Import Resume.

Variable generateContent : ResumeAnalysisInput -> result str.
Variable parseResumeAnalysisResponse : str -> ResumeAnalysisResult.
Variable svc : service.




End ResumeRouteFacts.

Section ResumeRouteExamples.

Import Resume.


End ResumeRouteExamples.
